(** * render-engine: the build pipeline of [site.py] and [collection.py]

    A shallow embedding of the collection enumeration, route assembly,
    fingerprint cache and render pass of the static site generator, with
    the properties of its specification stated and settled on it,
    followed by further properties of these sources and of two helpers of
    the command line in [cli.py].

    Conventions.
    - A Python [str] is a Rocq [string] holding its UTF-8 bytes; byte-wise
      lexicographic order on UTF-8 coincides with Python's code point
      order, and [str.encode('utf-8')] is the identity on this
      representation.
    - Code that can raise returns a [Result]; code that reads or mutates
      the site, the file system or a list object shared through a class
      attribute runs in the state-and-error monad [M].  A computation that
      raises has no state: what the files and the site hold after an
      exception is not part of the model.
    - Objects that are mutated after they were shared (the feeds of a
      class) are told apart by the place they are held at; distinct
      places are taken to hold distinct objects.
    - External collaborators (template engine, reflection over attributes,
      globbing, the page constructor) are section variables or record
      fields. *)

From Stdlib Require Import ZArith NArith Ascii String List Bool Lia.
From Stdlib Require Import Sorting.Sorted Sorting.Permutation.
From Stdlib Require OrderedTypeEx.
From stdpp Require Import base option list strings gmap.

Local Open Scope string_scope.
Local Open Scope list_scope.
#[local] Set Warnings "-clear-no-such-hyp".

(** ** Python orderings and [sorted] *)

Module PySort.

(** What [sorted] needs from its keys: the comparison [<=] of a total
    preorder.  [py_lt a b], Python's [a < b], is [negb (py_le b a)]. *)
Class PyOrd (K : Type) := {
  py_le : K -> K -> bool;
  py_le_total : forall a b, py_le a b = true \/ py_le b a = true;
  py_le_trans : forall a b c, py_le a b = true -> py_le b c = true -> py_le a c = true
}.

Definition py_lt {K} `{PyOrd K} (a b : K) : bool := negb (py_le b a).

(** Keys that compare equal ([a <= b] and [b <= a]). *)
Definition py_eqv {K} `{PyOrd K} (a b : K) : bool := py_le a b && py_le b a.

Section Sorted.
Context {A K : Type} `{PyOrd K}.
Variable key : A -> K.

(** [x] stood before every element of the sorted tail [l]: it moves right
    past the elements with a strictly smaller key and stops before the
    first other one, so it stays ahead of the elements with an equal key.
    Only [<] is used, as in CPython's [list.sort]. *)
Fixpoint insert_before (x : A) (l : list A) : list A :=
  match l with
  | [] => [x]
  | y :: l' => if py_lt (key y) (key x) then y :: insert_before x l'
               else x :: y :: l'
  end.

(** The stable ascending sort that [list.sort] computes. *)
Fixpoint stable_sort (l : list A) : list A :=
  match l with
  | [] => []
  | x :: l' => insert_before x (stable_sort l')
  end.

(** [sorted(l, key=key, reverse=reverse)].  With [reverse=True] CPython
    reverses the list, sorts it ascending and reverses the result, which
    keeps the original order among equal keys. *)
Definition sorted (reverse : bool) (l : list A) : list A :=
  if reverse then rev (stable_sort (rev l)) else stable_sort l.

(** [a] may stand before [b] in an ascending, resp. descending, list. *)
Definition ascending (a b : A) : Prop := py_le (key a) (key b) = true.
Definition descending (a b : A) : Prop := py_le (key b) (key a) = true.

(** The elements of [l] whose key compares equal to [k], in order. *)
Definition with_key (k : K) (l : list A) : list A :=
  filter (fun x => py_eqv k (key x) = true) l.

End Sorted.

(** [str]: lexicographic on the bytes. *)
#[global, refine] Instance str_ord : PyOrd string := {| py_le := String.leb |}.
Proof.
  - apply String.leb_total.
  - intros a b c. unfold String.leb.
    destruct (String.compare a b) eqn:Hab; try discriminate;
      destruct (String.compare b c) eqn:Hbc; try discriminate;
      destruct (String.compare a c) eqn:Hac; try reflexivity; intros _ _; exfalso.
    + apply OrderedTypeEx.String_as_OT.cmp_eq in Hab, Hbc. subst.
      pose proof (proj2 (OrderedTypeEx.String_as_OT.cmp_eq c c) eq_refl) as Hcc.
      unfold OrderedTypeEx.String_as_OT.cmp in Hcc. congruence.
    + apply OrderedTypeEx.String_as_OT.cmp_eq in Hab. subst. congruence.
    + apply OrderedTypeEx.String_as_OT.cmp_eq in Hbc. subst. congruence.
    + apply OrderedTypeEx.String_as_OT.cmp_lt in Hab, Hbc.
      pose proof (OrderedTypeEx.String_as_OT.lt_trans _ _ _ Hab Hbc) as Hlt.
      apply OrderedTypeEx.String_as_OT.cmp_lt in Hlt.
      unfold OrderedTypeEx.String_as_OT.cmp in Hlt. congruence.
Defined.

(** [int], for the non-negative numbers that [len] returns. *)
#[global, refine] Instance nat_ord : PyOrd nat := {| py_le := Nat.leb |}.
Proof.
  - intros a b. destruct (Nat.leb_spec a b); [left | right]; [done | apply Nat.leb_le; lia].
  - intros a b c Hab Hbc. apply Nat.leb_le in Hab, Hbc. apply Nat.leb_le. lia.
Defined.

(** Pairs compare as Python tuples do: by the first components unless
    they are equal, then by the second.  (On [str] and [int], [==] holds
    exactly for keys that compare equal.) *)
#[global, refine] Instance pair_ord {K1 K2} `{PyOrd K1} `{PyOrd K2} : PyOrd (K1 * K2) :=
  {| py_le a b := py_lt a.1 b.1 || (py_eqv a.1 b.1 && py_le a.2 b.2) |}.
Proof.
  - intros [a1 a2] [b1 b2]. unfold py_lt, py_eqv. simpl.
    destruct (py_le_total a1 b1) as [E|E], (py_le_total a2 b2) as [F|F];
      rewrite ?E, ?F; destruct (py_le b1 a1) eqn:G, (py_le a1 b1) eqn:G';
      simpl; rewrite ?F; auto; discriminate.
  - intros [a1 a2] [b1 b2] [c1 c2]. unfold py_lt, py_eqv. simpl.
    intros Hab Hbc.
    destruct (py_le b1 a1) eqn:Eba, (py_le a1 b1) eqn:Eab; simpl in Hab; try discriminate;
      destruct (py_le c1 b1) eqn:Ecb, (py_le b1 c1) eqn:Ebc; simpl in Hbc; try discriminate;
      destruct (py_le c1 a1) eqn:Eca; simpl; try reflexivity;
      rewrite ?(py_le_trans a1 b1 c1 Eab Ebc); simpl;
      try (rewrite (py_le_trans _ _ _ Ecb Eba) in Eca; discriminate);
      try (rewrite (py_le_trans _ _ _ Eca Eab) in Ecb; discriminate);
      try (rewrite (py_le_trans _ _ _ Ebc Eca) in Eba; discriminate);
      try (destruct (py_le_total a1 b1); congruence);
      try (destruct (py_le_total b1 c1); congruence);
      eauto using py_le_trans.
Defined.

End PySort.

(** ** Python strings *)

Module PyStr.

(** [s.lstrip(c)] and [s.rstrip(c)] for a single character [c]. *)
Fixpoint lstrip (c : ascii) (s : string) : string :=
  match s with
  | String a s' => if Ascii.eqb a c then lstrip c s' else s
  | EmptyString => EmptyString
  end.

Fixpoint rstrip (c : ascii) (s : string) : string :=
  match s with
  | String a s' =>
      match rstrip c s' with
      | EmptyString => if Ascii.eqb a c then EmptyString else String a EmptyString
      | r => String a r
      end
  | EmptyString => EmptyString
  end.

(** [s.strip(c)]. *)
Definition strip (c : ascii) (s : string) : string := rstrip c (lstrip c s).

(** [s.split(sep)] for a single character: [acc] is the field being read. *)
Fixpoint split_on (sep : ascii) (acc : string) (s : string) : list string :=
  match s with
  | EmptyString => [acc]
  | String a s' =>
      if Ascii.eqb a sep then acc :: split_on sep EmptyString s'
      else split_on sep (acc +:+ String a EmptyString) s'
  end.

(** [''.join(l)]. *)
Definition join (l : list string) : string := foldr String.append EmptyString l.

Definition LF : ascii := "010"%char.
Definition CR : ascii := "013"%char.

(** Number of bytes of the line boundary that starts [s], [0] when [s] does
    not start with one.  The boundaries of [str.splitlines] are
    LF, VT, FF, CR, CR LF, FS, GS, RS, and U+0085, U+2028 and U+2029, whose
    UTF-8 encodings are C2 85, E2 80 A8 and E2 80 A9. *)
Definition line_break (s : string) : nat :=
  match s with
  | EmptyString => 0
  | String c rest =>
      let n := nat_of_ascii c in
      if (n =? 13)%nat then
        match rest with
        | String d _ => if (nat_of_ascii d =? 10)%nat then 2 else 1
        | EmptyString => 1
        end
      else if ((n =? 10) || (n =? 11) || (n =? 12) || (n =? 28) || (n =? 29) || (n =? 30))%nat
      then 1
      else if (n =? 194)%nat then
        match rest with
        | String d _ => if (nat_of_ascii d =? 133)%nat then 2 else 0
        | EmptyString => 0
        end
      else if (n =? 226)%nat then
        match rest with
        | String d (String e _) =>
            if ((nat_of_ascii d =? 128) &&
                ((nat_of_ascii e =? 168) || (nat_of_ascii e =? 169)))%nat
            then 3 else 0
        | _ => 0
        end
      else 0
  end.

(** [s.splitlines(True)]: the lines of [s], each with its line boundary.
    [pending] counts the bytes of the current boundary still to be read and
    [cur] is the line being read. *)
Fixpoint splitlines_go (pending : nat) (cur : string) (s : string) : list string :=
  match s with
  | EmptyString => match cur with EmptyString => [] | _ => [cur] end
  | String c s' =>
      let p := match pending with 0 => line_break s | _ => pending end in
      match p with
      | 0 => splitlines_go 0 (cur +:+ String c EmptyString) s'
      | 1 => (cur +:+ String c EmptyString) :: splitlines_go 0 EmptyString s'
      | S p' => splitlines_go p' (cur +:+ String c EmptyString) s'
      end
  end.

Definition splitlines_keepends (s : string) : list string :=
  splitlines_go 0 EmptyString s.

(** Reading in text mode (universal newlines): CR LF and CR become LF. *)
Fixpoint universal_newlines (s : string) : string :=
  match s with
  | EmptyString => EmptyString
  | String c s' =>
      if Ascii.eqb c CR then
        match s' with
        | String d s'' =>
            if Ascii.eqb d LF then universal_newlines s'
            else String LF (universal_newlines s')
        | EmptyString => String LF EmptyString
        end
      else String c (universal_newlines s')
  end.

(** A byte that starts no line boundary. *)
Definition plain_byte (c : ascii) : bool :=
  let n := nat_of_ascii c in
  negb ((n =? 10) || (n =? 11) || (n =? 12) || (n =? 13) || (n =? 28) ||
        (n =? 29) || (n =? 30) || (n =? 194) || (n =? 226))%nat.

Fixpoint plain (s : string) : bool :=
  match s with
  | EmptyString => true
  | String c s' => plain_byte c && plain s'
  end.

(** One record of the cache file: a body with no line boundary, then LF. *)
Definition is_record (s : string) : Prop :=
  exists body, plain body = true /\ s = body +:+ String LF EmptyString.

End PyStr.

(** ** [hashlib.sha1] *)

Module Hashlib.

Local Open Scope N_scope.

Definition w32 (x : N) : N := x mod 2 ^ 32.
Definition add32 (x y : N) : N := w32 (x + y).
Definition not32 (x : N) : N := N.lxor x (2 ^ 32 - 1).
Definition rotl (n x : N) : N :=
  w32 (N.lor (N.shiftl x n) (N.shiftr x (32 - n))).

(** The message, a [0x80] byte, zero bytes up to 56 modulo 64, and the bit
    length of the message as a 64-bit big-endian number. *)
Definition be_bytes (k : nat) (x : N) : list N :=
  map (fun i => N.shiftr x (8 * N.of_nat i) mod 256) (rev (seq 0 k)).

Definition pad (msg : list N) : list N :=
  let len := N.of_nat (length msg) in
  let zeros := N.to_nat ((119 - len mod 64) mod 64) in
  msg ++ [128] ++ repeat 0 zeros ++ be_bytes 8 (8 * len).

Fixpoint be_words (fuel : nat) (bs : list N) : list N :=
  match fuel, bs with
  | S f, a :: b :: c :: d :: bs' =>
      (N.shiftl a 24 + N.shiftl b 16 + N.shiftl c 8 + d) :: be_words f bs'
  | _, _ => []
  end.

Fixpoint chunks (fuel : nat) (ws : list N) : list (list N) :=
  match fuel, ws with
  | S f, _ :: _ => firstn 16 ws :: chunks f (skipn 16 ws)
  | _, _ => []
  end.

(** The message schedule: [w] holds the words computed so far, newest first. *)
Fixpoint schedule (n : nat) (w : list N) : list N :=
  match n with
  | O => w
  | S n' =>
      let x := N.lxor (N.lxor (nth 2 w 0) (nth 7 w 0))
                      (N.lxor (nth 13 w 0) (nth 15 w 0)) in
      schedule n' (rotl 1 x :: w)
  end.

Definition round (t : nat) (st : N * N * N * N * N) (wt : N) : N * N * N * N * N :=
  let '(a, b, c, d, e) := st in
  let '(f, k) :=
    if (t <? 20)%nat then (N.lor (N.land b c) (N.land (not32 b) d), 1518500249)
    else if (t <? 40)%nat then (N.lxor (N.lxor b c) d, 1859775393)
    else if (t <? 60)%nat then
      (N.lor (N.lor (N.land b c) (N.land b d)) (N.land c d), 2400959708)
    else (N.lxor (N.lxor b c) d, 3395469782) in
  let tmp := add32 (add32 (add32 (add32 (rotl 5 a) f) e) k) wt in
  (tmp, a, rotl 30 b, c, d).

Fixpoint rounds (t : nat) (ws : list N) (st : N * N * N * N * N) : N * N * N * N * N :=
  match ws with
  | [] => st
  | wt :: ws' => rounds (S t) ws' (round t st wt)
  end.

Definition compress (h : N * N * N * N * N) (block : list N) : N * N * N * N * N :=
  let w := rev (schedule 64 (rev block)) in
  let '(h0, h1, h2, h3, h4) := h in
  let '(a, b, c, d, e) := rounds 0 w h in
  (add32 h0 a, add32 h1 b, add32 h2 c, add32 h3 d, add32 h4 e).

(** The five 32-bit words of the digest of a byte string. *)
Definition sha1 (s : string) : N * N * N * N * N :=
  let bs := pad (map N_of_ascii (list_ascii_of_string s)) in
  let ws := be_words (length bs) bs in
  fold_left compress (chunks (length ws) ws)
    (1732584193, 4023233417, 2562383102, 271733878, 3285377520).

Definition hex_digit (n : N) : ascii :=
  match n with
  | 0 => "0" | 1 => "1" | 2 => "2" | 3 => "3" | 4 => "4" | 5 => "5"
  | 6 => "6" | 7 => "7" | 8 => "8" | 9 => "9" | 10 => "a" | 11 => "b"
  | 12 => "c" | 13 => "d" | 14 => "e" | _ => "f"
  end%char.

(** The eight lower-case hexadecimal digits of a 32-bit word. *)
Definition hex_word (w : N) : string :=
  string_of_list_ascii
    (map (fun i => hex_digit (N.shiftr w (4 * N.of_nat i) mod 16)) (rev (seq 0 8))).

(** [hashlib.sha1(s).hexdigest()]. *)
Definition hexdigest (s : string) : string :=
  let '(h0, h1, h2, h3, h4) := sha1 s in
  hex_word h0 +:+ hex_word h1 +:+ hex_word h2 +:+ hex_word h3 +:+ hex_word h4.

End Hashlib.

(** ** Exceptions *)

Inductive PyError : Set :=
| FileNotFoundError | FileExistsError | IsADirectoryError | NotADirectoryError
| SameFileError | ShutilError | ValueError | KeyError | IndexError
| AttributeError | OSError.

Inductive Result (A : Type) : Type :=
| Ok (a : A)
| Raise (e : PyError).
Arguments Ok {A} a.
Arguments Raise {A} e.

#[global] Instance Result_ret : MRet Result := fun A a => Ok a.
#[global] Instance Result_bind : MBind Result := fun A B f m =>
  match m with Ok a => f a | Raise e => Raise e end.

(** ** [pathlib] on POSIX paths *)

(** A path is its anchor ([true] for a path from the root, [false] for a
    path from the working directory) and its components. *)
Abbreviation Path := (bool * list string)%type.

Module Pathlib.

(** [Path(s)]: empty components and [.] components are dropped. *)
Definition parse (s : string) : Path :=
  (String.prefix "/" s,
   filter (fun x => x ≠ EmptyString ∧ x ≠ ".") (PyStr.split_on "/" EmptyString s)).

(** [p.joinpath(q)]: an anchored [q] replaces [p]. *)
Definition joinpath (p q : Path) : Path :=
  if q.1 then q else (p.1, p.2 ++ q.2).

Definition parent (p : Path) : Path := (p.1, removelast p.2).

(** [p.name], the last component, empty for a bare anchor. *)
Definition name (p : Path) : string := default EmptyString (last p.2).

(** The longest prefix of [l] without the character [c]. *)
Fixpoint before_char (c : ascii) (l : list ascii) : list ascii :=
  match l with
  | [] => []
  | a :: l' => if Ascii.eqb a c then [] else a :: before_char c l'
  end.

(** The name split at its last dot into stem and suffix; the suffix is
    empty when the name has no dot, starts with its only dot or ends with
    a dot ([0 < i < len(name) - 1] for [i = name.rfind('.')]). *)
Definition split_suffix (nm : string) : string * string :=
  let r := rev (list_ascii_of_string nm) in
  let ext := before_char "." r in
  match drop (length ext) r, ext with
  | _ :: (_ :: _) as stem, _ :: _ =>
      (string_of_list_ascii (rev stem), string_of_list_ascii (rev (ext ++ ["."%char])))
  | _, _ => (nm, EmptyString)
  end.

Fixpoint contains (c : ascii) (s : string) : bool :=
  match s with
  | EmptyString => false
  | String a s' => Ascii.eqb a c || contains c s'
  end.

(** [p.with_suffix(suffix)]. *)
Definition with_suffix (p : Path) (suffix : string) : Result Path :=
  if contains "/" suffix then Raise ValueError
  else if (negb (String.eqb suffix EmptyString) && negb (String.prefix "." suffix))
          || String.eqb suffix "."
  then Raise ValueError
  else if String.eqb (name p) EmptyString then Raise ValueError
  else Ok (p.1, removelast p.2 ++ [(split_suffix (name p)).1 +:+ suffix]).

End Pathlib.

(** ** The file system *)

Inductive node : Type :=
| Dir
| File (content : string).

(** A tree of directories and regular files, keyed by path; no links.
    The two anchors (the root and the working directory) are
    directories that always exist. *)
Abbreviation FS := (gmap Path node).

Module FS.

Definition lookup_node (fs : FS) (p : Path) : option node :=
  match p.2 with
  | [] => Some Dir
  | _ => fs !! p
  end.

(** [p.exists()] and [p.is_dir()]. *)
Definition exists_ (fs : FS) (p : Path) : bool :=
  match lookup_node fs p with Some _ => true | None => false end.

Definition is_dir (fs : FS) (p : Path) : bool :=
  match lookup_node fs p with Some Dir => true | _ => false end.

(** [p.mkdir(exist_ok=True)]: the parent must be a directory. *)
Definition mkdir_exist_ok (fs : FS) (p : Path) : Result FS :=
  match lookup_node fs p with
  | Some Dir => Ok fs
  | Some (File _) => Raise FileExistsError
  | None =>
      match lookup_node fs (Pathlib.parent p) with
      | Some Dir => Ok (<[p := Dir]> fs)
      | Some (File _) => Raise NotADirectoryError
      | None => Raise FileNotFoundError
      end
  end.

(** [p.write_text(content)], also [open(p, 'w').write(content)]. *)
Definition write_text (fs : FS) (p : Path) (content : string) : Result FS :=
  match lookup_node fs p with
  | Some Dir => Raise IsADirectoryError
  | _ =>
      match lookup_node fs (Pathlib.parent p) with
      | Some Dir => Ok (<[p := File content]> fs)
      | Some (File _) => Raise NotADirectoryError
      | None => Raise FileNotFoundError
      end
  end.

(** The bytes of the file at [p]. *)
Definition read_file (fs : FS) (p : Path) : Result string :=
  match lookup_node fs p with
  | Some (File c) => Ok c
  | Some Dir => Raise IsADirectoryError
  | None => Raise FileNotFoundError
  end.

(** [p.read_text()]. *)
Definition read_text (fs : FS) (p : Path) : Result string :=
  c ← read_file fs p; mret (PyStr.universal_newlines c).

(** [shutil.copy(src, dst)]: a destination that is a directory receives
    the file under the source's name; copying a file onto itself raises. *)
Definition copy (fs : FS) (src dst : Path) : Result FS :=
  let dst' := if is_dir fs dst then Pathlib.joinpath dst (false, [Pathlib.name src])
              else dst in
  match lookup_node fs src with
  | None => Raise FileNotFoundError
  | Some n =>
      if decide (src = dst') then Raise SameFileError
      else match n with
           | Dir => Raise IsADirectoryError
           | File c => write_text fs dst' c
           end
  end.

(** [q] is [p] or lies below [p]. *)
Definition under (p q : Path) : Prop := p.1 = q.1 ∧ p.2 `prefix_of` q.2.

#[global] Instance under_dec p q : Decision (under p q).
Proof. unfold under. apply _. Defined.

(** The file system without [p] and everything below it. *)
Definition remove_tree (fs : FS) (p : Path) : FS :=
  filter (fun kv => ¬ under p kv.1) fs.

(** [shutil.rmtree(p)].  The working directory and the root cannot be
    removed: on them the call deletes what is below and then raises. *)
Definition rmtree (fs : FS) (p : Path) : Result FS :=
  match p.2 with
  | [] => Raise OSError
  | _ :: _ =>
      match lookup_node fs p with
      | None => Raise FileNotFoundError
      | Some (File _) => Raise NotADirectoryError
      | Some Dir => Ok (remove_tree fs p)
      end
  end.

(** [os.makedirs(p, exist_ok=True)]: [done] is the part of [p] already
    walked. *)
Fixpoint makedirs_from (fs : FS) (anchor : bool) (done todo : list string) : Result FS :=
  match todo with
  | [] => Ok fs
  | x :: todo' =>
      fs' ← mkdir_exist_ok fs (anchor, done ++ [x]);
      makedirs_from fs' anchor (done ++ [x]) todo'
  end.

Definition makedirs (fs : FS) (p : Path) : Result FS :=
  makedirs_from fs p.1 [] p.2.

(** The entries strictly below [src], as paths relative to [src]. *)
Definition entries_below (fs : FS) (src : Path) : list (list string * node) :=
  omap (fun kv : Path * node =>
          if decide (under src kv.1 ∧ kv.1 ≠ src)
          then Some (drop (length src.2) kv.1.2, kv.2) else None)
       (map_to_list fs).

Fixpoint foldM {A B : Type} (f : B -> A -> Result B) (l : list A) (b : B) : Result B :=
  match l with
  | [] => Ok b
  | a :: l' => b' ← f b a; foldM f l' b'
  end.

(** [shutil.copytree(src, dst, dirs_exist_ok=True)]: the directories of
    the source tree are made below [dst], then its files are copied; any
    failure makes the call raise. *)
Definition copytree (fs : FS) (src dst : Path) : Result FS :=
  let es := entries_below fs src in
  let fail {A} (r : Result A) : Result A :=
    match r with Ok a => Ok a | Raise _ => Raise ShutilError end in
  fs1 ← makedirs fs dst;
  fs2 ← fail (foldM (fun f e =>
                 match e.2 with
                 | Dir => makedirs f (dst.1, dst.2 ++ e.1)
                 | File _ => Ok f
                 end) es fs1);
  fail (foldM (fun f e =>
          match e.2 with
          | Dir => Ok f
          | File _ => copy f (src.1, src.2 ++ e.1) (dst.1, dst.2 ++ e.1)
          end) es fs2).

End FS.

(** ** Pages *)

(** A render engine: the extension of its output files and a name that
    tells engines apart.  Its [render] method is external, see
    [engine_render] below. *)
Record Engine : Type := { extension : string; engine_name : string }.

Module Page.

(** The attributes of a page that [site.py] and [collection.py] read or
    assign (class [Page] itself is not part of the sources at hand).
    [base_content] is [None] for a page without that attribute, [engine]
    is [None] for a page whose [engine] attribute is absent or falsy, and
    [pages] holds the children of an archive page.  [place] is not an
    attribute: it tells which object a registered feed is (the list
    object that holds it, by address, and its index there), so that the
    routes that are this very object are told from equal copies; it is
    [None] for every other page. *)
#[warnings="-register-all"]
Inductive t : Type := Build {
  slug : string;
  title : string;
  routes : list string;
  template : string;
  base_content : option string;
  always_refresh : bool;
  engine : option Engine;
  no_index : bool;
  link : string;
  content_path : option Path;
  pages : list t;
  place : option (nat * nat)
}.

Definition set_slug (v : string) (p : t) : t :=
  Build v (title p) (routes p) (template p) (base_content p) (always_refresh p)
        (engine p) (no_index p) (link p) (content_path p) (pages p) (place p).
Definition set_title (v : string) (p : t) : t :=
  Build (slug p) v (routes p) (template p) (base_content p) (always_refresh p)
        (engine p) (no_index p) (link p) (content_path p) (pages p) (place p).
Definition set_routes (v : list string) (p : t) : t :=
  Build (slug p) (title p) v (template p) (base_content p) (always_refresh p)
        (engine p) (no_index p) (link p) (content_path p) (pages p) (place p).
Definition set_template (v : string) (p : t) : t :=
  Build (slug p) (title p) (routes p) v (base_content p) (always_refresh p)
        (engine p) (no_index p) (link p) (content_path p) (pages p) (place p).
Definition set_engine (v : option Engine) (p : t) : t :=
  Build (slug p) (title p) (routes p) (template p) (base_content p) (always_refresh p)
        v (no_index p) (link p) (content_path p) (pages p) (place p).
Definition set_link (v : string) (p : t) : t :=
  Build (slug p) (title p) (routes p) (template p) (base_content p) (always_refresh p)
        (engine p) (no_index p) v (content_path p) (pages p) (place p).
Definition set_pages (v : list t) (p : t) : t :=
  Build (slug p) (title p) (routes p) (template p) (base_content p) (always_refresh p)
        (engine p) (no_index p) (link p) (content_path p) v (place p).
Definition set_place (v : option (nat * nat)) (p : t) : t :=
  Build (slug p) (title p) (routes p) (template p) (base_content p) (always_refresh p)
        (engine p) (no_index p) (link p) (content_path p) (pages p) v.

(** Modelled from the spec: what [for archive in collection.archive]
    iterates over depends on class [Page], which is not among the
    sources; the spec has the one archive page appended to the routes. *)
Definition iter (p : t) : list t := [p].

End Page.

(** ** Collections *)

(** The list objects that classes hold in their [content_items] and
    [feeds] attributes, by address.  An instance reads
    [self.content_items] from its class, so every instance of a class, and
    every subclass that does not assign the attribute, shares one list. *)
Abbreviation Heap := (gmap nat (list Page.t)).

Module Collection.

Section Collection.
Context {K : Type}.

(** The class attributes of a collection class.  [content_items] is the
    address of the list the class holds, [page_content_type] builds a page
    from a content file, [archive_content_type] is the page that
    [archive_content_type(no_index=True)] returns and
    [archive_default_sort] the key the archive is sorted by.  Class
    [Collection] defines no [title], [slug] or [feeds]: they are [None]
    for a class that does not define them, and reading them then raises
    [AttributeError]; [feeds] is the address of the list of feed objects
    that the class holds. *)
Record t : Type := {
  class_name : string;
  title : option string;
  slug : option string;
  page_content_type : FS -> Path -> Page.t;
  content_path : string;
  content_items : nat;
  template : string;
  includes : list string;
  routes : list string;
  subcollections : list string;
  has_archive : bool;
  archive_template : string;
  archive_slug : string;
  archive_content_type : Page.t;
  archive_reverse : bool;
  archive_default_sort : Page.t -> K;
  feeds : option nat
}.

Context `{PySort.PyOrd K}.

(** [Path(root).glob(pattern)]: external, a function of the file system. *)
Variable glob : FS -> Path -> string -> list Path.
Variable fs : FS.

(** The pages made from the content files that match [includes]. *)
Definition discover (c : t) : list Page.t :=
  flat_map (fun pattern =>
    map (fun filepath =>
           Page.set_template (template c)
             (Page.set_routes (routes c) (page_content_type c fs filepath)))
        (glob fs (Pathlib.parse (content_path c)) pattern))
    (includes c).

(** The property [pages].  [_pages] is the class's list object itself,
    not a copy: the pages found are appended to it in place.  (The warning
    logged for the root directory has no effect on the result.) *)
Definition pages (c : t) (h : Heap) : list Page.t * Heap :=
  let _pages := h !!! content_items c in
  if negb (FS.exists_ fs (Pathlib.parse (content_path c))) then (_pages, h)
  else
    let _pages := _pages ++ discover c in
    (_pages, <[content_items c := _pages]> h).

(** The property [archive]. *)
Definition archive (c : t) (h : Heap) : Page.t * Heap :=
  let archive_page := archive_content_type c in
  let archive_page := Page.set_template (archive_template c) archive_page in
  let archive_page := Page.set_slug (archive_slug c) archive_page in
  let archive_page := Page.set_engine None archive_page in
  let archive_page := Page.set_title (class_name c) archive_page in
  let '(ps, h') := pages c h in
  (Page.set_pages (PySort.sorted (archive_default_sort c) (archive_reverse c) ps)
     archive_page, h').

(** [n] accesses of [pages] in a row, with their results. *)
Fixpoint pages_times (n : nat) (c : t) (h : Heap) : list (list Page.t) * Heap :=
  match n with
  | O => ([], h)
  | S n' =>
      let '(ps, h1) := pages c h in
      let '(rest, h2) := pages_times n' c h1 in
      (ps :: rest, h2)
  end.

End Collection.
Arguments t K : clear implicits.

End Collection.

(** ** The site *)

(** The order in which a Python [set] of strings is iterated: some
    enumeration of its elements. *)
Record SetOrder : Type := {
  iter_set : gset string -> list string;
  iter_set_perm : forall s, iter_set s ≡ₚ elements s
}.

Module Site.

(** The class attributes of a site class. *)
Record Config : Type := {
  output_path : Path;
  static_path : Path;
  SITE_TITLE : string;
  SITE_URL : string;
  strict : bool;
  default_engine : Engine;
  rss_engine : Engine;
  cache_file : Path
}.

(** What [_render_output] returns: ["<filename> written"] or
    ["<filename> skipped"]. *)
Inductive Outcome : Type :=
| written (filename : Path)
| skipped (filename : Path).

Definition is_written (o : Outcome) : bool :=
  match o with written _ => true | skipped _ => false end.

(** [hash_content]: the fingerprint of a page, a line of the cache. *)
Definition hash_content (route : Page.t) : string :=
  Hashlib.hexdigest (default EmptyString (Page.base_content route))
    +:+ String PyStr.LF EmptyString.

(** A dictionary in insertion order. *)
Fixpoint dict_set {V : Type} (k : string) (v : V) (d : list (string * V)) : list (string * V) :=
  match d with
  | [] => [(k, v)]
  | (k', v') :: d' => if String.eqb k' k then (k, v) :: d' else (k', v') :: dict_set k v d'
  end.

Fixpoint dict_get {V : Type} (k : string) (d : list (string * V)) : option V :=
  match d with
  | [] => None
  | (k', v') :: d' => if String.eqb k' k then Some v' else dict_get k d'
  end.

Section Site.
Context {K : Type} `{PySort.PyOrd K}.

(** The site object, the file system and the shared lists.
    [engine_calls] is not an attribute of the site: it records every call
    of an engine's [render], in order. *)
Record State : Type := {
  fs : FS;
  heap : Heap;
  hashes : gset string;
  routes : list Page.t;
  collections : list (string * Collection.t K);
  subcollections : list (string * list (Collection.t K));
  engine_calls : list (Engine * Page.t)
}.

Definition set_fs (v : FS) (st : State) : State :=
  Build_State v (heap st) (hashes st) (routes st) (collections st)
              (subcollections st) (engine_calls st).
Definition set_heap (v : Heap) (st : State) : State :=
  Build_State (fs st) v (hashes st) (routes st) (collections st)
              (subcollections st) (engine_calls st).
Definition set_hashes (v : gset string) (st : State) : State :=
  Build_State (fs st) (heap st) v (routes st) (collections st)
              (subcollections st) (engine_calls st).
Definition set_routes (v : list Page.t) (st : State) : State :=
  Build_State (fs st) (heap st) (hashes st) v (collections st)
              (subcollections st) (engine_calls st).
Definition set_collections (v : list (string * Collection.t K)) (st : State) : State :=
  Build_State (fs st) (heap st) (hashes st) (routes st) v
              (subcollections st) (engine_calls st).
Definition set_subcollections (v : list (string * list (Collection.t K))) (st : State) : State :=
  Build_State (fs st) (heap st) (hashes st) (routes st) (collections st)
              v (engine_calls st).
Definition set_engine_calls (v : list (Engine * Page.t)) (st : State) : State :=
  Build_State (fs st) (heap st) (hashes st) (routes st) (collections st)
              (subcollections st) v.

(** Computations on the state that may raise. *)
Definition M (A : Type) : Type := State -> Result (A * State).

#[global] Instance M_ret : MRet M := fun A a st => Ok (a, st).
#[global] Instance M_bind : MBind M := fun A B f m st =>
  match m st with
  | Ok (a, st') => f a st'
  | Raise e => Raise e
  end.

Definition get : M State := fun st => Ok (st, st).
Definition modify (f : State -> State) : M unit := fun st => Ok (tt, f st).
Definition lift {A} (r : Result A) : M A := fun st =>
  match r with Ok a => Ok (a, st) | Raise e => Raise e end.

(** A file system operation on the state. *)
Definition on_fs (op : FS -> Result FS) : M unit :=
  st ← get; f ← lift (op (fs st)); modify (set_fs f).

(** A collection property, which may grow a shared list. *)
Definition on_heap {A} (op : FS -> Heap -> A * Heap) : M A :=
  st ← get;
  let '(a, h) := op (fs st) (heap st) in
  modify (set_heap h);; mret a.

Definition append_route (p : Page.t) : M unit :=
  modify (fun st => set_routes (routes st ++ [p]) st).

Fixpoint for_each {A} (l : list A) (body : A -> M unit) : M unit :=
  match l with
  | [] => mret tt
  | a :: l' => body a;; for_each l' body
  end.

Fixpoint map_each {A B} (l : list A) (body : A -> M B) : M (list B) :=
  match l with
  | [] => mret []
  | a :: l' => b ← body a; bs ← map_each l' body; mret (b :: bs)
  end.

(** External collaborators. *)
Variable cfg : Config.
Variable glob : FS -> Path -> string -> list Path.
Context {Attrs : Type}.
Variable get_public_attributes : State -> Page.t -> Attrs.
Variable engine_render : Engine -> Page.t -> Attrs -> string.
Variable order : SetOrder.

(** [Collection.get_subcollections], which is not among the sources: for
    each grouping key the collections derived from the pages, as a
    dictionary.  It may read the pages of its collection. *)
Variable get_subcollections :
  FS -> Collection.t K -> Heap -> list (string * list (Collection.t K)) * Heap.

(** [Site.__init__], given the process's file system and the lists held
    by classes ([routes] is a class attribute of [Site] and is not reset). *)
Definition __init__ (f : FS) (h : Heap) (class_routes : list Page.t) : Result State :=
  hs ← (if FS.exists_ f (cache_file cfg)
        then text ← FS.read_text f (cache_file cfg);
             mret (list_to_set (PyStr.splitlines_keepends text))
        else mret ∅);
  mret (Build_State f h hs class_routes [] [] []).

(** [enumerate(l)]. *)
Definition enumerate {A} (l : list A) : list (nat * A) := zip (seq 0 (length l)) l.

(** Reading an attribute that the class may not define. *)
Definition attribute {A} (v : option A) : Result A :=
  match v with Some a => Ok a | None => Raise AttributeError end.

(** The routes that are the object at [place], with the value the object
    now has. *)
Definition assign (place : nat * nat) (v : Page.t) (routes : list Page.t) : list Page.t :=
  (fun r => if decide (Page.place r = Some place) then v else r) <$> routes.

(** [register_feed].  [feed] is the object at [place] as it is when the
    call is made.  The assignments change the object itself: the list that
    holds it, and every route that is this object, see the new values;
    then the object is appended to the routes once more.  (An [AttributeError]
    for the slug comes before any assignment, as in the source.) *)
Definition register_feed (place : nat * nat) (feed : Page.t)
    (collection : Collection.t K) : M unit :=
  let extension := extension (rss_engine cfg) in
  slug ← lift (attribute (Collection.slug collection));
  let _feed := Page.set_slug slug feed in
  let _feed := Page.set_title (SITE_TITLE cfg +:+ " - " +:+ Page.title _feed) _feed in
  let _feed := Page.set_link (SITE_URL cfg +:+ "/" +:+ Page.slug _feed +:+ extension) _feed in
  let _feed := Page.set_place (Some place) _feed in
  modify (fun st =>
    set_heap (<[place.1 := <[place.2 := _feed]> (heap st !!! place.1)]> (heap st)) st);;
  modify (fun st => set_routes (assign place _feed (routes st)) st);;
  append_route _feed.

(** [register_collection]. *)
Definition register_collection (collection : Collection.t K) : M unit :=
  title ← lift (attribute (Collection.title collection));
  modify (fun st => set_collections (dict_set title collection (collections st)) st);;
  ps ← on_heap (fun f => Collection.pages glob f collection);
  for_each ps append_route;;
  (if Collection.has_archive collection then
     a ← on_heap (fun f => Collection.archive glob f collection);
     for_each (Page.iter a) append_route
   else mret tt);;
  feeds ← lift (attribute (Collection.feeds collection));
  st ← get;
  for_each (enumerate (heap st !!! feeds)) (fun kf =>
    register_feed (feeds, kf.1) kf.2 collection).

(** [register_route]. *)
Definition register_route (route : Page.t) : M unit := append_route route.

(** [_is_unique]. *)
Definition _is_unique (st : State) (filepath : Path) (page : Page.t) : bool :=
  if Page.always_refresh page then true
  else if negb (FS.exists_ (fs st) filepath) then true
  else negb (bool_decide (hash_content page ∈ hashes st)).

Definition engine_of (page : Page.t) : Engine :=
  match Page.engine page with Some e => e | None => default_engine cfg end.

(** The directory of a route and the path of a file in it. *)
Definition route_dir (route : string) : Path :=
  Pathlib.joinpath (output_path cfg) (Pathlib.parse (PyStr.strip "/" route)).

(** [_render_output]: writes page markup to file. *)
Definition _render_output (page : Page.t) : M Outcome :=
  let engine := engine_of page in
  route0 ← lift (match Page.routes page with r :: _ => Ok r | [] => Raise IndexError end);
  let route := route_dir route0 in
  on_fs (fun f => FS.mkdir_exist_ok f route);;
  filename ← lift (Pathlib.with_suffix (Pathlib.parse (Page.slug page)) (extension engine));
  let filepath := Pathlib.joinpath route filename in
  st ← get;
  let unique_file := _is_unique st filepath page in
  if unique_file then
    let template_attrs := get_public_attributes st page in
    let content := engine_render engine page template_attrs in
    modify (fun st => set_engine_calls (engine_calls st ++ [(engine, page)]) st);;
    (if negb (Page.always_refresh page)
     then modify (fun st => set_hashes ({[hash_content page]} ∪ hashes st) st)
     else mret tt);;
    on_fs (fun f => FS.write_text f filepath content);;
    (if (1 <? length (Page.routes page))%nat then
       for_each (drop 1 (Page.routes page)) (fun new_route =>
         let new_route := route_dir new_route in
         on_fs (fun f => FS.mkdir_exist_ok f new_route);;
         let new_filepath := Pathlib.joinpath new_route filename in
         on_fs (fun f => FS.copy f filepath new_filepath))
     else mret tt);;
    mret (written filename)
  else mret (skipped filename).

(** The key [lambda x: (len(x.pages), x.title)]; reading [x.pages] may
    grow the list of [x]. *)
Definition subcollection_key (x : Collection.t K) : M (nat * string) :=
  ps ← on_heap (fun f => Collection.pages glob f x);
  title ← lift (attribute (Collection.title x));
  mret (length ps, title).

(** [sorted(group, key=..., reverse=True)]: the keys are computed once
    per element, in list order, then the elements are sorted by them. *)
Definition sort_group (group : list (Collection.t K)) : M (list (Collection.t K)) :=
  keys ← map_each group subcollection_key;
  mret (map snd (PySort.sorted fst true (zip keys group))).

(** The body of the loop over the groupings of a collection. *)
Definition render_group (subcollection_group : string)
    (_subcollection_group : list (Collection.t K)) : M unit :=
  sorted_group ← sort_group _subcollection_group;
  for_each sorted_group (fun subcollection =>
    modify (fun st =>
      set_subcollections
        (dict_set subcollection_group sorted_group (subcollections st)) st);;
    archive ← on_heap (fun f => Collection.archive glob f subcollection);
    for_each (Page.iter archive) append_route).

(** [_render_subcollections]: generate subcollection pages to be added
    to routes. *)
Definition _render_subcollections : M unit :=
  st ← get;
  for_each (collections st) (fun kv =>
    let collection := kv.2 in
    match Collection.subcollections collection with
    | [] => mret tt
    | _ :: _ =>
        groups ← on_heap (fun f => get_subcollections f collection);
        for_each groups (fun g =>
          let subcollection_group := g.1 in
          d ← on_heap (fun f => get_subcollections f collection);
          _subcollection_group ←
            lift (match dict_get subcollection_group d with
                  | Some v => Ok v
                  | None => Raise KeyError
                  end);
          render_group subcollection_group _subcollection_group)
    end).

(** The part of [render] that runs when [strict] is set. *)
Definition clean : M unit :=
  st ← get;
  (if FS.exists_ (fs st) (output_path cfg)
   then on_fs (fun f => FS.rmtree f (output_path cfg))
   else mret tt);;
  modify (set_hashes ∅).

(** [render].  The source returns nothing; the messages of
    [_render_output], which its verbose branch shows on the progress bar
    and its other branch drops, are returned here in route order. *)
Definition render (verbose dry_run strict_arg : bool) : M (list Outcome) :=
  let strict_arg := if dry_run then false else strict_arg in
  let verbose := if dry_run then true else verbose in
  (if strict cfg || strict_arg then clean else mret tt);;
  on_fs (fun f => FS.mkdir_exist_ok f (output_path cfg));;
  st ← get;
  (if FS.is_dir (fs st) (static_path cfg)
   then on_fs (fun f =>
          FS.copytree f (static_path cfg)
            (Pathlib.joinpath (output_path cfg) (static_path cfg)))
   else mret tt);;
  _render_subcollections;;
  st ← get;
  msgs ← map_each (routes st) _render_output;
  st ← get;
  on_fs (fun f =>
    FS.write_text f (cache_file cfg) (PyStr.join (iter_set order (hashes st))));;
  mret msgs.

End Site.
End Site.

(** ** Public attributes *)

Module Reflection.
Section Members.
Context {V : Type}.

(** [{x: y for x, y in pairs}]: a later pair replaces the value of an
    earlier one with the same name. *)
Definition dict_of (pairs : list (string * V)) : list (string * V) :=
  foldl (fun d kv => Site.dict_set kv.1 kv.2 d) [] pairs.

(** [{**a, **b}]. *)
Definition merge (a b : list (string * V)) : list (string * V) :=
  foldl (fun d kv => Site.dict_set kv.1 kv.2 d) a b.

(** [itertools.filterfalse(lambda x: x[0].startswith("__"), members)]. *)
Definition public (members : list (string * V)) : list (string * V) :=
  List.filter (fun x => negb (String.prefix "__" x.1)) members.

(** [get_public_attributes], given what [inspect.getmembers] returns for
    the site and for the page. *)
Definition get_public_attributes (self_members cls_members : list (string * V))
    : list (string * V) :=
  let site_filtered_attrs := public self_members in
  let site_dict := dict_of site_filtered_attrs in
  let cls_filtered_attrs := public cls_members in
  let cls_dict := dict_of cls_filtered_attrs in
  merge site_dict cls_dict.

(** The value of the last pair named [name]. *)
Definition last_value (name : string) (members : list (string * V)) : option V :=
  Site.dict_get name (rev members).

End Members.
End Reflection.

(** ** Derived collections *)

Module Subcollection.
Section Subcollection.
Context {K : Type}.
Variable glob : FS -> Path -> string -> list Path.
Variable fs : FS.

(** [attrval in getattr(page, attr, [])]: external, as class [Page] is
    not among the sources. *)
Variable has_attrval : Page.t -> string -> string -> bool.

(** What class [Collection] has besides the attributes that
    [collection.py] assigns: the class [Page] as a constructor of pages
    from content files, the page [Page(no_index=True)], and the
    attributes [slug] and [feeds] that [site.py] reads, [None] when the
    class does not define them (as in [collection.py]). *)
Variable Page_from_file : FS -> Path -> Page.t.
Variable Page_no_index : Page.t.
Variable slug : option string.
Variable feeds : option nat.


End Subcollection.
End Subcollection.

(** ** The command line *)

Module Cli.

(** The text before the first [sep] in [s] and the text after it. *)
Fixpoint partition (sep : ascii) (s : string) : option (string * string) :=
  match s with
  | EmptyString => None
  | String c s' =>
      if Ascii.eqb c sep then Some (EmptyString, s')
      else '(a, b) ← partition sep s'; Some (String c a, b)
  end.

(** [s.split(sep, 1)] for a separator of one character. *)
Definition split_once (sep : ascii) (s : string) : list string :=
  match partition sep s with
  | Some (a, b) => [a; b]
  | None => [s]
  end.

Inductive Exn : Set :=
| BadParameter (message : string).

(** [split_module_site]: the unpacking of a list that does not have two
    elements raises [ValueError], which is turned into [BadParameter]. *)
Definition split_module_site (module_site : string) : (string * string) + Exn :=
  match split_once ":" module_site with
  | [import_path; site] => inl (import_path, site)
  | _ => inr (BadParameter "module_site must be of the form `module:site`")
  end.

(** [remove_output_folder]. *)
Definition remove_output_folder (fs : FS) (output_path : Path) : Result FS :=
  if FS.exists_ fs output_path then FS.rmtree fs output_path else Ok fs.

End Cli.

(** ** A small site, for running the model *)

Module Demo.

Definition html : Engine := {| extension := ".html"; engine_name := "html" |}.
Definition xml : Engine := {| extension := ".xml"; engine_name := "rss" |}.

Definition cfg : Site.Config := {|
  Site.output_path := (false, ["output"]);
  Site.static_path := (false, ["static"]);
  Site.SITE_TITLE := "Untitled Site";
  Site.SITE_URL := "https://example.com";
  Site.strict := false;
  Site.default_engine := html;
  Site.rss_engine := xml;
  Site.cache_file := (false, [".routes_cache"])
|}.

Definition ends_with (suffix s : string) : bool :=
  String.eqb (String.substring (String.length s - String.length suffix)
                               (String.length suffix) s) suffix.

(** A glob that knows the patterns [*<suffix>]: the files directly in
    [root] whose name ends with the suffix, in the order of the map. *)
Definition glob (f : FS) (root : Path) (pattern : string) : list Path :=
  omap (fun kv : Path * node =>
          match kv.2 with
          | File _ =>
              if decide (Pathlib.parent kv.1 = root ∧ kv.1 ≠ root) then
                if ends_with (String.substring 1 (String.length pattern) pattern)
                             (Pathlib.name kv.1)
                then Some kv.1 else None
              else None
          | Dir => None
          end)
       (map_to_list f).

Definition blank : Page.t :=
  Page.Build "" "" [""] "page.html" None false None false "" None [] None.

(** A page made from a content file: the slug is the stem of the file
    name and the content is the text of the file. *)
Definition page_of_file (f : FS) (p : Path) : Page.t :=
  Page.Build (Pathlib.split_suffix (Pathlib.name p)).1
             (Pathlib.split_suffix (Pathlib.name p)).1
             [""] "page.html"
             (match FS.read_text f p with Ok c => Some c | Raise _ => None end)
             false None false "" (Some p) [] None.

(** A page written by hand. *)
Definition page (slug : string) (routes : list string) (content : string)
    (always_refresh : bool) : Page.t :=
  Page.Build slug slug routes "page.html" (Some content) always_refresh
             None false "" None [] None.

(** The address of a list of feeds that is empty. *)
Definition no_feeds : nat := 100.

(** A collection class with the defaults of [Collection], but for its
    name, content path, the address of the list it holds in
    [content_items], [has_archive], [archive_reverse] and its grouping
    keys; its title and slug are its name and its feeds are the list at
    the address [feeds]. *)
Definition make_at (feeds : nat) (name path : string) (addr : nat)
    (has_archive reverse : bool) (subcollections : list string) : Collection.t string := {|
  Collection.class_name := name;
  Collection.title := Some name;
  Collection.slug := Some name;
  Collection.page_content_type := page_of_file;
  Collection.content_path := path;
  Collection.content_items := addr;
  Collection.template := "page.html";
  Collection.includes := ["*.md"; "*.html"];
  Collection.routes := [""];
  Collection.subcollections := subcollections;
  Collection.has_archive := has_archive;
  Collection.archive_template := "archive.html";
  Collection.archive_slug := "all_posts";
  Collection.archive_content_type := blank;
  Collection.archive_reverse := reverse;
  Collection.archive_default_sort := Page.slug;
  Collection.feeds := Some feeds
|}.

(** The same with no feed. *)
Definition make : string -> string -> nat -> bool -> bool -> list string
    -> Collection.t string := make_at no_feeds.

(** A class that inherits the list of [Collection], at address [0]. *)
Definition collection (name path : string) (has_archive : bool) : Collection.t string :=
  make name path 0 has_archive false [].

(** The template context is the site title; the markup is the title of
    the page and its content. *)
Definition get_public_attributes (st : @Site.State string) (p : Page.t) : string :=
  Site.SITE_TITLE cfg.

Definition engine_render (e : Engine) (p : Page.t) (attrs : string) : string :=
  "<title>" +:+ attrs +:+ "</title><h1>" +:+ Page.title p +:+ "</h1>"
   +:+ default "" (Page.base_content p).

Definition order : SetOrder :=
  {| iter_set := elements; iter_set_perm := fun s => Permutation_refl (elements s) |}.

(** No collection has subcollections. *)
Definition get_subcollections (f : FS) (c : Collection.t string) (h : Heap)
    : list (string * list (Collection.t string)) * Heap := ([], h).

Definition render := Site.render cfg glob get_public_attributes engine_render order get_subcollections.
Definition _render_output := Site._render_output cfg get_public_attributes engine_render.
Definition register_collection := @Site.register_collection string _ cfg glob.
Definition __init__ := @Site.__init__ string cfg.

(** A file system with two posts and an empty output directory. *)
Definition fs0 : FS :=
  {[ (false, ["content"]) := Dir;
     (false, ["content"; "b.md"]) := File "second";
     (false, ["content"; "a.md"]) := File "first";
     (false, ["output"]) := Dir ]}.

(** Whether a run returned, and its result ([d] when it raised). *)
Definition is_ok {A} (r : Result A) : bool :=
  match r with Ok _ => true | Raise _ => false end.
Definition value {A} (d : A) (r : Result A) : A :=
  match r with Ok a => a | Raise _ => d end.
Definition filename_of (o : Site.Outcome) : Path :=
  match o with Site.written f | Site.skipped f => f end.

(** A site just made, with nothing registered and an empty cache. *)
Definition st0 : @Site.State string :=
  Site.Build_State fs0 ∅ ∅ [] [] [] [].

Definition home : Page.t := page "index" ["/"; "/home/"] "hello" false.
Definition now : Page.t := page "now" [""] "t" true.



(** The site after a first run over the two pages, and the site object
    of the next run, made over the files the first run left: the output
    directory is populated and the cache holds the fingerprint of the
    first page. *)
Definition after_first_run : @Site.State string :=
  (value ([], st0) (render false false false (Site.set_routes [home; now] st0))).2.






(** A collection grouped by tags, and the groups of its pages: two pages
    carry the tag x, two the tag y and one the tag z.  The lists of the
    three derived collections are at the addresses [3], [4] and [5]. *)
Definition tagged : Collection.t string := make "Blog" "missing" 6 false false ["tags"].
Definition tag_x : Collection.t string := make "x" "missing" 3 true false [].
Definition tag_y : Collection.t string := make "y" "missing" 4 true false [].
Definition tag_z : Collection.t string := make "z" "missing" 5 true false [].
Definition heap3 : Heap :=
  {[ 3 := [page "p1" [""] "1" false; page "p2" [""] "2" false];
     4 := [page "p2" [""] "2" false; page "p3" [""] "3" false];
     5 := [page "p4" [""] "4" false] ]}.
Definition by_tags (f : FS) (c : Collection.t string) (h : Heap)
    : list (string * list (Collection.t string)) * Heap :=
  ([("tags", [tag_z; tag_x; tag_y])], h).

(** A site just made with the tagged collection registered. *)
Definition tagged_start : @Site.State string :=
  Site.set_collections [("Blog", tagged)] (Site.set_heap heap3 st0).


End Demo.

(** * Properties *)

(** ** [sorted] *)

Module PySortFacts.
Import PySort.

Section Facts.
Context {A K : Type} `{PyOrd K}.
Variable key : A -> K.

Lemma py_le_refl (a : K) : py_le a a = true.
Proof. destruct (py_le_total a a); assumption. Qed.

Lemma py_lt_le (a b : K) : py_lt a b = true -> py_le a b = true.
Proof.
  unfold py_lt. intros Hlt. destruct (py_le_total a b) as [E|E]; [done|].
  rewrite E in Hlt. discriminate.
Qed.

Lemma insert_before_perm (x : A) (l : list A) : insert_before key x l ≡ₚ x :: l.
Proof.
  induction l as [|y l IH]; simpl; [done|].
  destruct (py_lt (key y) (key x)); [|done].
  rewrite IH. apply perm_swap.
Qed.

Lemma stable_sort_perm (l : list A) : stable_sort key l ≡ₚ l.
Proof.
  induction l as [|x l IH]; simpl; [done|].
  rewrite insert_before_perm. by rewrite IH.
Qed.

Lemma insert_before_sorted (x : A) (l : list A) :
  StronglySorted (ascending key) l -> StronglySorted (ascending key) (insert_before key x l).
Proof.
  induction 1 as [|y l Hs IH Hy]; simpl.
  - repeat constructor.
  - destruct (py_lt (key y) (key x)) eqn:E.
    + constructor; [assumption|].
      rewrite insert_before_perm. constructor; [|assumption].
      by apply py_lt_le.
    + assert (Hxy : py_le (key x) (key y) = true).
      { unfold py_lt in E. by destruct (py_le (key x) (key y)). }
      constructor; [by constructor|].
      constructor; [assumption|].
      eapply Forall_impl; [exact Hy|]. intros z Hz. unfold ascending in *.
      eapply py_le_trans; eassumption.
Qed.

Lemma stable_sort_sorted (l : list A) : StronglySorted (ascending key) (stable_sort key l).
Proof.
  induction l as [|x l IH]; simpl; [constructor|]. by apply insert_before_sorted.
Qed.

(** Insertion does not carry [x] past an element with an equal key. *)
Lemma insert_before_with_key (k : K) (x : A) (l : list A) :
  with_key key k (insert_before key x l) = with_key key k (x :: l).
Proof.
  unfold with_key. induction l as [|y l IH]; simpl; [done|].
  destruct (py_lt (key y) (key x)) eqn:E; [|done].
  rewrite !filter_cons in *. rewrite IH. clear IH.
  destruct (decide (py_eqv k (key x) = true)) as [Hx|Hx]; [|done].
  destruct (decide (py_eqv k (key y) = true)) as [Hy|Hy]; [|done].
  exfalso. unfold py_eqv, py_lt in *.
  apply andb_true_iff in Hx as [Hkx Hxk]. apply andb_true_iff in Hy as [Hky Hyk].
  rewrite (py_le_trans _ _ _ Hxk Hky) in E. discriminate.
Qed.

Lemma stable_sort_with_key (k : K) (l : list A) :
  with_key key k (stable_sort key l) = with_key key k l.
Proof.
  induction l as [|x l IH]; simpl; [done|].
  rewrite insert_before_with_key. unfold with_key in *.
  rewrite !filter_cons. by rewrite IH.
Qed.

Lemma with_key_rev (k : K) (l : list A) :
  with_key key k (rev l) = rev (with_key key k l).
Proof.
  unfold with_key. induction l as [|x l IH]; simpl; [done|].
  rewrite filter_app, IH, filter_cons.
  destruct (decide (py_eqv k (key x) = true)); simpl.
  - by rewrite filter_cons_True, filter_nil.
  - rewrite filter_cons_False, filter_nil by done. by rewrite app_nil_r.
Qed.

Lemma StronglySorted_app (R : A -> A -> Prop) (l1 l2 : list A) :
  StronglySorted R l1 -> StronglySorted R l2 ->
  (forall a b, a ∈ l1 -> b ∈ l2 -> R a b) ->
  StronglySorted R (l1 ++ l2).
Proof.
  induction 1 as [|x l1 Hs IH Hx]; intros H2 Hc; simpl; [done|].
  constructor.
  - apply IH; [done|]. intros a b Ha Hb. apply Hc; [by right|done].
  - apply Forall_app. split; [done|].
    apply Forall_forall. intros b Hb. apply Hc; [by left|done].
Qed.

Lemma StronglySorted_rev (l : list A) :
  StronglySorted (ascending key) l -> StronglySorted (descending key) (rev l).
Proof.
  induction 1 as [|x l Hs IH Hx]; simpl; [constructor|].
  apply StronglySorted_app; [done|repeat constructor|].
  intros a b Ha Hb. apply list_elem_of_singleton in Hb. subst b.
  rewrite Forall_forall in Hx. apply Hx.
  apply list_elem_of_In. apply in_rev. by apply list_elem_of_In.
Qed.

(** [sorted] returns the elements of the list, *)
Lemma sorted_perm (reverse : bool) (l : list A) : sorted key reverse l ≡ₚ l.
Proof.
  unfold sorted. destruct reverse; [|apply stable_sort_perm].
  rewrite <- Permutation_rev, stable_sort_perm. by rewrite <- Permutation_rev.
Qed.

(** in ascending order of the keys, or descending with [reverse], *)
Lemma sorted_ordered (reverse : bool) (l : list A) :
  StronglySorted (if reverse then descending key else ascending key)
                 (sorted key reverse l).
Proof.
  unfold sorted. destruct reverse; [|apply stable_sort_sorted].
  apply StronglySorted_rev, stable_sort_sorted.
Qed.

(** and elements with equal keys keep the order they had in the list,
    in both directions. *)
Lemma sorted_stable (reverse : bool) (k : K) (l : list A) :
  with_key key k (sorted key reverse l) = with_key key k l.
Proof.
  unfold sorted. destruct reverse; [|apply stable_sort_with_key].
  by rewrite with_key_rev, stable_sort_with_key, with_key_rev, rev_involutive.
Qed.

End Facts.
End PySortFacts.

(** ** Collections *)

Module CollectionFacts.
Import PySort.

Section Facts.
Context {K : Type} `{PyOrd K}.
Variable glob : FS -> Path -> string -> list Path.
Variable fs : FS.

Lemma pages_missing_path (c : Collection.t K) (h : Heap) :
  FS.exists_ fs (Pathlib.parse (Collection.content_path c)) = false ->
  Collection.pages glob fs c h = (h !!! Collection.content_items c, h).
Proof. intros E. unfold Collection.pages. by rewrite E. Qed.

Lemma pages_existing_path (c : Collection.t K) (h : Heap) :
  FS.exists_ fs (Pathlib.parse (Collection.content_path c)) = true ->
  Collection.pages glob fs c h =
    ((h !!! Collection.content_items c) ++ Collection.discover glob fs c,
     <[Collection.content_items c :=
         (h !!! Collection.content_items c) ++ Collection.discover glob fs c]> h).
Proof. intros E. unfold Collection.pages. by rewrite E. Qed.

(** Every access of [pages] on an existing content path appends the
    pages found once more to what the previous access returned. *)
Lemma pages_accumulate (c : Collection.t K) (h : Heap) :
  FS.exists_ fs (Pathlib.parse (Collection.content_path c)) = true ->
  (Collection.pages glob fs c (Collection.pages glob fs c h).2).1 =
    (Collection.pages glob fs c h).1 ++ Collection.discover glob fs c.
Proof.
  intros E. rewrite !pages_existing_path by done. simpl.
  by rewrite lookup_total_insert_eq.
Qed.

Lemma archive_spec (c : Collection.t K) (h : Heap) :
  Collection.archive glob fs c h =
    (Page.set_pages
       (sorted (Collection.archive_default_sort c) (Collection.archive_reverse c)
               (Collection.pages glob fs c h).1)
       (Page.set_title (Collection.class_name c)
          (Page.set_engine None
             (Page.set_slug (Collection.archive_slug c)
                (Page.set_template (Collection.archive_template c)
                   (Collection.archive_content_type c))))),
     (Collection.pages glob fs c h).2).
Proof. unfold Collection.archive. by destruct (Collection.pages glob fs c h). Qed.

End Facts.
End CollectionFacts.

(** ** The file system operations *)

Module FSFacts.

(** [fs'] keeps every directory of [fs] and every file of [fs] that
    holds [content]. *)
Definition keeps (content : string) (f f' : FS) : Prop :=
  forall q, (f !! q = Some Dir -> f' !! q = Some Dir) /\
            (f !! q = Some (File content) -> f' !! q = Some (File content)).

Lemma keeps_refl content f : keeps content f f.
Proof. intros q. auto. Qed.

Lemma keeps_trans content f1 f2 f3 :
  keeps content f1 f2 -> keeps content f2 f3 -> keeps content f1 f3.
Proof. intros H1 H2 q. destruct (H1 q), (H2 q). auto. Qed.

Lemma lookup_node_None (f : FS) (p : Path) :
  FS.lookup_node f p = None -> f !! p = None.
Proof. unfold FS.lookup_node. by destruct p.2. Qed.

Lemma lookup_node_File (f : FS) (p : Path) (c : string) :
  FS.lookup_node f p = Some (File c) -> f !! p = Some (File c) /\ p.2 <> [].
Proof. unfold FS.lookup_node. by destruct p.2. Qed.

Lemma is_dir_keeps content f f' q :
  keeps content f f' -> FS.is_dir f q = true -> FS.is_dir f' q = true.
Proof.
  unfold FS.is_dir, FS.lookup_node. intros Hk. destruct q.2; [done|].
  destruct (f !! q) as [[|c]|] eqn:E; try discriminate.
  intros _. by rewrite (proj1 (Hk q) E).
Qed.

Lemma mkdir_keeps content f p f' :
  FS.mkdir_exist_ok f p = Ok f' -> keeps content f f'.
Proof.
  unfold FS.mkdir_exist_ok.
  destruct (FS.lookup_node f p) as [[|c]|] eqn:E; try discriminate.
  - intros [= <-]. apply keeps_refl.
  - apply lookup_node_None in E.
    destruct (FS.lookup_node f (Pathlib.parent p)) as [[|c]|]; try discriminate.
    intros [= <-] q.
    destruct (decide (p = q)) as [<-|Hne]; [rewrite E; split; discriminate|].
    by rewrite lookup_insert_ne.
Qed.

(** What a successful [write_text] does. *)
Lemma write_text_ok f p c f' :
  FS.write_text f p c = Ok f' ->
  f' = <[p := File c]> f /\ p.2 <> [] /\ f !! p <> Some Dir.
Proof.
  unfold FS.write_text.
  destruct (FS.lookup_node f p) as [[|c0]|] eqn:E; [discriminate| |];
    destruct (FS.lookup_node f (Pathlib.parent p)) as [[|c1]|]; try discriminate;
    intros [= <-]; (split; [done|]).
  - apply lookup_node_File in E as [E1 E2]. split; congruence.
  - split.
    + intros Hp. unfold FS.lookup_node in E. by rewrite Hp in E.
    + apply lookup_node_None in E. congruence.
Qed.

Lemma write_text_keeps content f p f' :
  FS.write_text f p content = Ok f' -> keeps content f f'.
Proof.
  intros Hw. apply write_text_ok in Hw as (-> & _ & Hnd). intros q.
  destruct (decide (p = q)) as [<-|Hne].
  - rewrite lookup_insert_eq. split; [done|auto].
  - by rewrite lookup_insert_ne.
Qed.

Lemma read_file_lookup f q c :
  FS.read_file f q = Ok c <-> f !! q = Some (File c) /\ q.2 <> [].
Proof.
  unfold FS.read_file, FS.lookup_node. destruct q.2 eqn:Eq.
  - split; [discriminate|]. intros [_ Hq]. done.
  - destruct (f !! q) as [[|c0]|]; split; try discriminate; try (intros [[=] _]; done).
    + intros [= ->]. done.
    + intros [[= ->] _]. done.
Qed.

Lemma read_file_keeps content f f' q :
  keeps content f f' -> FS.read_file f q = Ok content -> FS.read_file f' q = Ok content.
Proof.
  intros Hk Hr. apply read_file_lookup in Hr as [Hr Hq].
  apply read_file_lookup. split; [by apply Hk|done].
Qed.

(** A successful copy of a file that holds [content]: the file lands on
    [dst], or inside [dst] under the name of the source when [dst] is a
    directory. *)
Lemma copy_ok content f src dst f' :
  FS.read_file f src = Ok content ->
  FS.copy f src dst = Ok f' ->
  keeps content f f' /\
  (FS.read_file f' dst = Ok content \/
   FS.is_dir f dst = true /\
   FS.read_file f' (Pathlib.joinpath dst (false, [Pathlib.name src])) = Ok content).
Proof.
  intros Hsrc. apply read_file_lookup in Hsrc as [Hsrc _]. unfold FS.copy.
  destruct (FS.lookup_node f src) as [n|] eqn:E; [|discriminate].
  case_decide; [discriminate|].
  destruct n as [|c]; [discriminate|].
  apply lookup_node_File in E as [E _].
  assert (c = content) as -> by congruence.
  intros Hw. split; [by eapply write_text_keeps|].
  destruct (FS.is_dir f dst); [right; split; [done|]|left];
    apply write_text_ok in Hw as (-> & Hd & _);
    apply read_file_lookup; by rewrite lookup_insert_eq.
Qed.

Lemma read_written f p c f' :
  FS.write_text f p c = Ok f' -> FS.read_file f' p = Ok c.
Proof.
  intros Hw. apply write_text_ok in Hw as (-> & Hp & _).
  unfold FS.read_file, FS.lookup_node. destruct p.2; [done|].
  by rewrite lookup_insert_eq.
Qed.

Lemma exists_written f p c f' :
  FS.write_text f p c = Ok f' -> FS.exists_ f' p = true.
Proof.
  intros Hw. apply read_written in Hw. unfold FS.read_file, FS.exists_ in *.
  by destruct (FS.lookup_node f' p).
Qed.

End FSFacts.

(** ** The state monad *)

Module MonadFacts.

Section Facts.
Context {K : Type}.
Abbreviation M := (@Site.M K).
Abbreviation State := (@Site.State K).

Lemma bind_ok {A B} (m : M A) (f : A -> M B) (st : State) b st' :
  (m ≫= f) st = Ok (b, st') <-> exists a st1, m st = Ok (a, st1) /\ f a st1 = Ok (b, st').
Proof.
  unfold mbind, Site.M_bind. split.
  - destruct (m st) as [[a st1]|e]; [|discriminate]. eauto.
  - intros (a & st1 & -> & Hf). done.
Qed.

Lemma ret_ok {A} (a b : A) (st st' : State) :
  mret (M := M) a st = Ok (b, st') <-> b = a /\ st' = st.
Proof. unfold mret, Site.M_ret. split; [intros [= -> ->]|intros [-> ->]]; done. Qed.

Lemma get_ok (st a st' : State) : Site.get st = Ok (a, st') <-> a = st /\ st' = st.
Proof. unfold Site.get. split; [intros [= -> ->]|intros [-> ->]]; done. Qed.

Lemma modify_ok (f : State -> State) (st : State) u st' :
  Site.modify f st = Ok (u, st') <-> st' = f st.
Proof. unfold Site.modify. destruct u. split; [intros [= ->]|intros ->]; done. Qed.

Lemma lift_ok {A} (r : Result A) (st : State) a st' :
  Site.lift r st = Ok (a, st') <-> r = Ok a /\ st' = st.
Proof.
  unfold Site.lift. destruct r; split; try intros [= -> ->]; try intros [[= ->] ->]; done.
Qed.

Lemma on_fs_ok (op : FS -> Result FS) (st : State) u st' :
  Site.on_fs op st = Ok (u, st') <->
  exists f, op (Site.fs st) = Ok f /\ st' = Site.set_fs f st.
Proof.
  unfold Site.on_fs. rewrite bind_ok. split.
  - intros (a & st1 & Hg & Hb). apply get_ok in Hg as [-> ->].
    apply bind_ok in Hb as (f & st2 & Hl & Hm). apply lift_ok in Hl as [Hop ->].
    apply modify_ok in Hm. eauto.
  - intros (f & Hop & ->). exists st, st. split; [by apply get_ok|].
    apply bind_ok. exists f, st. split; [by apply lift_ok|]. by apply modify_ok.
Qed.

Lemma on_heap_ok {A} (op : FS -> Heap -> A * Heap) (st : State) a st' :
  Site.on_heap op st = Ok (a, st') <->
  a = (op (Site.fs st) (Site.heap st)).1 /\
  st' = Site.set_heap (op (Site.fs st) (Site.heap st)).2 st.
Proof.
  unfold Site.on_heap. rewrite bind_ok. split.
  - intros (s & st1 & Hg & Hb). apply get_ok in Hg as [-> ->].
    destruct (op (Site.fs st) (Site.heap st)) as [a0 h].
    apply bind_ok in Hb as (u & st2 & Hm & Hr).
    apply modify_ok in Hm. apply ret_ok in Hr as [-> ->]. by subst.
  - intros [-> ->]. exists st, st. split; [by apply get_ok|].
    destruct (op (Site.fs st) (Site.heap st)) as [a0 h]. simpl.
    apply bind_ok. exists tt, (Site.set_heap h st). split; [by apply modify_ok|].
    by apply ret_ok.
Qed.

Lemma append_route_ok (p : Page.t) (st : State) u st' :
  Site.append_route p st = Ok (u, st') <->
  st' = Site.set_routes (Site.routes st ++ [p]) st.
Proof.
  unfold Site.append_route.
  apply (modify_ok (fun s => Site.set_routes (Site.routes s ++ [p]) s)).
Qed.

(** A loop whose body keeps a reflexive and transitive relation on the
    state keeps it. *)
Lemma for_each_keeps {A} (R : State -> State -> Prop) (l : list A) (body : A -> M unit) :
  (forall st, R st st) ->
  (forall st1 st2 st3, R st1 st2 -> R st2 st3 -> R st1 st3) ->
  (forall a st u st', a ∈ l -> body a st = Ok (u, st') -> R st st') ->
  forall st u st', Site.for_each l body st = Ok (u, st') -> R st st'.
Proof.
  intros Hrefl Htrans. induction l as [|a l IH]; intros Hbody st u st'; simpl.
  - intros Hr. apply ret_ok in Hr as [_ ->]. apply Hrefl.
  - intros Hb. apply bind_ok in Hb as (u1 & st1 & H1 & H2).
    eapply Htrans; [eapply Hbody; [left|eassumption]|].
    eapply IH; [|eassumption]. intros. eapply Hbody; [by right|eassumption].
Qed.

Lemma for_each_append_routes (ps : list Page.t) (st : State) :
  Site.for_each ps Site.append_route st =
    Ok (tt, Site.set_routes (Site.routes st ++ ps) st).
Proof.
  revert st. induction ps as [|p ps IH]; intros st; simpl.
  - unfold mret, Site.M_ret. rewrite app_nil_r. by destruct st.
  - unfold mbind, Site.M_bind, Site.append_route, Site.modify. rewrite IH.
    destruct st; simpl. unfold Site.set_routes; simpl. by rewrite <- app_assoc.
Qed.

End Facts.

(** Inversion of a computation that returned. *)
Ltac monad_inv :=
  repeat match goal with
  | H : (_ ≫= _) _ = Ok _ |- _ =>
      let a := fresh "a" in let st := fresh "st" in
      let H1 := fresh H in let H2 := fresh H in
      apply bind_ok in H as (a & st & H1 & H2)
  | H : mret _ _ = Ok _ |- _ => apply ret_ok in H as [? ?]; subst
  | H : Site.get _ = Ok _ |- _ => apply get_ok in H as [? ?]; subst
  | H : Site.modify _ _ = Ok _ |- _ => apply modify_ok in H; subst
  | H : Site.lift _ _ = Ok _ |- _ => apply lift_ok in H as [H ?]; subst
  | H : Site.on_fs _ _ = Ok _ |- _ =>
      let f := fresh "f" in apply on_fs_ok in H as (f & H & ?); subst
  | H : Site.on_heap _ _ = Ok _ |- _ => apply on_heap_ok in H as [? ?]; subst
  | H : Site.append_route _ _ = Ok _ |- _ => apply append_route_ok in H; subst
  end.

End MonadFacts.

(** ** Rendering one page *)

Module RenderFacts.
Import MonadFacts FSFacts.

Section Facts.
Context {K : Type} `{PySort.PyOrd K} {Attrs : Type}.
Variable cfg : Site.Config.
Variable get_public_attributes : @Site.State K -> Page.t -> Attrs.
Variable engine_render : Engine -> Page.t -> Attrs -> string.

Abbreviation State := (@Site.State K).
Abbreviation _render_output :=
  (Site._render_output cfg get_public_attributes engine_render).

(** The state after a page has been written. *)
Definition after_write (page : Page.t) (f : FS) (st : State) : State :=
  Site.set_fs f
    (Site.set_hashes
       (if Page.always_refresh page then Site.hashes st
        else {[Site.hash_content page]} ∪ Site.hashes st)
       (Site.set_engine_calls
          (Site.engine_calls st ++ [(Site.engine_of cfg page, page)]) st)).

(** The loop over the additional routes: the copy of a route lands on
    the path of its file, or inside it when that path is a directory. *)
Lemma copy_loop_ok (content : string) (filename filepath : Path) (rest : list string) :
  forall (st : State) u st',
  Site.for_each rest (fun new_route =>
      let new_route := Site.route_dir cfg new_route in
      Site.on_fs (fun f => FS.mkdir_exist_ok f new_route);;
      let new_filepath := Pathlib.joinpath new_route filename in
      Site.on_fs (fun f => FS.copy f filepath new_filepath)) st = Ok (u, st') ->
  FS.read_file (Site.fs st) filepath = Ok content ->
  exists f',
    st' = Site.set_fs f' st /\ keeps content (Site.fs st) f' /\
    forall r, r ∈ rest ->
      let new_filepath := Pathlib.joinpath (Site.route_dir cfg r) filename in
      FS.read_file f' new_filepath = Ok content \/
      FS.is_dir f' new_filepath = true /\
      FS.read_file f' (Pathlib.joinpath new_filepath (false, [Pathlib.name filepath]))
        = Ok content.
Proof.
  induction rest as [|r rest IH]; intros st u st' Hloop Hsrc; simpl in Hloop.
  - apply ret_ok in Hloop as [_ ->].
    exists (Site.fs st). split; [by destruct st|].
    split; [apply keeps_refl|]. intros r Hr. by apply elem_of_nil in Hr.
  - apply bind_ok in Hloop as (u1 & st1 & Hbody & Hloop).
    apply bind_ok in Hbody as (u2 & st2 & Hmk & Hcp).
    apply on_fs_ok in Hmk as (f1 & Hmk & ->).
    apply on_fs_ok in Hcp as (f2 & Hcp & ->). simpl in Hcp.
    pose proof (mkdir_keeps content _ _ _ Hmk) as Hk1.
    destruct (copy_ok content _ _ _ _ (read_file_keeps _ _ _ _ Hk1 Hsrc) Hcp) as [Hk2 Hdst].
    apply IH in Hloop as (f' & -> & Hk3 & Hrest);
      [|simpl; eauto using read_file_keeps].
    simpl in Hk3. exists f'. split; [by destruct st|].
    split; [eauto using keeps_trans|].
    intros r' Hr'. apply elem_of_cons in Hr' as [->|Hr']; [|by apply Hrest].
    simpl. destruct Hdst as [Hfile|[Hdir Hfile]].
    + left. by eapply read_file_keeps.
    + right. split; [|by eapply read_file_keeps].
      eapply is_dir_keeps; [exact Hk3|]. eapply is_dir_keeps; [exact Hk2|done].
Qed.

(** What a call of [_render_output] that returns has done. *)
Lemma render_output_ok (page : Page.t) (st : State) out st' :
  _render_output page st = Ok (out, st') ->
  exists r0 rest filename f1,
    Page.routes page = r0 :: rest /\
    FS.mkdir_exist_ok (Site.fs st) (Site.route_dir cfg r0) = Ok f1 /\
    Pathlib.with_suffix (Pathlib.parse (Page.slug page))
                        (extension (Site.engine_of cfg page)) = Ok filename /\
    let filepath := Pathlib.joinpath (Site.route_dir cfg r0) filename in
    let st1 := Site.set_fs f1 st in
    let content := engine_render (Site.engine_of cfg page) page
                                 (get_public_attributes st1 page) in
    if Site._is_unique st1 filepath page then
      out = Site.written filename /\
      exists f', st' = after_write page f' st /\
        FS.read_file f' filepath = Ok content /\
        forall r, r ∈ rest ->
          let new_filepath := Pathlib.joinpath (Site.route_dir cfg r) filename in
          FS.read_file f' new_filepath = Ok content \/
          FS.is_dir f' new_filepath = true /\
          FS.read_file f' (Pathlib.joinpath new_filepath (false, [Pathlib.name filepath]))
            = Ok content
    else out = Site.skipped filename /\ st' = st1.
Proof.
  unfold Site._render_output. intros Hr.
  apply bind_ok in Hr as (r0 & st0 & Hr0 & Hr).
  apply lift_ok in Hr0 as [Hr0 ->].
  destruct (Page.routes page) as [|r0' rest] eqn:Hroutes; [discriminate|].
  injection Hr0 as ->.
  apply bind_ok in Hr as (u1 & st1 & Hmk & Hr).
  apply on_fs_ok in Hmk as (f1 & Hmk & ->).
  apply bind_ok in Hr as (filename & st2 & Hfn & Hr).
  apply lift_ok in Hfn as [Hfn ->].
  apply bind_ok in Hr as (st2 & st3 & Hget & Hr).
  apply get_ok in Hget as [-> ->].
  exists r0, rest, filename, f1. repeat (split; [done|]). simpl.
  destruct (Site._is_unique _ _ page) eqn:Hu.
  2:{ apply ret_ok in Hr as [-> ->]. done. }
  apply bind_ok in Hr as (u2 & st2 & Hlog & Hr). apply modify_ok in Hlog as ->.
  apply bind_ok in Hr as (u3 & st3 & Hadd & Hr).
  apply bind_ok in Hr as (u4 & st4 & Hwr & Hr).
  apply on_fs_ok in Hwr as (f2 & Hwr & ->).
  apply bind_ok in Hr as (u5 & st5 & Hloop & Hr).
  apply ret_ok in Hr as [-> ->]. split; [done|].
  set (content := engine_render _ page _) in *.
  assert (Hst3 : st3 = Site.set_hashes
            (if Page.always_refresh page then Site.hashes st
             else {[Site.hash_content page]} ∪ Site.hashes st)
            (Site.set_engine_calls
               (Site.engine_calls st ++ [(Site.engine_of cfg page, page)])
               (Site.set_fs f1 st))).
  { destruct (Page.always_refresh page); simpl in Hadd.
    - apply ret_ok in Hadd as [_ ->]. by destruct st.
    - apply modify_ok in Hadd as ->. by destruct st. }
  subst st3. simpl in Hwr.
  pose proof (read_written _ _ _ _ Hwr) as Hfp.
  destruct rest as [|r1 rest].
  - simpl in Hloop. apply ret_ok in Hloop as [_ ->]. exists f2.
    split; [by destruct st|]. split; [done|].
    intros r Hr. by apply elem_of_nil in Hr.
  - change (1 <? length (r0 :: r1 :: rest))%nat with true in Hloop.
    change (drop 1 (r0 :: r1 :: rest)) with (r1 :: rest) in Hloop.
    cbv iota in Hloop.
    eapply copy_loop_ok in Hloop as (f' & -> & Hk & Hrest); [|exact Hfp].
    exists f'. split; [by destruct st|].
    split; [by eapply read_file_keeps|exact Hrest].
Qed.

End Facts.
End RenderFacts.

(** ** The render loop *)

Module PassFacts.
Import MonadFacts FSFacts RenderFacts.

Section Facts.
Context {K : Type} `{PySort.PyOrd K} {Attrs : Type}.
Variable cfg : Site.Config.
Variable get_public_attributes : @Site.State K -> Page.t -> Attrs.
Variable engine_render : Engine -> Page.t -> Attrs -> string.

Abbreviation State := (@Site.State K).
Abbreviation _render_output :=
  (Site._render_output cfg get_public_attributes engine_render).

(** The loop [for page in self.routes: self._render_output(page)], one
    step per page. *)
Inductive steps : State -> list Page.t -> list Site.Outcome -> State -> Prop :=
| steps_nil st : steps st [] [] st
| steps_cons st page out st1 ps outs st' :
    _render_output page st = Ok (out, st1) ->
    steps st1 ps outs st' ->
    steps st (page :: ps) (out :: outs) st'.

Lemma map_each_steps (ps : list Page.t) (st : State) outs st' :
  Site.map_each ps _render_output st = Ok (outs, st') <-> steps st ps outs st'.
Proof.
  revert st outs. induction ps as [|p ps IH]; intros st outs; simpl.
  - rewrite ret_ok. split.
    + intros [-> ->]. constructor.
    + inversion 1. done.
  - rewrite bind_ok. split.
    + intros (o & st1 & Hp & Hrest).
      apply bind_ok in Hrest as (os & st2 & Hrest & Hret).
      apply ret_ok in Hret as [-> ->]. econstructor; [exact Hp|by apply IH].
    + inversion 1; subst. eexists _, _. split; [eassumption|].
      apply bind_ok. eexists _, _. split; [by apply IH|]. by apply ret_ok.
Qed.

(** The fingerprints a pass adds: those of the pages written that are
    not marked [always_refresh]. *)
Fixpoint added (ps : list Page.t) (outs : list Site.Outcome) : gset string :=
  match ps, outs with
  | p :: ps', o :: outs' =>
      (if Site.is_written o && negb (Page.always_refresh p)
       then {[Site.hash_content p]} else ∅) ∪ added ps' outs'
  | _, _ => ∅
  end.

(** One page: the outcome, the cache and what else changes. *)
Lemma render_output_effect (page : Page.t) (st : State) out st' :
  _render_output page st = Ok (out, st') ->
  Site.routes st' = Site.routes st /\
  Site.heap st' = Site.heap st /\
  Site.collections st' = Site.collections st /\
  Site.subcollections st' = Site.subcollections st /\
  Site.hashes st' =
    (if Site.is_written out && negb (Page.always_refresh page)
     then {[Site.hash_content page]} else ∅) ∪ Site.hashes st /\
  Site.engine_calls st' =
    Site.engine_calls st ++
      (if Site.is_written out then [(Site.engine_of cfg page, page)] else []) /\
  (Page.always_refresh page = true -> Site.is_written out = true) /\
  (Site.hash_content page ∉ Site.hashes st -> Site.is_written out = true).
Proof.
  intros Hr. apply render_output_ok in Hr
    as (r0 & rest & filename & f1 & Hroutes & Hmk & Hfn & Hr).
  simpl in Hr.
  destruct (Site._is_unique _ _ page) eqn:Hu.
  - destruct Hr as (-> & f' & -> & _). simpl.
    repeat (split; [done|]).
    split; [destruct (Page.always_refresh page); simpl; [set_solver|done]|done].
  - destruct Hr as [-> ->]. simpl. repeat (split; [done|]).
    split; [set_solver|]. split; [by rewrite app_nil_r|].
    unfold Site._is_unique in Hu. simpl in Hu.
    destruct (Page.always_refresh page); [discriminate|].
    destruct (FS.exists_ f1 _); [|discriminate]. simpl in Hu.
    split; [discriminate|]. intros Hnot.
    apply negb_false_iff, bool_decide_eq_true in Hu. done.
Qed.

Lemma steps_length st ps outs st' : steps st ps outs st' -> length outs = length ps.
Proof. induction 1; simpl; congruence. Qed.

Lemma steps_frame st ps outs st' :
  steps st ps outs st' ->
  Site.routes st' = Site.routes st /\
  Site.heap st' = Site.heap st /\
  Site.collections st' = Site.collections st /\
  Site.subcollections st' = Site.subcollections st /\
  Site.hashes st' = added ps outs ∪ Site.hashes st.
Proof.
  induction 1 as [st|st page out st1 ps outs st' Hp Hs IH]; simpl.
  - repeat (split; [done|]). set_solver.
  - apply render_output_effect in Hp as (? & ? & ? & ? & Hh & _).
    destruct IH as (? & ? & ? & ? & IHh).
    repeat (split; [congruence|]). rewrite IHh, Hh. set_solver.
Qed.


(** A page is written when its fingerprint is neither in the cache at
    the start of the loop nor that of an earlier page that took part in
    caching. *)
Lemma steps_fresh_fingerprint st ps outs st' :
  steps st ps outs st' ->
  forall i p o, ps !! i = Some p -> outs !! i = Some o ->
    Site.hash_content p ∉ Site.hashes st ->
    (forall j q, (j < i)%nat -> ps !! j = Some q -> Page.always_refresh q = false ->
                 Site.hash_content q <> Site.hash_content p) ->
    Site.is_written o = true.
Proof.
  induction 1 as [st|st page out st1 ps outs st' Hp Hs IH];
    intros i p o Hi Ho Hnot Hearlier.
  - done.
  - apply render_output_effect in Hp as (_ & _ & _ & _ & Hh & _ & _ & Hw).
    destruct i as [|i]; simpl in Hi, Ho.
    + injection Hi as ->. injection Ho as ->. auto.
    + eapply IH; [exact Hi|exact Ho| |].
      * rewrite Hh. intros Hin. apply elem_of_union in Hin as [Hin|Hin]; [|done].
        destruct (Site.is_written out && negb (Page.always_refresh page)) eqn:E;
          [|by apply not_elem_of_empty in Hin].
        apply elem_of_singleton in Hin.
        apply andb_true_iff in E as [_ E]. apply negb_true_iff in E.
        eapply (Hearlier 0%nat page); [lia|done|done|done].
      * intros j q Hj Hq. apply (Hearlier (S j) q); [lia|done].
Qed.

End Facts.
End PassFacts.

(** ** The render pass *)

Module SiteFacts.
Import MonadFacts FSFacts RenderFacts PassFacts.

Section Facts.
Context {K : Type} `{PySort.PyOrd K} {Attrs : Type}.
Variable cfg : Site.Config.
Variable glob : FS -> Path -> string -> list Path.
Variable get_public_attributes : @Site.State K -> Page.t -> Attrs.
Variable engine_render : Engine -> Page.t -> Attrs -> string.
Variable order : SetOrder.
Variable get_subcollections :
  FS -> Collection.t K -> Heap -> list (string * list (Collection.t K)) * Heap.

Abbreviation State := (@Site.State K).
Abbreviation _render_subcollections :=
  (Site._render_subcollections glob get_subcollections).
Abbreviation render :=
  (Site.render cfg glob get_public_attributes engine_render order get_subcollections).

(** Steps that touch the route registry, the shared lists and the
    dictionary of subcollections only. *)
Definition registry_only (st st' : State) : Prop :=
  Site.fs st' = Site.fs st /\ Site.hashes st' = Site.hashes st /\
  Site.engine_calls st' = Site.engine_calls st /\
  Site.collections st' = Site.collections st.

Lemma registry_only_refl st : registry_only st st.
Proof. by repeat split. Qed.

Lemma registry_only_trans st1 st2 st3 :
  registry_only st1 st2 -> registry_only st2 st3 -> registry_only st1 st3.
Proof.
  intros (? & ? & ? & ?) (? & ? & ? & ?). repeat split; congruence.
Qed.

Lemma on_heap_registry_only {A} (op : FS -> Heap -> A * Heap) (st : State) a st' :
  Site.on_heap op st = Ok (a, st') -> registry_only st st'.
Proof. intros Hop. apply on_heap_ok in Hop as [_ ->]. by repeat split. Qed.

Lemma append_routes_registry_only (ps : list Page.t) (st : State) u st' :
  Site.for_each ps Site.append_route st = Ok (u, st') -> registry_only st st'.
Proof. rewrite for_each_append_routes. intros [= _ <-]. by repeat split. Qed.

(** The key of a subcollection is read after its pages. *)
Lemma subcollection_key_ok (x : Collection.t K) (st : State) k st' :
  Site.subcollection_key glob x st = Ok (k, st') <->
  exists title, Collection.title x = Some title /\
    k = (length (Collection.pages glob (Site.fs st) x (Site.heap st)).1, title) /\
    st' = Site.set_heap (Collection.pages glob (Site.fs st) x (Site.heap st)).2 st.
Proof.
  unfold Site.subcollection_key. rewrite bind_ok. split.
  - intros (ps & st1 & Hp & Hk). apply on_heap_ok in Hp as [-> ->].
    apply bind_ok in Hk as (title & st2 & Ht & Hret).
    apply lift_ok in Ht as [Ht ->]. apply ret_ok in Hret as [-> ->].
    destruct (Collection.title x) as [t|]; [|discriminate]. injection Ht as ->.
    by exists title.
  - intros (title & Ht & -> & ->). eexists _, _. split; [by apply on_heap_ok|].
    apply bind_ok. exists title, (Site.set_heap
      (Collection.pages glob (Site.fs st) x (Site.heap st)).2 st).
    split; [apply lift_ok; by rewrite Ht|by apply ret_ok].
Qed.

Lemma render_group_registry_only g group (st : State) u st' :
  Site.render_group glob g group st = Ok (u, st') -> registry_only st st'.
Proof.
  unfold Site.render_group, Site.sort_group. intros Hr.
  apply bind_ok in Hr as (sg & st1 & Hsort & Hloop).
  apply bind_ok in Hsort as (keys & st2 & Hkeys & Hret).
  apply ret_ok in Hret as [-> ->].
  eapply registry_only_trans.
  - clear Hloop. revert st keys st2 Hkeys.
    induction group as [|c group IH]; intros st keys st2; simpl.
    + intros Hk. apply ret_ok in Hk as [_ ->]. apply registry_only_refl.
    + intros Hk. apply bind_ok in Hk as (k & st1 & Hk1 & Hk).
      apply bind_ok in Hk as (ks & st3 & Hk2 & Hret). apply ret_ok in Hret as [_ ->].
      apply subcollection_key_ok in Hk1 as (title & _ & _ & ->).
      eapply registry_only_trans; [|eapply IH, Hk2]. by repeat split.
  - eapply (for_each_keeps registry_only);
      [apply registry_only_refl|apply registry_only_trans| |exact Hloop].
    intros c s u0 s' _ Hbody.
    apply bind_ok in Hbody as (u1 & s1 & Hm & Hbody). apply modify_ok in Hm as ->.
    apply bind_ok in Hbody as (a & s2 & Ha & Happ).
    apply on_heap_registry_only in Ha. apply append_routes_registry_only in Happ.
    eapply registry_only_trans; [|eapply registry_only_trans; [exact Ha|exact Happ]].
    by repeat split.
Qed.

Lemma render_subcollections_registry_only (st : State) u st' :
  _render_subcollections st = Ok (u, st') -> registry_only st st'.
Proof.
  unfold Site._render_subcollections. intros Hr.
  apply bind_ok in Hr as (s & st1 & Hg & Hr). apply get_ok in Hg as [-> ->].
  eapply (for_each_keeps registry_only);
    [apply registry_only_refl|apply registry_only_trans| |exact Hr].
  intros kv s u0 s' _ Hbody. simpl in Hbody.
  destruct (Collection.subcollections kv.2);
    [apply ret_ok in Hbody as [_ ->]; apply registry_only_refl|].
  apply bind_ok in Hbody as (groups & s1 & Hgs & Hloop).
  eapply registry_only_trans; [eapply on_heap_registry_only, Hgs|].
  eapply (for_each_keeps registry_only);
    [apply registry_only_refl|apply registry_only_trans| |exact Hloop].
  intros g s2 u1 s3 _ Hb. simpl in Hb.
  apply bind_ok in Hb as (d & s4 & Hd & Hb).
  apply bind_ok in Hb as (grp & s5 & Hl & Hb). apply lift_ok in Hl as [_ ->].
  eapply registry_only_trans; [eapply on_heap_registry_only, Hd|].
  eapply render_group_registry_only, Hb.
Qed.


(** [render], cut at the loop over the routes: [st0] is the state after
    the optional cleaning, [st2] the state the loop starts in, [st3] the
    state it ends in. *)
Lemma render_ok (verbose dry_run strict_arg : bool) (st : State) outs st' :
  render verbose dry_run strict_arg st = Ok (outs, st') ->
  exists st0 f1 st2 st3,
    (if Site.strict cfg || (if dry_run then false else strict_arg)
     then Site.clean cfg st = Ok (tt, st0) else st0 = st) /\
    registry_only (Site.set_fs f1 st0) st2 /\
    steps cfg get_public_attributes engine_render st2 (Site.routes st2) outs st3 /\
    FS.write_text (Site.fs st3) (Site.cache_file cfg)
      (PyStr.join (iter_set order (Site.hashes st3))) = Ok (Site.fs st') /\
    st' = Site.set_fs (Site.fs st') st3.
Proof.
  unfold Site.render. intros Hr.
  apply bind_ok in Hr as (u0 & st0 & Hclean & Hr).
  apply bind_ok in Hr as (u1 & st1 & Hmk & Hr).
  apply on_fs_ok in Hmk as (f0 & Hmk & ->).
  apply bind_ok in Hr as (s & st1 & Hg & Hr). apply get_ok in Hg as [-> ->].
  apply bind_ok in Hr as (u2 & st1 & Hstatic & Hr).
  apply bind_ok in Hr as (u3 & st2 & Hsub & Hr).
  apply bind_ok in Hr as (s & st2' & Hg & Hr). apply get_ok in Hg as [-> ->].
  apply bind_ok in Hr as (msgs & st3 & Hloop & Hr).
  apply bind_ok in Hr as (s & st3' & Hg & Hr). apply get_ok in Hg as [-> ->].
  apply bind_ok in Hr as (u4 & st4 & Hw & Hr).
  apply ret_ok in Hr as [-> ->].
  apply on_fs_ok in Hw as (f4 & Hw & ->).
  apply map_each_steps in Hloop.
  apply render_subcollections_registry_only in Hsub.
  assert (Hst1 : exists f1, st1 = Site.set_fs f1 st0).
  { destruct (FS.is_dir _ _).
    - apply on_fs_ok in Hstatic as (f1 & _ & ->). exists f1. by destruct st0.
    - apply ret_ok in Hstatic as [_ ->]. by exists f0. }
  destruct Hst1 as [f1 ->].
  exists st0, f1, st2, st3. split.
  { destruct (Site.strict cfg || _); [by destruct u0|].
    by apply ret_ok in Hclean as [_ ->]. }
  repeat (split; [done|]). by destruct st3.
Qed.


End Facts.
End SiteFacts.

(** ** The cache file *)

Module CacheFacts.
Import PyStr.

Lemma append_cons (x : ascii) (a b : string) : String x a +:+ b = String x (a +:+ b).
Proof. reflexivity. Qed.

Lemma append_nil_l (b : string) : EmptyString +:+ b = b.
Proof. reflexivity. Qed.

Lemma append_assoc (a b c : string) : (a +:+ b) +:+ c = a +:+ (b +:+ c).
Proof.
  induction a as [|x a IH]; [done|]. by rewrite !append_cons, IH.
Qed.

Lemma plain_append (a b : string) : plain (a +:+ b) = plain a && plain b.
Proof.
  induction a as [|x a IH]; [done|].
  rewrite append_cons. simpl. by rewrite IH, andb_assoc.
Qed.

Lemma plain_byte_no_break (c : ascii) (s : string) :
  plain_byte c = true -> line_break (String c s) = 0.
Proof.
  unfold plain_byte, line_break. intros Hp. apply negb_true_iff in Hp.
  repeat (apply orb_false_iff in Hp as [Hp ?]).
  repeat match goal with E : (_ =? _)%nat = false |- _ => rewrite E; clear E end.
  reflexivity.
Qed.

Lemma plain_byte_not_CR (c : ascii) : plain_byte c = true -> Ascii.eqb c CR = false.
Proof.
  intros Hp. apply Ascii.eqb_neq. intros ->. discriminate.
Qed.

(** A record is read back as one line. *)
Lemma splitlines_go_record (body rest cur : string) :
  plain body = true ->
  splitlines_go 0 cur (body +:+ String LF rest) =
    (cur +:+ body +:+ String LF EmptyString) :: splitlines_go 0 EmptyString rest.
Proof.
  revert cur. induction body as [|c body IH]; intros cur Hp.
  - reflexivity.
  - simpl in Hp. apply andb_true_iff in Hp as [Hc Hp].
    rewrite append_cons. cbn [splitlines_go]. rewrite (plain_byte_no_break c _ Hc).
    rewrite IH by done. by rewrite append_assoc, append_cons, append_nil_l.
Qed.

Lemma splitlines_records (l : list string) :
  Forall is_record l -> splitlines_keepends (join l) = l.
Proof.
  unfold splitlines_keepends. induction 1 as [|x l (body & Hp & ->) _ IH]; [done|].
  cbn [join foldr]. rewrite append_assoc, append_cons, append_nil_l.
  rewrite splitlines_go_record by done. rewrite append_nil_l. f_equal. exact IH.
Qed.

(** Text mode leaves records as they are. *)
Lemma universal_newlines_record (body rest : string) :
  plain body = true ->
  universal_newlines (body +:+ String LF rest) = body +:+ String LF (universal_newlines rest).
Proof.
  induction body as [|c body IH]; intros Hp.
  - reflexivity.
  - simpl in Hp. apply andb_true_iff in Hp as [Hc Hp].
    rewrite !append_cons. cbn [universal_newlines].
    rewrite (plain_byte_not_CR c Hc). by rewrite IH.
Qed.

Lemma universal_newlines_records (l : list string) :
  Forall is_record l -> universal_newlines (join l) = join l.
Proof.
  induction 1 as [|x l (body & Hp & ->) _ IH]; [done|].
  cbn [join foldr]. rewrite append_assoc, append_cons, append_nil_l.
  rewrite universal_newlines_record by done. f_equal. f_equal. exact IH.
Qed.

(** Blank lines after the records are read as lines that hold LF only. *)
Lemma splitlines_blank_lines (k : nat) :
  splitlines_keepends (join (repeat (String LF EmptyString) k)) =
    repeat (String LF EmptyString) k.
Proof.
  apply splitlines_records. apply Forall_forall. intros x Hx.
  apply list_elem_of_In, repeat_spec in Hx as ->. by exists EmptyString.
Qed.

Lemma join_app (l1 l2 : list string) : join (l1 ++ l2) = join l1 +:+ join l2.
Proof.
  induction l1 as [|x l1 IH]; [done|].
  cbn [join foldr app]. fold (join (l1 ++ l2)) (join l1). by rewrite IH, append_assoc.
Qed.

(** The digits of a digest start no line boundary. *)
Lemma hex_digit_plain (n : N) : plain_byte (Hashlib.hex_digit n) = true.
Proof.
  destruct n as [|p]; [reflexivity|].
  do 4 (destruct p as [p|p|]; try reflexivity).
Qed.

Lemma hex_word_plain (w : N) : plain (Hashlib.hex_word w) = true.
Proof.
  unfold Hashlib.hex_word. cbn [rev seq app map string_of_list_ascii plain].
  by rewrite !hex_digit_plain.
Qed.

Lemma hexdigest_plain (s : string) : plain (Hashlib.hexdigest s) = true.
Proof.
  unfold Hashlib.hexdigest. destruct (Hashlib.sha1 s) as [[[[h0 h1] h2] h3] h4].
  by rewrite !plain_append, !hex_word_plain.
Qed.

Lemma length_append (a b : string) :
  String.length (a +:+ b) = (String.length a + String.length b)%nat.
Proof.
  induction a as [|x a IH]; [done|]. rewrite append_cons. simpl. by rewrite IH.
Qed.

Lemma hex_word_length (w : N) : String.length (Hashlib.hex_word w) = 8.
Proof. reflexivity. Qed.

(** A digest has forty digits. *)
Lemma hexdigest_length (s : string) : String.length (Hashlib.hexdigest s) = 40.
Proof.
  unfold Hashlib.hexdigest. destruct (Hashlib.sha1 s) as [[[[h0 h1] h2] h3] h4].
  by rewrite !length_append, !hex_word_length.
Qed.

(** Every fingerprint is a record of the cache file. *)
Lemma hash_content_record (p : Page.t) : is_record (Site.hash_content p).
Proof. eexists. split; [apply hexdigest_plain|reflexivity]. Qed.

Lemma hash_content_not_blank (p : Page.t) : Site.hash_content p <> String LF EmptyString.
Proof.
  unfold Site.hash_content. intros Heq.
  pose proof (hexdigest_length (default EmptyString (Page.base_content p))) as Hl.
  destruct (Hashlib.hexdigest _) as [|c d]; [discriminate|].
  rewrite append_cons in Heq. injection Heq as _ Heq.
  destruct d; [discriminate|]. rewrite append_cons in Heq. discriminate.
Qed.

(** Whatever the order of iteration, the lines of the file written are
    the elements of the set. *)
Lemma saved_cache_loads (order : SetOrder) (s : gset string) :
  set_Forall is_record s ->
  list_to_set (splitlines_keepends
                 (universal_newlines (join (iter_set order s)))) = s.
Proof.
  intros Hrec.
  assert (Forall is_record (iter_set order s)) as Hl.
  { apply Forall_forall. intros x Hx. apply Hrec.
    rewrite (iter_set_perm order s) in Hx. by apply elem_of_elements in Hx. }
  rewrite universal_newlines_records, splitlines_records by done.
  rewrite (iter_set_perm order s). apply list_to_set_elements_L.
Qed.

End CacheFacts.

(** ** Subcollections *)

Module SubcollectionFacts.
Import PySort MonadFacts SiteFacts.

(** The order of the keys [(len(x.pages), x.title)]. *)
Lemma count_title_le (a b : nat * string) :
  py_le a b = true <->
  (a.1 < b.1)%nat \/ (a.1 = b.1 /\ String.leb a.2 b.2 = true).
Proof.
  destruct a as [n1 t1], b as [n2 t2]. simpl. unfold py_lt, py_eqv. simpl.
  destruct (Nat.leb_spec n2 n1), (Nat.leb_spec n1 n2); simpl;
    destruct (String.leb t1 t2); split; intros; try done; try lia; try (right; split; [lia|done]);
    try (left; lia); intuition (try lia; try discriminate).
Qed.

Section Facts.
Context {K : Type} `{PyOrd K}.
Variable glob : FS -> Path -> string -> list Path.

Abbreviation State := (@Site.State K).

(** The counts [len(x.pages)] that [sorted] reads for a group, one
    access of [pages] after the other, and the shared lists afterwards. *)
Fixpoint group_counts (f : FS) (group : list (Collection.t K)) (h : Heap)
    : list nat * Heap :=
  match group with
  | [] => ([], h)
  | x :: group' =>
      let '(ps, h1) := Collection.pages glob f x h in
      let '(counts, h2) := group_counts f group' h1 in
      (length ps :: counts, h2)
  end.

(** The archive pages of a list of collections, one after the other. *)
Fixpoint group_archives (f : FS) (group : list (Collection.t K)) (h : Heap)
    : list Page.t * Heap :=
  match group with
  | [] => ([], h)
  | x :: group' =>
      let '(a, h1) := Collection.archive glob f x h in
      let '(archives, h2) := group_archives f group' h1 in
      (a :: archives, h2)
  end.

Lemma group_counts_length f group h : length (group_counts f group h).1 = length group.
Proof.
  revert h. induction group as [|x group IH]; intros h; simpl; [done|].
  destruct (Collection.pages glob f x h) as [ps h1].
  specialize (IH h1). destruct (group_counts f group h1). simpl in *. by rewrite IH.
Qed.

(** The keys of a group whose subcollections all have a title. *)
Lemma map_each_keys (group : list (Collection.t K)) (titles : list string) (st : State) :
  Collection.title <$> group = Some <$> titles ->
  Site.map_each group (Site.subcollection_key glob) st =
    Ok (zip (group_counts (Site.fs st) group (Site.heap st)).1 titles,
        Site.set_heap (group_counts (Site.fs st) group (Site.heap st)).2 st).
Proof.
  revert titles st. induction group as [|x group IH]; intros [|t titles] st Ht;
    try discriminate; simpl.
  - by destruct st.
  - injection Ht as Hx Ht.
    apply bind_ok.
    exists (length (Collection.pages glob (Site.fs st) x (Site.heap st)).1, t),
           (Site.set_heap (Collection.pages glob (Site.fs st) x (Site.heap st)).2 st).
    split; [apply subcollection_key_ok; by exists t|].
    apply bind_ok. eexists _, _. split; [by apply IH|]. simpl.
    destruct (Collection.pages glob (Site.fs st) x (Site.heap st)) as [ps h1]. simpl.
    destruct (group_counts (Site.fs st) group h1) as [counts h2]. simpl.
    apply ret_ok. split; [done|]. by destruct st.
Qed.

(** A subcollection without a title stops the sort. *)
Lemma map_each_keys_raises (group : list (Collection.t K)) (st : State) :
  None ∈ (Collection.title <$> group) ->
  Site.map_each group (Site.subcollection_key glob) st = Raise AttributeError.
Proof.
  revert st. induction group as [|x group IH]; intros st Hin; simpl in *.
  - by apply elem_of_nil in Hin.
  - unfold mbind at 1, Site.M_bind at 1.
    destruct (Site.subcollection_key glob x st) as [[k st1]|e] eqn:Ek.
    + apply subcollection_key_ok in Ek as (t & Ht & _ & _).
      rewrite Ht in Hin. apply elem_of_cons in Hin as [[=]|Hin].
      unfold mbind, Site.M_bind. by rewrite IH.
    + unfold Site.subcollection_key in Ek.
      unfold mbind at 1, Site.M_bind at 1 in Ek. unfold Site.on_heap in Ek.
      unfold mbind at 1, Site.M_bind at 1 in Ek. cbn [Site.get] in Ek.
      destruct (Collection.pages glob (Site.fs st) x (Site.heap st)) as [ps h1].
      cbv [mbind Site.M_bind Site.modify mret Site.M_ret Site.lift Site.attribute] in Ek.
      destruct (Collection.title x); [discriminate|]. by injection Ek as <-.
Qed.

(** A sort that returned found a title on every subcollection. *)
Lemma map_each_keys_titles (group : list (Collection.t K)) (st : State) keys st' :
  Site.map_each group (Site.subcollection_key glob) st = Ok (keys, st') ->
  exists titles, Collection.title <$> group = Some <$> titles.
Proof.
  revert st keys st'. induction group as [|x group IH]; intros st keys st'; simpl.
  - intros _. by exists [].
  - intros Hk. apply bind_ok in Hk as (k & st1 & Hk1 & Hk).
    apply bind_ok in Hk as (ks & st2 & Hk2 & _).
    apply subcollection_key_ok in Hk1 as (t & Ht & _ & _).
    apply IH in Hk2 as [titles Hts]. exists (t :: titles).
    change (Collection.title x :: (Collection.title <$> group) = Some t :: (Some <$> titles)).
    by rewrite Ht, Hts.
Qed.

Lemma sort_group_ok (group : list (Collection.t K)) (titles : list string) (st : State) :
  Collection.title <$> group = Some <$> titles ->
  Site.sort_group glob group st =
    Ok ((sorted fst true
           (zip (zip (group_counts (Site.fs st) group (Site.heap st)).1 titles) group)).*2,
        Site.set_heap (group_counts (Site.fs st) group (Site.heap st)).2 st).
Proof.
  intros Ht. unfold Site.sort_group. unfold mbind, Site.M_bind.
  by rewrite (map_each_keys group titles).
Qed.

(** The sort changes shared lists only. *)
Lemma sort_group_frame (group : list (Collection.t K)) (st : State) sorted_group st' :
  Site.sort_group glob group st = Ok (sorted_group, st') ->
  exists h, st' = Site.set_heap h st.
Proof.
  unfold Site.sort_group. intros Hs.
  apply bind_ok in Hs as (keys & st1 & Hk & Hret). apply ret_ok in Hret as [_ ->].
  pose proof (map_each_keys_titles _ _ _ _ Hk) as [titles Ht].
  rewrite (map_each_keys group titles st Ht) in Hk. injection Hk as _ <-. by eexists.
Qed.

(** The loop over a sorted group appends the archive pages in the order
    of the group. *)
Lemma archive_loop_ok (g : string) (sorted_group group : list (Collection.t K)) (st : State) :
  exists st',
    Site.for_each group (fun subcollection =>
      Site.modify (fun st =>
        Site.set_subcollections
          (Site.dict_set g sorted_group (Site.subcollections st)) st);;
      archive ← Site.on_heap (fun f => Collection.archive glob f subcollection);
      Site.for_each (Page.iter archive) Site.append_route) st = Ok (tt, st') /\
    Site.routes st' =
      Site.routes st ++ (group_archives (Site.fs st) group (Site.heap st)).1 /\
    Site.heap st' = (group_archives (Site.fs st) group (Site.heap st)).2 /\
    Site.fs st' = Site.fs st /\ Site.hashes st' = Site.hashes st /\
    Site.collections st' = Site.collections st /\
    Site.engine_calls st' = Site.engine_calls st.
Proof.
  revert st. induction group as [|x group IH]; intros st.
  - exists st. simpl. rewrite app_nil_r. by repeat split.
  - cbn [Site.for_each group_archives].
    destruct (Collection.archive glob (Site.fs st) x (Site.heap st)) as [a h1] eqn:Ea.
    set (st1 := Site.set_routes (Site.routes st ++ [a])
                  (Site.set_heap h1
                     (Site.set_subcollections
                        (Site.dict_set g sorted_group (Site.subcollections st)) st))).
    destruct (IH st1) as (st' & Hloop & Hroutes & Hheap & Hfs & Hh & Hc & He).
    exists st'. simpl in Hroutes, Hheap.
    destruct (group_archives (Site.fs st) group h1) as [archives h2]. simpl in *.
    split.
    + apply bind_ok. exists tt, st1. split; [|exact Hloop].
      apply bind_ok. eexists tt, _. split; [by apply modify_ok|].
      apply bind_ok. exists a, (Site.set_heap h1
                     (Site.set_subcollections
                        (Site.dict_set g sorted_group (Site.subcollections st)) st)).
      split; [apply on_heap_ok; simpl; by rewrite Ea|].
      unfold Page.iter. simpl. apply bind_ok. exists tt, st1.
      split; [by apply append_route_ok|by apply ret_ok].
    + rewrite Hroutes, <- app_assoc. by repeat split.
Qed.

End Facts.
End SubcollectionFacts.

(** ** Registration *)

Module RegistrationFacts.
Import MonadFacts.

Section Facts.
Context {K : Type}.
Variable cfg : Site.Config.

Abbreviation State := (@Site.State K).








End Facts.
End RegistrationFacts.

(** ** Cleaning the output tree *)

Module CleanFacts.
Import PySort MonadFacts FSFacts PassFacts SiteFacts CacheFacts.

Lemma added_records (ps : list Page.t) (outs : list Site.Outcome) :
  set_Forall PyStr.is_record (added ps outs).
Proof.
  revert outs. induction ps as [|p ps IH]; intros [|o outs]; simpl;
    try (intros x Hx; by apply not_elem_of_empty in Hx).
  intros x Hx. apply elem_of_union in Hx as [Hx|Hx]; [|by eapply IH].
  destruct (Site.is_written o && negb (Page.always_refresh p));
    [|by apply not_elem_of_empty in Hx].
  apply elem_of_singleton in Hx as ->. apply hash_content_record.
Qed.

Lemma remove_tree_under (f : FS) (p q : Path) :
  FS.under p q -> FS.remove_tree f p !! q = None.
Proof.
  intros Hu. unfold FS.remove_tree. apply map_lookup_filter_None. right.
  intros n _ Hn. by apply Hn.
Qed.

Lemma remove_tree_not_under (f : FS) (p q : Path) :
  ~ FS.under p q -> FS.remove_tree f p !! q = f !! q.
Proof.
  intros Hu. unfold FS.remove_tree. destruct (f !! q) as [n|] eqn:E.
  - by apply map_lookup_filter_Some.
  - apply map_lookup_filter_None. by left.
Qed.

Lemma remove_tree_idem (f : FS) (p : Path) :
  FS.remove_tree (FS.remove_tree f p) p = FS.remove_tree f p.
Proof.
  apply map_eq. intros q. destruct (decide (FS.under p q)).
  - by rewrite !remove_tree_under.
  - by rewrite remove_tree_not_under.
Qed.

Lemma under_refl (p : Path) : FS.under p p.
Proof. split; done. Qed.



End CleanFacts.

(** ** The subcollection expansion *)

Module ExpansionFacts.
Import PySort PySortFacts CollectionFacts MonadFacts SiteFacts SubcollectionFacts.

Section Facts.
Context {K : Type} `{PyOrd K}.
Variable glob : FS -> Path -> string -> list Path.
Variable get_subcollections :
  FS -> Collection.t K -> Heap -> list (string * list (Collection.t K)) * Heap.

Abbreviation State := (@Site.State K).

(** One run of the loop body [render_group]: the grouping key, the
    group, the titles of its subcollections and the state the run starts
    in. *)
Definition Run : Type := string * list (Collection.t K) * list string * State.

(** The archive pages that a run appends: those of the subcollections of
    the group, sorted in descending order by the keys (count, title). *)
Definition run_archives (r : Run) : list Page.t :=
  let '(_, group, titles, st) := r in
  let counts := group_counts glob (Site.fs st) group (Site.heap st) in
  let sorted_group := (sorted fst true (zip (zip counts.1 titles) group)).*2 in
  (group_archives glob (Site.fs st) sorted_group counts.2).1.

(** The loop over the groupings of the collection [c]: for every
    grouping, in the order of the dictionary, [get_subcollections] is
    called once more and [render_group] runs on the group it holds under
    the key of the grouping. *)
Inductive groupings (c : Collection.t K) :
    list (string * list (Collection.t K)) -> State -> list Run -> State -> Prop :=
| groupings_nil st : groupings c [] st [] st
| groupings_cons g groups st group titles st1 trace st' :
    Site.dict_get g.1 (get_subcollections (Site.fs st) c (Site.heap st)).1 = Some group ->
    Collection.title <$> group = Some <$> titles ->
    Site.render_group glob g.1 group
      (Site.set_heap (get_subcollections (Site.fs st) c (Site.heap st)).2 st)
      = Ok (tt, st1) ->
    groupings c groups st1 trace st' ->
    groupings c (g :: groups) st
      ((g.1, group, titles,
        Site.set_heap (get_subcollections (Site.fs st) c (Site.heap st)).2 st) :: trace)
      st'.

(** The loop over the registered collections, in the order of their
    registration: a collection without grouping keys is passed over; for
    every other collection all the groupings that [get_subcollections]
    returns are run. *)
Inductive expansion : list (Collection.t K) -> State -> list Run -> State -> Prop :=
| expansion_nil st : expansion [] st [] st
| expansion_skip c cs st trace st' :
    Collection.subcollections c = [] ->
    expansion cs st trace st' ->
    expansion (c :: cs) st trace st'
| expansion_cons c cs st trace1 st1 trace2 st' :
    Collection.subcollections c <> [] ->
    groupings c (get_subcollections (Site.fs st) c (Site.heap st)).1
      (Site.set_heap (get_subcollections (Site.fs st) c (Site.heap st)).2 st)
      trace1 st1 ->
    expansion cs st1 trace2 st' ->
    expansion (c :: cs) st (trace1 ++ trace2) st'.

Lemma render_group_titles g group (st : State) u st' :
  Site.render_group glob g group st = Ok (u, st') ->
  exists titles, Collection.title <$> group = Some <$> titles.
Proof.
  unfold Site.render_group, Site.sort_group. intros Hr.
  apply bind_ok in Hr as (sg & st1 & Hsort & _).
  apply bind_ok in Hsort as (keys & st2 & Hkeys & _).
  by eapply map_each_keys_titles.
Qed.

(** What a run does. *)
Lemma render_group_ok g group titles (st : State) :
  Collection.title <$> group = Some <$> titles ->
  exists st',
    Site.render_group glob g group st = Ok (tt, st') /\
    Site.routes st' = Site.routes st ++ run_archives (g, group, titles, st) /\
    Site.fs st' = Site.fs st /\ Site.hashes st' = Site.hashes st /\
    Site.collections st' = Site.collections st /\
    Site.engine_calls st' = Site.engine_calls st.
Proof.
  intros Ht. unfold run_archives.
  set (counts := group_counts glob (Site.fs st) group (Site.heap st)).
  set (sorted_group := (sorted fst true (zip (zip counts.1 titles) group)).*2).
  destruct (archive_loop_ok glob g sorted_group sorted_group (Site.set_heap counts.2 st))
    as (st' & Hloop & Hroutes & _ & Hfs & Hh & Hc & He).
  exists st'. split; [|by repeat split].
  unfold Site.render_group. apply bind_ok. eexists _, _.
  split; [by apply sort_group_ok|exact Hloop].
Qed.

Lemma render_group_raises g group (st : State) :
  None ∈ (Collection.title <$> group) ->
  Site.render_group glob g group st = Raise AttributeError.
Proof.
  intros Hin. unfold Site.render_group, Site.sort_group.
  unfold mbind, Site.M_bind. by rewrite map_each_keys_raises.
Qed.

Lemma groupings_loop (c : Collection.t K) groups (st st' : State) :
  Site.for_each groups (fun g =>
      let subcollection_group := g.1 in
      d ← Site.on_heap (fun f => get_subcollections f c);
      _subcollection_group ←
        Site.lift (match Site.dict_get subcollection_group d with
                   | Some v => Ok v
                   | None => Raise KeyError
                   end);
      Site.render_group glob subcollection_group _subcollection_group) st = Ok (tt, st') <->
  exists trace, groupings c groups st trace st'.
Proof.
  split.
  - revert st. induction groups as [|g groups IH]; intros st; simpl.
    + intros Hr. apply ret_ok in Hr as [_ ->]. exists []. constructor.
    + intros Hr. apply bind_ok in Hr as ([] & st1 & Hbody & Hrest).
      apply bind_ok in Hbody as (d & s1 & Hd & Hbody).
      apply on_heap_ok in Hd as [-> ->].
      apply bind_ok in Hbody as (group & s2 & Hl & Hrun). apply lift_ok in Hl as [Hl ->].
      destruct (Site.dict_get g.1 _) as [v|] eqn:Hget; [|discriminate].
      injection Hl as ->.
      destruct (render_group_titles _ _ _ _ _ Hrun) as [titles Ht].
      destruct (IH _ Hrest) as [trace Htrace].
      eexists. econstructor; eassumption.
  - intros [trace Htrace]. induction Htrace as [st|g groups st group titles st1 trace st'
                                                  Hget Ht Hrun Hrest IH]; simpl.
    + by apply ret_ok.
    + apply bind_ok. exists tt, st1. split; [|exact IH].
      apply bind_ok. eexists _, _. split; [by apply on_heap_ok|].
      apply bind_ok. exists group, (Site.set_heap
        (get_subcollections (Site.fs st) c (Site.heap st)).2 st).
      split; [|exact Hrun]. apply lift_ok. simpl. by rewrite Hget.
Qed.

Lemma render_subcollections_expansion (st st' : State) :
  Site._render_subcollections glob get_subcollections st = Ok (tt, st') <->
  exists trace, expansion (Site.collections st).*2 st trace st'.
Proof.
  unfold Site._render_subcollections.
  rewrite bind_ok.
  transitivity (Site.for_each (Site.collections st) (fun kv =>
      let collection := kv.2 in
      match Collection.subcollections collection with
      | [] => mret tt
      | _ :: _ =>
          groups ← Site.on_heap (fun f => get_subcollections f collection);
          Site.for_each groups (fun g =>
            let subcollection_group := g.1 in
            d ← Site.on_heap (fun f => get_subcollections f collection);
            _subcollection_group ←
              Site.lift (match Site.dict_get subcollection_group d with
                         | Some v => Ok v
                         | None => Raise KeyError
                         end);
            Site.render_group glob subcollection_group _subcollection_group)
      end) st = Ok (tt, st')).
  { split.
    - intros (s & st1 & Hg & Hr). by apply get_ok in Hg as [-> ->].
    - intros Hr. exists st, st. split; [by apply get_ok|exact Hr]. }
  generalize (Site.collections st) as l. intros l. revert st.
  induction l as [|kv l IH]; intros st; simpl.
  - split.
    + intros Hr. apply ret_ok in Hr as [_ ->]. exists []. constructor.
    + intros [trace Htrace]. inversion Htrace; subst. by apply ret_ok.
  - rewrite bind_ok. split.
    + intros ([] & st1 & Hbody & Hrest). apply IH in Hrest as [trace2 Hrest].
      destruct (Collection.subcollections kv.2) as [|k ks] eqn:Hsubs.
      * apply ret_ok in Hbody as [_ ->]. exists trace2. by apply expansion_skip.
      * apply bind_ok in Hbody as (groups & s1 & Hgs & Hloop).
        apply on_heap_ok in Hgs as [-> ->].
        apply groupings_loop in Hloop as [trace1 Hloop].
        exists (trace1 ++ trace2). eapply expansion_cons; [by rewrite Hsubs|done|done].
    + intros [trace Htrace]. inversion Htrace as [|c cs s0 tr s' Hnone Hrest
                                                   |c cs s0 tr1 s1 tr2 s' Hsome Hgr Hrest];
        subst.
      * exists tt, st. split; [by rewrite Hnone|]. apply IH. by exists trace.
      * exists tt, s1. split; [|apply IH; by exists tr2].
        destruct (Collection.subcollections kv.2) as [|k ks]; [done|].
        apply bind_ok. eexists _, _. split; [by apply on_heap_ok|].
        apply groupings_loop. by exists tr1.
Qed.

(** The routes that the expansion appends. *)
Lemma groupings_routes c groups (st : State) trace st' :
  groupings c groups st trace st' ->
  Site.routes st' = Site.routes st ++ flat_map run_archives trace /\
  Site.fs st' = Site.fs st /\ Site.hashes st' = Site.hashes st /\
  Site.collections st' = Site.collections st /\
  Site.engine_calls st' = Site.engine_calls st.
Proof.
  induction 1 as [st|g groups st group titles st1 trace st' Hget Ht Hrun Hrest IH].
  - simpl. rewrite app_nil_r. by repeat split.
  - destruct (render_group_ok g.1 group titles
                (Site.set_heap (get_subcollections (Site.fs st) c (Site.heap st)).2 st) Ht)
      as (st1' & Hrun' & Hroutes & Hfs & Hh & Hc & He).
    rewrite Hrun in Hrun'. injection Hrun' as <-.
    destruct IH as (IHr & IHfs & IHh & IHc & IHe).
    cbn [flat_map]. rewrite IHr, Hroutes, <- app_assoc.
    split; [done|]. simpl in *. repeat split; congruence.
Qed.

Lemma expansion_routes cs (st : State) trace st' :
  expansion cs st trace st' ->
  Site.routes st' = Site.routes st ++ flat_map run_archives trace /\
  Site.fs st' = Site.fs st /\ Site.hashes st' = Site.hashes st /\
  Site.collections st' = Site.collections st /\
  Site.engine_calls st' = Site.engine_calls st.
Proof.
  induction 1 as [st|c cs st trace st' Hnone Hrest IH
                    |c cs st trace1 st1 trace2 st' Hsome Hgr Hrest IH].
  - simpl. rewrite app_nil_r. by repeat split.
  - exact IH.
  - apply groupings_routes in Hgr as (Hr1 & Hfs1 & Hh1 & Hc1 & He1).
    destruct IH as (IHr & IHfs & IHh & IHc & IHe). simpl in *.
    rewrite flat_map_app, IHr, Hr1, <- app_assoc.
    split; [done|]. repeat split; congruence.
Qed.

Lemma group_archives_slugs (f : FS) (group : list (Collection.t K)) (h : Heap) :
  Page.slug <$> (group_archives glob f group h).1 = Collection.archive_slug <$> group.
Proof.
  revert h. induction group as [|c group IH]; intros h; simpl; [done|].
  rewrite CollectionFacts.archive_spec. specialize (IH (Collection.pages glob f c h).2).
  destruct (group_archives glob f group _). simpl in *. by f_equal.
Qed.

Lemma descending_count_title (l : list ((nat * string) * Collection.t K)) :
  StronglySorted (descending fst) l ->
  StronglySorted (fun a b => (b.1.1 < a.1.1)%nat \/
                             (b.1.1 = a.1.1 /\ String.leb b.1.2 a.1.2 = true)) l.
Proof.
  induction 1 as [|a l Hs IH Ha]; constructor; [done|].
  eapply Forall_impl; [exact Ha|]. intros b Hb. by apply count_title_le.
Qed.

End Facts.
End ExpansionFacts.

(** ** Runs of the demo site *)

Module DemoFacts.

(** A run that returned is the result it returned. *)
Lemma value_ok {A B} (d : A * B) (r : Result (A * B)) :
  Demo.is_ok r = true -> r = Ok ((Demo.value d r).1, (Demo.value d r).2).
Proof. destruct r as [[a b]|e]; [done|discriminate]. Qed.

Lemma value_ok_unit {B} (d : unit * B) (r : Result (unit * B)) :
  Demo.is_ok r = true -> r = Ok (tt, (Demo.value d r).2).
Proof. destruct r as [[[] b]|e]; [done|discriminate]. Qed.


End DemoFacts.

(** ** Dictionaries *)

Module DictFacts.

Section Facts.
Context {V : Type}.
Implicit Types (d l : list (string * V)) (k : string).

Lemma dict_get_set k k' (v : V) d :
  Site.dict_get k (Site.dict_set k' v d) =
    if String.eqb k' k then Some v else Site.dict_get k d.
Proof.
  induction d as [|[k0 v0] d IH]; simpl; [done|].
  destruct (String.eqb_spec k0 k') as [->|Hne]; simpl; [by destruct (String.eqb k' k)|].
  rewrite IH. destruct (String.eqb_spec k0 k) as [->|Hne2]; [|done].
  by destruct (String.eqb_spec k' k) as [->|_].
Qed.

Lemma dict_set_keys k (v : V) d x :
  x ∈ (Site.dict_set k v d).*1 <-> x = k \/ x ∈ d.*1.
Proof.
  induction d as [|[k0 v0] d IH]; simpl.
  - rewrite list_elem_of_singleton. split; [by left|]. intros [->|Hx]; [done|].
    by apply elem_of_nil in Hx.
  - destruct (String.eqb_spec k0 k) as [->|Hne]; simpl; rewrite !elem_of_cons.
    + tauto.
    + rewrite IH. tauto.
Qed.

Lemma dict_set_NoDup k (v : V) d : NoDup d.*1 -> NoDup (Site.dict_set k v d).*1.
Proof.
  induction d as [|[k0 v0] d IH]; simpl; intros Hnd.
  - apply NoDup_singleton.
  - apply NoDup_cons in Hnd as [Hk0 Hnd].
    destruct (String.eqb_spec k0 k) as [->|Hne]; simpl; apply NoDup_cons.
    + done.
    + split; [|by apply IH]. rewrite dict_set_keys. intros [->|Hin]; done.
Qed.

Lemma dict_get_app k l1 l2 :
  Site.dict_get k (l1 ++ l2) =
    match Site.dict_get k l1 with Some v => Some v | None => Site.dict_get k l2 end.
Proof.
  induction l1 as [|[k0 v0] l1 IH]; simpl; [done|]. by destruct (String.eqb k0 k).
Qed.

Lemma dict_get_None k d : Site.dict_get k d = None <-> k ∉ d.*1.
Proof.
  induction d as [|[k0 v0] d IH]; simpl.
  - split; [intros _ Hk; by apply elem_of_nil in Hk|done].
  - rewrite not_elem_of_cons. destruct (String.eqb_spec k0 k) as [->|Hne].
    + split; [discriminate|]. intros [Hk _]. done.
    + rewrite IH. split; [intros Hk; split; [congruence|done]|tauto].
Qed.

(** Updating a dictionary with pairs, one after the other. *)
Lemma update_get k d l :
  Site.dict_get k (foldl (fun d kv => Site.dict_set kv.1 kv.2 d) d l) =
    match Reflection.last_value k l with
    | Some v => Some v
    | None => Site.dict_get k d
    end.
Proof.
  unfold Reflection.last_value. revert d. induction l as [|[k0 v0] l IH]; intros d; simpl; [done|].
  rewrite IH, dict_get_app, dict_get_set. simpl.
  by destruct (Site.dict_get k (rev l)), (String.eqb k0 k).
Qed.

Lemma update_NoDup d l :
  NoDup d.*1 -> NoDup (foldl (fun d kv => Site.dict_set kv.1 kv.2 d) d l).*1.
Proof.
  revert d. induction l as [|[k0 v0] l IH]; intros d Hnd; simpl; [done|].
  by apply IH, dict_set_NoDup.
Qed.

(** In a dictionary every name has one value. *)
Lemma last_value_dict k d :
  NoDup d.*1 -> Reflection.last_value k d = Site.dict_get k d.
Proof.
  unfold Reflection.last_value.
  induction d as [|[k0 v0] d IH]; simpl; intros Hnd; [done|].
  apply NoDup_cons in Hnd as [Hk0 Hnd]. rewrite dict_get_app, IH by done. simpl.
  destruct (String.eqb_spec k0 k) as [->|Hne].
  - apply dict_get_None in Hk0. by rewrite Hk0.
  - by destruct (Site.dict_get k d).
Qed.

Lemma last_value_public k l :
  Reflection.last_value k (Reflection.public l) =
    if String.prefix "__" k then None else Reflection.last_value k l.
Proof.
  unfold Reflection.last_value, Reflection.public. rewrite <- List.filter_rev.
  induction (rev l) as [|[k0 v0] r IH]; simpl; [by destruct (String.prefix "__" k)|].
  destruct (String.prefix "__" k0) eqn:Ep; simpl.
  - rewrite IH. destruct (String.eqb_spec k0 k) as [->|Hne]; [by rewrite Ep|done].
  - rewrite IH. destruct (String.eqb_spec k0 k) as [->|Hne]; [by rewrite Ep|done].
Qed.

End Facts.
End DictFacts.

(** ** Splitting at a separator, removing a tree *)

Module CliFacts.
Import CacheFacts.

Lemma partition_Some sep s a b :
  Cli.partition sep s = Some (a, b) <->
  s = a +:+ String sep b /\ Pathlib.contains sep a = false.
Proof.
  revert a. induction s as [|c s IH]; intros a; simpl.
  - split; [discriminate|]. intros [Hs _]. destruct a; discriminate.
  - destruct (Ascii.eqb_spec c sep) as [->|Hne].
    + split.
      * intros [= <- <-]. done.
      * intros [Hs Hc]. destruct a as [|x a]; [by injection Hs as ->|].
        rewrite append_cons in Hs. injection Hs as <- _. simpl in Hc.
        by rewrite Ascii.eqb_refl in Hc.
    + apply Ascii.eqb_neq in Hne. split.
      * destruct (Cli.partition sep s) as [[a' b']|]; [|discriminate]. simpl.
        intros [= <- <-]. destruct (proj1 (IH a') eq_refl) as [-> E2].
        split; [done|]. simpl. by rewrite Hne.
      * intros [Hs Hc]. destruct a as [|x a].
        { injection Hs as ->. by rewrite Ascii.eqb_refl in Hne. }
        rewrite append_cons in Hs. injection Hs as <- Hs. simpl in Hc.
        apply orb_false_iff in Hc as [_ Hc].
        by rewrite (proj2 (IH a) (conj Hs Hc)).
Qed.

Lemma partition_None sep s :
  Cli.partition sep s = None <-> Pathlib.contains sep s = false.
Proof.
  induction s as [|c s IH]; simpl; [done|].
  destruct (Ascii.eqb c sep); simpl; [done|].
  destruct (Cli.partition sep s) as [[a b]|]; simpl.
  - split; [discriminate|]. intros Hc. apply IH in Hc. discriminate.
  - split; [|done]. intros _. by apply IH.
Qed.

Lemma rmtree_dir (f : FS) (p : Path) :
  p.2 <> [] -> FS.is_dir f p = true ->
  Cli.remove_output_folder f p = Ok (FS.remove_tree f p).
Proof.
  unfold Cli.remove_output_folder, FS.is_dir, FS.exists_, FS.rmtree.
  destruct p.2; [done|]. by destruct (FS.lookup_node f p) as [[|c]|].
Qed.
End CliFacts.

(** ** Registering a collection *)

Module RegistryFacts.
Import PySort MonadFacts RegistrationFacts.

Section Facts.
Context {K : Type} `{PyOrd K}.
Variable cfg : Site.Config.
Variable glob : FS -> Path -> string -> list Path.










End Facts.
End RegistryFacts.

(** ** Paths that stay *)

Module ExistenceFacts.
Import FSFacts.

(** Every path that exists in [f] exists in [f']. *)
Definition keeps_paths (f f' : FS) : Prop :=
  forall q, FS.exists_ f q = true -> FS.exists_ f' q = true.

Lemma keeps_paths_refl f : keeps_paths f f.
Proof. by intros q. Qed.

Lemma keeps_paths_trans f1 f2 f3 :
  keeps_paths f1 f2 -> keeps_paths f2 f3 -> keeps_paths f1 f3.
Proof. intros H1 H2 q Hq. by apply H2, H1. Qed.

Lemma insert_keeps_paths (f : FS) (p : Path) (n : node) : keeps_paths f (<[p := n]> f).
Proof.
  intros q. unfold FS.exists_, FS.lookup_node. destruct q.2; [done|].
  destruct (decide (p = q)) as [->|Hne]; [by rewrite lookup_insert_eq|].
  by rewrite lookup_insert_ne.
Qed.

(** What a successful [mkdir] does. *)
Lemma mkdir_ok f p f' :
  FS.mkdir_exist_ok f p = Ok f' ->
  f' = f \/ (f !! p = None /\ f' = <[p := Dir]> f).
Proof.
  unfold FS.mkdir_exist_ok.
  destruct (FS.lookup_node f p) as [[|c]|] eqn:E; try discriminate.
  - intros [= <-]. by left.
  - apply lookup_node_None in E.
    destruct (FS.lookup_node f (Pathlib.parent p)) as [[|c]|]; try discriminate.
    intros [= <-]. by right.
Qed.

Lemma mkdir_keeps_paths f p f' : FS.mkdir_exist_ok f p = Ok f' -> keeps_paths f f'.
Proof.
  intros Hm. apply mkdir_ok in Hm as [->|[_ ->]];
    [apply keeps_paths_refl|apply insert_keeps_paths].
Qed.

Lemma write_text_keeps_paths f p c f' : FS.write_text f p c = Ok f' -> keeps_paths f f'.
Proof. intros Hw. apply write_text_ok in Hw as (-> & _). apply insert_keeps_paths. Qed.

Lemma copy_keeps_paths f src dst f' : FS.copy f src dst = Ok f' -> keeps_paths f f'.
Proof.
  unfold FS.copy. destruct (FS.lookup_node f src) as [[|c]|]; try discriminate;
    case_decide; try discriminate.
  apply write_text_keeps_paths.
Qed.

Lemma makedirs_from_keeps_paths anchor todo : forall f done f',
  FS.makedirs_from f anchor done todo = Ok f' -> keeps_paths f f'.
Proof.
  induction todo as [|x todo IH]; intros f done f'; simpl.
  - intros [= <-]. apply keeps_paths_refl.
  - destruct (FS.mkdir_exist_ok f (anchor, done ++ [x])) as [f1|e] eqn:E; [|discriminate].
    simpl. intros Hrest. eapply keeps_paths_trans; [by eapply mkdir_keeps_paths|by eapply IH].
Qed.

Lemma foldM_keeps_paths {A} (step : FS -> A -> Result FS) (l : list A) :
  (forall f a f', step f a = Ok f' -> keeps_paths f f') ->
  forall f f', FS.foldM step l f = Ok f' -> keeps_paths f f'.
Proof.
  intros Hstep. induction l as [|a l IH]; intros f f'; simpl.
  - intros [= <-]. apply keeps_paths_refl.
  - destruct (step f a) as [f1|e] eqn:E; [|discriminate]. simpl.
    intros Hrest. eapply keeps_paths_trans; [by eapply Hstep|by eapply IH].
Qed.

Lemma copytree_keeps_paths f src dst f' : FS.copytree f src dst = Ok f' -> keeps_paths f f'.
Proof.
  unfold FS.copytree.
  destruct (FS.makedirs f dst) as [f1|e] eqn:E1; [|discriminate]. simpl.
  destruct (FS.foldM _ _ f1) as [f2|e] eqn:E2; [|discriminate]. simpl.
  destruct (FS.foldM _ _ f2) as [f3|e] eqn:E3; [|discriminate].
  intros [= <-].
  eapply keeps_paths_trans; [by eapply makedirs_from_keeps_paths|].
  eapply keeps_paths_trans.
  - eapply foldM_keeps_paths; [|exact E2]. intros g [rel [|c]] g'; simpl.
    + apply makedirs_from_keeps_paths.
    + intros [= <-]. apply keeps_paths_refl.
  - eapply foldM_keeps_paths; [|exact E3]. intros g [rel [|c]] g'; simpl.
    + intros [= <-]. apply keeps_paths_refl.
    + apply copy_keeps_paths.
Qed.

End ExistenceFacts.

(** ** Rendering again *)

Module IncrementalFacts.
Import PySort MonadFacts FSFacts RenderFacts PassFacts SiteFacts ExistenceFacts.

Section Growth.
Context {K : Type}.
Variable cfg : Site.Config.

Abbreviation State := (@Site.State K).

(** The cache and the files only grow. *)
Definition grows (st st' : State) : Prop :=
  Site.hashes st ⊆ Site.hashes st' /\ keeps_paths (Site.fs st) (Site.fs st').

Lemma grows_refl st : grows st st.
Proof. split; [done|apply keeps_paths_refl]. Qed.

Lemma grows_trans st1 st2 st3 : grows st1 st2 -> grows st2 st3 -> grows st1 st3.
Proof.
  intros [H1 H2] [H3 H4]. split; [set_solver|by eapply keeps_paths_trans].
Qed.

(** A page that takes part in caching is settled when its fingerprint is
    in the cache and its output file exists. *)
Definition settled (st : State) (page : Page.t) : Prop :=
  Page.always_refresh page = false ->
  Site.hash_content page ∈ Site.hashes st /\
  forall r0 filename,
    head (Page.routes page) = Some r0 ->
    Pathlib.with_suffix (Pathlib.parse (Page.slug page))
                        (extension (Site.engine_of cfg page)) = Ok filename ->
    FS.exists_ (Site.fs st) (Pathlib.joinpath (Site.route_dir cfg r0) filename) = true.

Lemma settled_grows st st' page : grows st st' -> settled st page -> settled st' page.
Proof.
  intros [Hh Hf] Hs Hr. destruct (Hs Hr) as [Hin Hex].
  split; [set_solver|]. intros r0 filename Hr0 Hfn. by apply Hf, Hex.
Qed.

Lemma copy_loop_keeps_paths (filename filepath : Path) (rest : list string)
    (st : State) u st' :
  Site.for_each rest (fun new_route =>
      let new_route := Site.route_dir cfg new_route in
      Site.on_fs (fun f => FS.mkdir_exist_ok f new_route);;
      let new_filepath := Pathlib.joinpath new_route filename in
      Site.on_fs (fun f => FS.copy f filepath new_filepath)) st = Ok (u, st') ->
  Site.hashes st' = Site.hashes st /\ keeps_paths (Site.fs st) (Site.fs st').
Proof.
  apply (for_each_keeps
           (fun s s' => Site.hashes s' = Site.hashes s /\ keeps_paths (Site.fs s) (Site.fs s'))).
  - intros s. split; [done|apply keeps_paths_refl].
  - intros s1 s2 s3 [H1 H2] [H3 H4]. split; [congruence|by eapply keeps_paths_trans].
  - intros r s u0 s' _ Hbody.
    apply bind_ok in Hbody as (u2 & s2 & Hmk & Hcp).
    apply on_fs_ok in Hmk as (f1 & Hmk & ->).
    apply on_fs_ok in Hcp as (f2 & Hcp & ->). simpl in *.
    split; [done|].
    eapply keeps_paths_trans; [by eapply mkdir_keeps_paths|by eapply copy_keeps_paths].
Qed.

End Growth.

Section Loop.
Context {K : Type} `{PyOrd K} {Attrs : Type}.
Variable cfg : Site.Config.
Variable get_public_attributes : @Site.State K -> Page.t -> Attrs.
Variable engine_render : Engine -> Page.t -> Attrs -> string.

Abbreviation State := (@Site.State K).

(** Rendering a page removes nothing, and leaves the page settled. *)
Lemma render_output_grows (page : Page.t) (st : State) out st' :
  Site._render_output cfg get_public_attributes engine_render page st = Ok (out, st') ->
  grows st st' /\ settled cfg st' page.
Proof.
  intros Hr. pose proof Hr as Hr'.
  apply render_output_ok in Hr'
    as (r0 & rest & filename & f1 & Hroutes & Hmk & Hfn & Hcase).
  assert (Hg : grows st st').
  { unfold Site._render_output in Hr.
    apply bind_ok in Hr as (r0' & st0 & Hr0 & Hr). apply lift_ok in Hr0 as [_ ->].
    apply bind_ok in Hr as (u1 & st1 & Hmk' & Hr).
    apply on_fs_ok in Hmk' as (f1' & Hmk' & ->).
    apply bind_ok in Hr as (fn & st2 & Hfn' & Hr). apply lift_ok in Hfn' as [_ ->].
    apply bind_ok in Hr as (st2 & st3 & Hget & Hr). apply get_ok in Hget as [-> ->].
    pose proof (mkdir_keeps_paths _ _ _ Hmk') as Hk1.
    destruct (Site._is_unique _ _ page).
    2:{ apply ret_ok in Hr as [_ ->]. split; [done|exact Hk1]. }
    apply bind_ok in Hr as (u2 & st2 & Hlog & Hr). apply modify_ok in Hlog as ->.
    apply bind_ok in Hr as (u3 & st3 & Hadd & Hr).
    apply bind_ok in Hr as (u4 & st4 & Hwr & Hr).
    apply on_fs_ok in Hwr as (f2 & Hwr & ->).
    apply bind_ok in Hr as (u5 & st5 & Hloop & Hr). apply ret_ok in Hr as [_ ->].
    assert (Hst3 : Site.hashes st ⊆ Site.hashes st3 /\ Site.fs st3 = f1').
    { destruct (negb (Page.always_refresh page)).
      - apply modify_ok in Hadd as ->. simpl. split; [set_solver|done].
      - apply ret_ok in Hadd as [_ ->]. done. }
    destruct Hst3 as [Hh3 Hf3]. rewrite Hf3 in Hwr.
    pose proof (write_text_keeps_paths _ _ _ _ Hwr) as Hk2.
    assert (Hrest : Site.hashes st5 = Site.hashes (Site.set_fs f2 st3) /\
                    keeps_paths (Site.fs (Site.set_fs f2 st3)) (Site.fs st5)).
    { destruct (1 <? length (Page.routes page))%nat.
      - eapply copy_loop_keeps_paths, Hloop.
      - apply ret_ok in Hloop as [_ ->]. split; [done|apply keeps_paths_refl]. }
    destruct Hrest as [Hh5 Hk3]. simpl in Hh5, Hk3.
    split; [by rewrite Hh5|].
    eauto using keeps_paths_trans. }
  split; [exact Hg|]. intros Hrefresh. simpl in Hcase.
  assert (Hfp : Site.hash_content page ∈ Site.hashes st' /\
                FS.exists_ (Site.fs st')
                  (Pathlib.joinpath (Site.route_dir cfg r0) filename) = true).
  { destruct (Site._is_unique _ _ page) eqn:Hu.
    - destruct Hcase as (_ & f' & -> & Hread & _). simpl. rewrite Hrefresh.
      split; [set_solver|]. unfold FS.read_file in Hread. unfold FS.exists_.
      by destruct (FS.lookup_node f' _).
    - destruct Hcase as [_ ->]. unfold Site._is_unique in Hu. simpl in *.
      rewrite Hrefresh in Hu.
      destruct (FS.exists_ f1 _); [|discriminate]. simpl in Hu.
      apply negb_false_iff, bool_decide_eq_true in Hu. done. }
  destruct Hfp as [Hin Hex]. split; [exact Hin|].
  intros r0' fn' Hr0 Hfn'. rewrite Hroutes in Hr0. injection Hr0 as <-.
  rewrite Hfn in Hfn'. by injection Hfn' as <-.
Qed.

(** After the loop every page of it is settled. *)
Lemma steps_settle st ps outs st' :
  steps cfg get_public_attributes engine_render st ps outs st' ->
  grows st st' /\ Forall (settled cfg st') ps.
Proof.
  induction 1 as [st|st page out st1 ps outs st' Hp Hs [IHg IHs]].
  - split; [apply grows_refl|constructor].
  - apply render_output_grows in Hp as [Hg Hsettled].
    split; [by eapply grows_trans|]. constructor; [|done].
    by eapply settled_grows.
Qed.

(** A loop over settled pages writes the pages marked [always_refresh]
    and no other, and leaves the cache as it is. *)
Lemma steps_settled st ps outs st' :
  steps cfg get_public_attributes engine_render st ps outs st' ->
  Forall (settled cfg st) ps ->
  Forall2 (fun p o => Site.is_written o = Page.always_refresh p) ps outs /\
  Site.hashes st' = Site.hashes st /\
  Site.engine_calls st' =
    Site.engine_calls st ++
      ((fun p => (Site.engine_of cfg p, p)) <$> List.filter Page.always_refresh ps).
Proof.
  induction 1 as [st|st page out st1 ps outs st' Hp Hs IH]; intros Hall.
  - split; [constructor|]. split; [done|]. simpl. by rewrite app_nil_r.
  - apply Forall_cons in Hall as [Hpage Hall].
    pose proof (render_output_grows _ _ _ _ Hp) as [Hg _].
    pose proof (render_output_effect _ _ _ _ _ _ _ Hp)
      as (_ & _ & _ & _ & Hh & Hcalls & Hrefresh & _).
    assert (Hout : Site.is_written out = Page.always_refresh page).
    { destruct (Page.always_refresh page) eqn:Ea; [by apply Hrefresh|].
      destruct (Hpage Ea) as [Hin Hex].
      apply render_output_ok in Hp
        as (r0 & rest & filename & f1 & Hroutes & Hmk & Hfn & Hcase).
      simpl in Hcase.
      assert (Hu : Site._is_unique (Site.set_fs f1 st)
                     (Pathlib.joinpath (Site.route_dir cfg r0) filename) page = false).
      { unfold Site._is_unique. simpl. rewrite Ea.
        rewrite (mkdir_keeps_paths _ _ _ Hmk _ (Hex r0 filename ltac:(by rewrite Hroutes) Hfn)).
        simpl. apply negb_false_iff, bool_decide_eq_true. exact Hin. }
      rewrite Hu in Hcase. by destruct Hcase as [-> _]. }
    destruct IH as (IHo & IHh & IHc).
    { eapply Forall_impl; [exact Hall|]. intros p. by apply settled_grows. }
    split; [by constructor|].
    rewrite Hout in Hh, Hcalls.
    split.
    + rewrite IHh, Hh. destruct (Page.always_refresh page); simpl; set_solver.
    + rewrite IHc, Hcalls. simpl.
      destruct (Page.always_refresh page); simpl; by rewrite <- ?app_assoc, ?app_nil_r.
Qed.

End Loop.

Section Pass.
Context {K : Type} `{PyOrd K} {Attrs : Type}.
Variable cfg : Site.Config.
Variable glob : FS -> Path -> string -> list Path.
Variable get_public_attributes : @Site.State K -> Page.t -> Attrs.
Variable engine_render : Engine -> Page.t -> Attrs -> string.
Variable order : SetOrder.
Variable get_subcollections :
  FS -> Collection.t K -> Heap -> list (string * list (Collection.t K)) * Heap.

Abbreviation State := (@Site.State K).

(** Without grouping keys the subcollection expansion does nothing. *)
Lemma render_subcollections_none (st : State) :
  Forall (fun kv => Collection.subcollections kv.2 = []) (Site.collections st) ->
  Site._render_subcollections glob get_subcollections st = Ok (tt, st).
Proof.
  unfold Site._render_subcollections. intros Hnone.
  apply bind_ok. exists st, st. split; [by apply get_ok|].
  induction Hnone as [|kv cs Hkv _ IH]; simpl; [done|].
  apply bind_ok. exists tt, st. split; [by rewrite Hkv|exact IH].
Qed.

Lemma clean_frame (st : State) u st0 :
  Site.clean cfg st = Ok (u, st0) ->
  Site.routes st0 = Site.routes st /\ Site.collections st0 = Site.collections st.
Proof.
  unfold Site.clean. intros Hc.
  apply bind_ok in Hc as (s & st1 & Hg & Hc). apply get_ok in Hg as [-> ->].
  apply bind_ok in Hc as (u1 & st1 & Hrm & Hm). apply modify_ok in Hm as ->.
  destruct (FS.exists_ _ _).
  - apply on_fs_ok in Hrm as (f & _ & ->). done.
  - apply ret_ok in Hrm as [_ ->]. done.
Qed.

(** [render] on a site without grouping keys, cut at the loop: [st0] is
    the state after the optional cleaning, [f1] the files after the output
    directory is made and the static files are copied. *)
Lemma render_plain (verbose dry_run strict_arg : bool) (st : State) outs st' :
  Forall (fun kv => Collection.subcollections kv.2 = []) (Site.collections st) ->
  Site.render cfg glob get_public_attributes engine_render order get_subcollections
              verbose dry_run strict_arg st = Ok (outs, st') ->
  exists st0 f1 st3,
    (if Site.strict cfg || (if dry_run then false else strict_arg)
     then Site.clean cfg st = Ok (tt, st0) else st0 = st) /\
    keeps_paths (Site.fs st0) f1 /\
    steps cfg get_public_attributes engine_render
          (Site.set_fs f1 st0) (Site.routes st) outs st3 /\
    grows st3 st' /\
    Site.routes st' = Site.routes st /\ Site.collections st' = Site.collections st /\
    Site.hashes st' = Site.hashes st3 /\ Site.engine_calls st' = Site.engine_calls st3.
Proof.
  unfold Site.render. intros Hnone Hr.
  apply bind_ok in Hr as (u0 & st0 & Hclean & Hr).
  apply bind_ok in Hr as (u1 & st1 & Hmk & Hr).
  apply on_fs_ok in Hmk as (f0 & Hmk & ->).
  apply bind_ok in Hr as (s & st1 & Hg & Hr). apply get_ok in Hg as [-> ->].
  apply bind_ok in Hr as (u2 & st1 & Hstatic & Hr).
  apply bind_ok in Hr as (u3 & st2 & Hsub & Hr).
  apply bind_ok in Hr as (s & st2' & Hg & Hr). apply get_ok in Hg as [-> ->].
  apply bind_ok in Hr as (msgs & st3 & Hloop & Hr).
  apply bind_ok in Hr as (s & st3' & Hg & Hr). apply get_ok in Hg as [-> ->].
  apply bind_ok in Hr as (u4 & st4 & Hw & Hr).
  apply ret_ok in Hr as [-> ->].
  apply on_fs_ok in Hw as (f4 & Hw & ->).
  apply map_each_steps in Hloop.
  assert (Hst0 : (if Site.strict cfg || (if dry_run then false else strict_arg)
                  then Site.clean cfg st = Ok (tt, st0) else st0 = st) /\
                 Site.routes st0 = Site.routes st /\
                 Site.collections st0 = Site.collections st).
  { destruct (Site.strict cfg || _).
    - destruct u0. split; [done|]. by eapply clean_frame.
    - by apply ret_ok in Hclean as [_ ->]. }
  destruct Hst0 as (Hst0 & Hroutes0 & Hcol0).
  assert (Hst1 : exists f1, st1 = Site.set_fs f1 st0 /\ keeps_paths (Site.fs st0) f1).
  { pose proof (mkdir_keeps_paths _ _ _ Hmk) as Hk0.
    destruct (FS.is_dir _ _).
    - apply on_fs_ok in Hstatic as (f1 & Hcp & ->). exists f1.
      split; [by destruct st0|]. simpl in Hcp.
      eapply keeps_paths_trans; [exact Hk0|by eapply copytree_keeps_paths].
    - apply ret_ok in Hstatic as [_ ->]. by exists f0. }
  destruct Hst1 as (f1 & -> & Hk1).
  rewrite render_subcollections_none in Hsub by (simpl; by rewrite Hcol0).
  destruct u3. injection Hsub as <-. simpl in Hloop. rewrite Hroutes0 in Hloop.
  exists st0, f1, st3. split; [exact Hst0|]. split; [exact Hk1|]. split; [exact Hloop|].
  apply steps_frame in Hloop as (Hr3 & _ & Hc3 & _). simpl in *.
  split; [split; [done|by eapply write_text_keeps_paths]|].
  repeat split; congruence.
Qed.

(** A render that does not clean removes no file and no fingerprint. *)
Lemma render_grows (verbose dry_run strict_arg : bool) (st : State) outs st' :
  Site.strict cfg || (if dry_run then false else strict_arg) = false ->
  Site.render cfg glob get_public_attributes engine_render order get_subcollections
              verbose dry_run strict_arg st = Ok (outs, st') ->
  grows st st'.
Proof.
  unfold Site.render. intros Hplain Hr. rewrite Hplain in Hr.
  apply bind_ok in Hr as (u0 & st0 & Hclean & Hr). apply ret_ok in Hclean as [_ ->].
  apply bind_ok in Hr as (u1 & st1 & Hmk & Hr).
  apply on_fs_ok in Hmk as (f0 & Hmk & ->).
  apply bind_ok in Hr as (s & st1 & Hg & Hr). apply get_ok in Hg as [-> ->].
  apply bind_ok in Hr as (u2 & st1 & Hstatic & Hr).
  apply bind_ok in Hr as (u3 & st2 & Hsub & Hr).
  apply bind_ok in Hr as (s & st2' & Hg & Hr). apply get_ok in Hg as [-> ->].
  apply bind_ok in Hr as (msgs & st3 & Hloop & Hr).
  apply bind_ok in Hr as (s & st3' & Hg & Hr). apply get_ok in Hg as [-> ->].
  apply bind_ok in Hr as (u4 & st4 & Hw & Hr).
  apply ret_ok in Hr as [_ ->].
  apply on_fs_ok in Hw as (f4 & Hw & ->).
  apply map_each_steps, steps_settle in Hloop as [Hloop _].
  apply render_subcollections_registry_only in Hsub as (Hfs2 & Hh2 & _).
  assert (Hst1 : Site.hashes st1 = Site.hashes st /\ keeps_paths (Site.fs st) (Site.fs st1)).
  { pose proof (mkdir_keeps_paths _ _ _ Hmk) as Hk0.
    destruct (FS.is_dir _ _).
    - apply on_fs_ok in Hstatic as (f1 & Hcp & ->). simpl in *. split; [done|].
      eapply keeps_paths_trans; [exact Hk0|by eapply copytree_keeps_paths].
    - by apply ret_ok in Hstatic as [_ ->]. }
  destruct Hst1 as [Hh1 Hk1].
  eapply grows_trans; [|eapply grows_trans; [exact Hloop|]].
  - split; [by rewrite Hh2, Hh1|by rewrite Hfs2].
  - split; [done|]. simpl. by eapply write_text_keeps_paths.
Qed.

End Pass.
End IncrementalFacts.

(** ** The routes of a pass *)

Module RouteFacts.
Import PySort MonadFacts PassFacts SiteFacts SubcollectionFacts IncrementalFacts.

Section Facts.
Context {K : Type} `{PyOrd K} {Attrs : Type}.
Variable cfg : Site.Config.
Variable glob : FS -> Path -> string -> list Path.
Variable get_public_attributes : @Site.State K -> Page.t -> Attrs.
Variable engine_render : Engine -> Page.t -> Attrs -> string.
Variable order : SetOrder.
Variable get_subcollections :
  FS -> Collection.t K -> Heap -> list (string * list (Collection.t K)) * Heap.

Abbreviation State := (@Site.State K).

(** The routes of [st], in order, start the routes of [st']. *)
Definition extends (st st' : State) : Prop :=
  Site.routes st `prefix_of` Site.routes st'.

Lemma on_heap_routes {A} (op : FS -> Heap -> A * Heap) (st : State) a st' :
  Site.on_heap op st = Ok (a, st') -> extends st st'.
Proof. intros Hop. apply on_heap_ok in Hop as [_ ->]. by exists []; rewrite app_nil_r. Qed.

Lemma render_group_extends g group (st : State) u st' :
  Site.render_group glob g group st = Ok (u, st') -> extends st st'.
Proof.
  unfold Site.render_group. intros Hr.
  apply bind_ok in Hr as (sg & st1 & Hsort & Hloop).
  apply sort_group_frame in Hsort as [h ->].
  match type of Hloop with
  | Site.for_each ?l _ ?s = _ =>
      destruct (archive_loop_ok glob g l l s) as (st2 & Hloop' & Hroutes & _)
  end.
  rewrite Hloop' in Hloop. injection Hloop as _ <-.
  eexists. exact Hroutes.
Qed.

Lemma render_subcollections_extends (st : State) u st' :
  Site._render_subcollections glob get_subcollections st = Ok (u, st') -> extends st st'.
Proof.
  unfold Site._render_subcollections. intros Hr.
  apply bind_ok in Hr as (s & st1 & Hg & Hr). apply get_ok in Hg as [-> ->].
  eapply (for_each_keeps extends); [| | |exact Hr].
  - intros s. by exists []; rewrite app_nil_r.
  - intros s1 s2 s3 H1 H2. unfold extends in *. by etrans.
  - intros kv s u0 s' _ Hbody. simpl in Hbody.
    destruct (Collection.subcollections kv.2).
    { apply ret_ok in Hbody as [_ ->]. by exists []; rewrite app_nil_r. }
    apply bind_ok in Hbody as (groups & s1 & Hgs & Hloop).
    apply on_heap_routes in Hgs.
    unfold extends in *. etrans; [exact Hgs|].
    eapply (for_each_keeps extends); [| | |exact Hloop].
    + intros t0. by exists []; rewrite app_nil_r.
    + intros t1 t2 t3 H1 H2. unfold extends in *. by etrans.
    + intros g s2 u1 s3 _ Hb. simpl in Hb.
      apply bind_ok in Hb as (d & s4 & Hd & Hb).
      apply bind_ok in Hb as (grp & s5 & Hl & Hb). apply lift_ok in Hl as [_ ->].
      apply on_heap_routes in Hd. apply render_group_extends in Hb.
      unfold extends in *. by etrans.
Qed.

(** [render] keeps the routes it finds and appends what the
    subcollection expansion makes. *)
Lemma render_extends (verbose dry_run strict_arg : bool) (st : State) outs st' :
  Site.render cfg glob get_public_attributes engine_render order get_subcollections
              verbose dry_run strict_arg st = Ok (outs, st') ->
  extends st st' /\ Site.collections st' = Site.collections st.
Proof.
  unfold Site.render. intros Hr.
  apply bind_ok in Hr as (u0 & st0 & Hclean & Hr).
  apply bind_ok in Hr as (u1 & st1 & Hmk & Hr).
  apply on_fs_ok in Hmk as (f0 & Hmk & ->).
  apply bind_ok in Hr as (s & st1 & Hg & Hr). apply get_ok in Hg as [-> ->].
  apply bind_ok in Hr as (u2 & st1 & Hstatic & Hr).
  apply bind_ok in Hr as (u3 & st2 & Hsub & Hr).
  apply bind_ok in Hr as (s & st2' & Hg & Hr). apply get_ok in Hg as [-> ->].
  apply bind_ok in Hr as (msgs & st3 & Hloop & Hr).
  apply bind_ok in Hr as (s & st3' & Hg & Hr). apply get_ok in Hg as [-> ->].
  apply bind_ok in Hr as (u4 & st4 & Hw & Hr).
  apply ret_ok in Hr as [_ ->].
  apply on_fs_ok in Hw as (f4 & Hw & ->).
  apply map_each_steps, steps_frame in Hloop as (Hr3 & _ & Hc3 & _).
  assert (Hst0 : Site.routes st0 = Site.routes st /\
                 Site.collections st0 = Site.collections st).
  { destruct (Site.strict cfg || _).
    - by eapply clean_frame.
    - by apply ret_ok in Hclean as [_ ->]. }
  destruct Hst0 as [Hr0 Hc0].
  assert (Hst1 : Site.routes st1 = Site.routes st0 /\
                 Site.collections st1 = Site.collections st0).
  { destruct (FS.is_dir _ _).
    - by apply on_fs_ok in Hstatic as (f1 & _ & ->).
    - by apply ret_ok in Hstatic as [_ ->]. }
  destruct Hst1 as [Hr1 Hc1].
  pose proof (render_subcollections_registry_only _ _ _ _ _ Hsub) as (_ & _ & _ & Hc2).
  apply render_subcollections_extends in Hsub. unfold extends in *. simpl.
  split; [|congruence]. rewrite Hr3, <- Hr0, <- Hr1. exact Hsub.
Qed.

End Facts.
End RouteFacts.

(** ** A site object made after a pass *)

Module RestartFacts.
Import PySort MonadFacts FSFacts RenderFacts PassFacts SiteFacts CacheFacts CleanFacts.
Import ExistenceFacts IncrementalFacts.

Section Facts.
Context {K : Type} `{PyOrd K} {Attrs : Type}.
Variable cfg : Site.Config.
Variable glob : FS -> Path -> string -> list Path.
Variable get_public_attributes : @Site.State K -> Page.t -> Attrs.
Variable engine_render : Engine -> Page.t -> Attrs -> string.
Variable order : SetOrder.
Variable get_subcollections :
  FS -> Collection.t K -> Heap -> list (string * list (Collection.t K)) * Heap.

Abbreviation State := (@Site.State K).
Abbreviation render :=
  (Site.render cfg glob get_public_attributes engine_render order get_subcollections).

(** After a pass every route is settled. *)
Lemma render_settles (verbose dry_run strict_arg : bool) (st : State) outs st' :
  render verbose dry_run strict_arg st = Ok (outs, st') ->
  Forall (settled cfg st') (Site.routes st').
Proof.
  intros Hr.
  apply render_ok in Hr as (st0 & f1 & st2 & st3 & _ & _ & Hloop & Hw & Hst').
  pose proof (steps_frame _ _ _ _ _ _ _ Hloop) as (Hr3 & _).
  apply steps_settle in Hloop as [_ Hsettled].
  rewrite Hst'. simpl. rewrite Hr3.
  eapply Forall_impl; [exact Hsettled|]. intros p.
  apply settled_grows. split; [done|]. simpl. by eapply write_text_keeps_paths.
Qed.

(** A pass without cleaning over settled pages, on a site without
    grouping keys. *)
Lemma render_of_settled (verbose dry_run strict_arg : bool) (st : State) outs st' :
  Forall (fun kv => Collection.subcollections kv.2 = []) (Site.collections st) ->
  Site.strict cfg || (if dry_run then false else strict_arg) = false ->
  Forall (settled cfg st) (Site.routes st) ->
  render verbose dry_run strict_arg st = Ok (outs, st') ->
  Forall2 (fun p o => Site.is_written o = Page.always_refresh p) (Site.routes st) outs /\
  Site.hashes st' = Site.hashes st /\
  Site.engine_calls st' =
    Site.engine_calls st ++
      ((fun p => (Site.engine_of cfg p, p)) <$>
         List.filter Page.always_refresh (Site.routes st)) /\
  Site.routes st' = Site.routes st.
Proof.
  intros Hnone Hplain Hsettled Hr.
  apply render_plain in Hr
    as (st0 & f1 & st3 & Hst0 & Hk & Hloop & _ & Hroutes & _ & Hh & Hc); [|exact Hnone].
  rewrite Hplain in Hst0. subst st0.
  apply steps_settled in Hloop as (Houts & Hh3 & Hcalls).
  - simpl in Hh3, Hcalls. split; [exact Houts|]. repeat split; congruence.
  - eapply Forall_impl; [exact Hsettled|]. intros p.
    apply settled_grows. split; [done|exact Hk].
Qed.

(** The site object made over the files that a pass left. *)
Lemma init_after_render (verbose dry_run strict_arg : bool) (st : State) outs st'
    (h : Heap) (class_routes : list Page.t) :
  render verbose dry_run strict_arg st = Ok (outs, st') ->
  set_Forall PyStr.is_record (Site.hashes st) ->
  @Site.__init__ K cfg (Site.fs st') h class_routes =
    Ok (Site.Build_State (Site.fs st') h (Site.hashes st') class_routes [] [] []).
Proof.
  intros Hr Hrec.
  apply render_ok in Hr as (st0 & f1 & st2 & st3 & Hclean & Hreg & Hsteps & Hw & Hst').
  pose proof (steps_frame _ _ _ _ _ _ _ Hsteps) as (_ & _ & _ & _ & Hh).
  assert (Hh' : Site.hashes st' = Site.hashes st3) by (by rewrite Hst').
  assert (Hrec3 : set_Forall PyStr.is_record (Site.hashes st3)).
  { rewrite Hh. intros x Hx. apply elem_of_union in Hx as [Hx|Hx];
      [by eapply added_records|].
    destruct Hreg as (_ & Hh2 & _). rewrite Hh2 in Hx. simpl in Hx.
    destruct (Site.strict cfg || _); [|subst; by apply Hrec].
    unfold Site.clean in Hclean.
    apply bind_ok in Hclean as (s & st1 & Hg & Hclean). apply get_ok in Hg as [-> ->].
    apply bind_ok in Hclean as (u & st1 & _ & Hm). apply modify_ok in Hm as ->.
    simpl in Hx. by apply not_elem_of_empty in Hx. }
  pose proof (read_written _ _ _ _ Hw) as Hread.
  unfold Site.__init__.
  rewrite (exists_written _ _ _ _ Hw). unfold FS.read_text. rewrite Hread. simpl.
  unfold mret, Result_ret. f_equal. f_equal. rewrite Hh'. by apply saved_cache_loads.
Qed.

End Facts.
End RestartFacts.

(** ** Runs that raise *)

Module FailureFacts.
Import PySort MonadFacts PassFacts.

Section Facts.
Context {K : Type} `{PyOrd K} {Attrs : Type}.
Variable cfg : Site.Config.
Variable get_public_attributes : @Site.State K -> Page.t -> Attrs.
Variable engine_render : Engine -> Page.t -> Attrs -> string.

Abbreviation State := (@Site.State K).

Abbreviation _render_output :=
  (Site._render_output cfg get_public_attributes engine_render).




End Facts.
End FailureFacts.


(** ** Results of runs *)

Module RunFacts.

Lemma value_ok_skipped {B} (d : Site.Outcome * B) (r : Result (Site.Outcome * B)) :
  Demo.is_ok r = true -> Site.is_written (Demo.value d r).1 = false ->
  r = Ok (Site.skipped (Demo.filename_of (Demo.value d r).1), (Demo.value d r).2).
Proof. destruct r as [[[f|f] b]|e]; try done; discriminate. Qed.

Lemma value_ok_result {A} (d : A) (r : Result A) :
  Demo.is_ok r = true -> r = Ok (Demo.value d r).
Proof. destruct r; [done|discriminate]. Qed.

Lemma Ok_inj {A} (a b : A) : Ok a = Ok b -> a = b.
Proof. by intros [= ->]. Qed.

End RunFacts.

(** ** What a pass writes *)

Module WriteFacts.
Import PySort MonadFacts FSFacts RenderFacts PassFacts SiteFacts ExistenceFacts.
Import IncrementalFacts.











Section Pass.
Context {K : Type} `{PyOrd K} {Attrs : Type}.
Variable cfg : Site.Config.
Variable get_public_attributes : @Site.State K -> Page.t -> Attrs.
Variable engine_render : Engine -> Page.t -> Attrs -> string.

Abbreviation State := (@Site.State K).
Abbreviation _render_output :=
  (Site._render_output cfg get_public_attributes engine_render).
Abbreviation steps := (PassFacts.steps cfg get_public_attributes engine_render).













End Pass.

Section Render.
Context {K : Type} `{PyOrd K} {Attrs : Type}.
Variable cfg : Site.Config.
Variable glob : FS -> Path -> string -> list Path.
Variable get_public_attributes : @Site.State K -> Page.t -> Attrs.
Variable engine_render : Engine -> Page.t -> Attrs -> string.
Variable order : SetOrder.
Variable get_subcollections :
  FS -> Collection.t K -> Heap -> list (string * list (Collection.t K)) * Heap.


End Render.

End WriteFacts.

(** * The claims *)

Import PySort PySortFacts CollectionFacts MonadFacts FSFacts RenderFacts PassFacts.
Import SiteFacts CacheFacts SubcollectionFacts RegistrationFacts CleanFacts ExpansionFacts.
Import DemoFacts DictFacts RegistryFacts ExistenceFacts IncrementalFacts WriteFacts.


(** Closes [run = value] by evaluating the model. *)
Ltac by_evaluation :=
  match goal with |- ?l = _ => vm_cast_no_check (@eq_refl _ l) end.

(** C1. The render pass writes a page exactly when the page is marked
    [always_refresh], or its output file does not exist, or its
    fingerprint is not in the cache; otherwise it skips the page.  The
    first part is [_is_unique] itself; the second part is the decision
    [_render_output] takes, for the output file it resolves (the
    directory of the first route, made if absent, and the slug with the
    engine's extension) and the file system as it is after the directory
    is made. *)
Theorem C1_write_decision {K : Type} `{PyOrd K} {Attrs : Type}
    (cfg : Site.Config) (get_public_attributes : @Site.State K -> Page.t -> Attrs)
    (engine_render : Engine -> Page.t -> Attrs -> string) :
  (forall (st : @Site.State K) (filepath : Path) (page : Page.t),
     Site._is_unique st filepath page = true <->
     Page.always_refresh page = true \/ FS.exists_ (Site.fs st) filepath = false \/
     Site.hash_content page ∉ Site.hashes st) /\
  (forall (page : Page.t) (st : @Site.State K) out st',
     Site._render_output cfg get_public_attributes engine_render page st = Ok (out, st') ->
     exists r0 filename f1,
       head (Page.routes page) = Some r0 /\
       FS.mkdir_exist_ok (Site.fs st) (Site.route_dir cfg r0) = Ok f1 /\
       Pathlib.with_suffix (Pathlib.parse (Page.slug page))
         (extension (Site.engine_of cfg page)) = Ok filename /\
       let filepath := Pathlib.joinpath (Site.route_dir cfg r0) filename in
       out = (if Site._is_unique (Site.set_fs f1 st) filepath page
              then Site.written filename else Site.skipped filename) /\
       (Site.is_written out = true <->
        Page.always_refresh page = true \/ FS.exists_ f1 filepath = false \/
        Site.hash_content page ∉ Site.hashes st)).
Proof.
  assert (Hu : forall (st : @Site.State K) filepath page,
     Site._is_unique st filepath page = true <->
     Page.always_refresh page = true \/ FS.exists_ (Site.fs st) filepath = false \/
     Site.hash_content page ∉ Site.hashes st).
  { intros st filepath page. unfold Site._is_unique.
    destruct (Page.always_refresh page); [by intuition|].
    destruct (FS.exists_ (Site.fs st) filepath); simpl; [|by intuition].
    rewrite negb_true_iff, bool_decide_eq_false. intuition discriminate. }
  split; [exact Hu|].
  intros page st out st' Hr.
  apply render_output_ok in Hr
    as (r0 & rest & filename & f1 & Hroutes & Hmk & Hfn & Hr).
  exists r0, filename, f1. rewrite Hroutes. repeat (split; [done|]).
  simpl in *. specialize (Hu (Site.set_fs f1 st) (Pathlib.joinpath (Site.route_dir cfg r0) filename) page).
  simpl in Hu. rewrite <- Hu.
  destruct (Site._is_unique _ _ page).
  - by destruct Hr as (-> & _).
  - destruct Hr as [-> _]. done.
Qed.

Lemma C1_write_decision_witness :
  exists out st',
    Demo._render_output Demo.home Demo.st0 = Ok (out, st') /\
    exists r0 filename f1,
      head (Page.routes Demo.home) = Some r0 /\
      FS.mkdir_exist_ok (Site.fs Demo.st0) (Site.route_dir Demo.cfg r0) = Ok f1 /\
      Pathlib.with_suffix (Pathlib.parse (Page.slug Demo.home))
        (extension (Site.engine_of Demo.cfg Demo.home)) = Ok filename /\
      let filepath := Pathlib.joinpath (Site.route_dir Demo.cfg r0) filename in
      out = (if Site._is_unique (Site.set_fs f1 Demo.st0) filepath Demo.home
             then Site.written filename else Site.skipped filename) /\
      (Site.is_written out = true <->
       Page.always_refresh Demo.home = true \/ FS.exists_ f1 filepath = false \/
       Site.hash_content Demo.home ∉ Site.hashes Demo.st0).
Proof.
  pose (r := Demo.value (Site.skipped (false, []), Demo.st0)
               (Demo._render_output Demo.home Demo.st0)).
  assert (E : Demo._render_output Demo.home Demo.st0 = Ok (r.1, r.2))
    by (refine (value_ok _ _ _); by_evaluation).
  exists r.1, r.2. split; [exact E|].
  exact (proj2 (C1_write_decision Demo.cfg Demo.get_public_attributes Demo.engine_render)
               Demo.home Demo.st0 _ _ E).
Defined.






(** C10. The fingerprint of a page is a function of its [base_content]
    alone: pages with equal [base_content] have equal fingerprints.  A
    page without the attribute is fingerprinted as a page whose content is
    the empty string, so all such pages, archive pages among them, share
    the fingerprint of the empty string. *)
Theorem C10_fingerprint_of_content (p q : Page.t) :
  (Page.base_content p = Page.base_content q ->
   Site.hash_content p = Site.hash_content q) /\
  (Page.base_content p = None ->
   Site.hash_content p =
     "da39a3ee5e6b4b0d3255bfef95601890afd80709" +:+ String PyStr.LF EmptyString /\
   (Page.base_content q = Some EmptyString \/ Page.base_content q = None ->
    Site.hash_content p = Site.hash_content q)).
Proof.
  unfold Site.hash_content. split.
  - by intros ->.
  - intros ->. split; [by_evaluation|]. by intros [->| ->].
Qed.

Lemma C10_fingerprint_of_content_witness :
  Site.hash_content (Demo.page "a" ["x"] "same" false) =
    Site.hash_content (Demo.page "b" ["y"; "z"] "same" true) /\
  Site.hash_content Demo.blank =
    "da39a3ee5e6b4b0d3255bfef95601890afd80709" +:+ String PyStr.LF EmptyString /\
  Site.hash_content Demo.blank = Site.hash_content (Demo.page "c" [""] "" false).
Proof.
  pose proof (C10_fingerprint_of_content
                (Demo.page "a" ["x"] "same" false)
                (Demo.page "b" ["y"; "z"] "same" true)) as [H1 _].
  pose proof (C10_fingerprint_of_content Demo.blank (Demo.page "c" [""] "" false))
    as [_ H2].
  destruct (H2 eq_refl) as [H3 H4].
  split; [exact (H1 eq_refl)|]. split; [exact H3|exact (H4 (or_introl eq_refl))].
Defined.

(** C4 (the claim fails on the code).  [pages] does not build a new list
    per access: it appends the pages it finds to the list the class holds
    in [content_items] and returns that list.  Over an unchanged content
    source a second access therefore returns what the first returned
    followed by the pages found once more, and only a collection whose
    content path is missing, or holds no matching file, sees the same
    list twice.  For the collection of two posts, three accesses in a row
    return lists of 2, 4 and 6 pages. *)
Theorem C4_pages_accumulate :
  (forall (K : Type) (glob : FS -> Path -> string -> list Path) (f : FS)
          (c : Collection.t K) (h : Heap),
     (Collection.pages glob f c (Collection.pages glob f c h).2).1 =
       (Collection.pages glob f c h).1 ++
       (if FS.exists_ f (Pathlib.parse (Collection.content_path c))
        then Collection.discover glob f c else [])) /\
  length <$> (Collection.pages_times Demo.glob Demo.fs0 3
                (Demo.collection "Blog" "content" false) ∅).1 = [2; 4; 6]%nat.
Proof.
  split.
  - intros K glob f c h.
    destruct (FS.exists_ f (Pathlib.parse (Collection.content_path c))) eqn:E.
    + by apply pages_accumulate.
    + rewrite !pages_missing_path by done. simpl. by rewrite app_nil_r.
  - by_evaluation.
Qed.






(** C7. The cache round-trips.  The file that [render] writes last holds
    the fingerprints of the in-memory set one after the other, in the
    order the set is iterated, each ending in a newline; [__init__] run on
    the file system that [render] leaves loads exactly that set.  (The
    set at the start must hold newline-terminated records only, as it
    does when it was loaded from a missing file or from a file written by
    [render]; the records of a pass all are.)  When the cache file is
    missing [__init__] starts from the empty set.  Blank lines after the
    records are tolerated: loading raises nothing, the set gains at most
    the blank line itself, and no fingerprint of a page is gained or
    lost. *)
Theorem C7_cache_round_trip {K : Type} `{PyOrd K} {Attrs : Type}
    (cfg : Site.Config) (glob : FS -> Path -> string -> list Path)
    (get_public_attributes : @Site.State K -> Page.t -> Attrs)
    (engine_render : Engine -> Page.t -> Attrs -> string) (order : SetOrder)
    (get_subcollections :
       FS -> Collection.t K -> Heap -> list (string * list (Collection.t K)) * Heap) :
  (forall (verbose dry_run strict_arg : bool) (st : @Site.State K) outs st',
     Site.render cfg glob get_public_attributes engine_render order get_subcollections
                 verbose dry_run strict_arg st = Ok (outs, st') ->
     set_Forall PyStr.is_record (Site.hashes st) ->
     FS.read_file (Site.fs st') (Site.cache_file cfg)
       = Ok (PyStr.join (iter_set order (Site.hashes st'))) /\
     Forall PyStr.is_record (iter_set order (Site.hashes st')) /\
     set_Forall PyStr.is_record (Site.hashes st') /\
     forall (h : Heap) (class_routes : list Page.t),
     exists st'' : @Site.State K,
       Site.__init__ cfg (Site.fs st') h class_routes = Ok st'' /\
       Site.hashes st'' = Site.hashes st') /\
  (forall (f : FS) (h : Heap) (class_routes : list Page.t),
     FS.exists_ f (Site.cache_file cfg) = false ->
     exists st : @Site.State K,
       Site.__init__ cfg f h class_routes = Ok st /\ Site.hashes st = ∅) /\
  (forall (f : FS) (h : Heap) (class_routes : list Page.t) (l : list string) (k : nat),
     Forall PyStr.is_record l ->
     FS.read_file f (Site.cache_file cfg)
       = Ok (PyStr.join l +:+ PyStr.join (repeat (String PyStr.LF EmptyString) k)) ->
     exists st : @Site.State K,
       Site.__init__ cfg f h class_routes = Ok st /\
       Site.hashes st =
         list_to_set l ∪ list_to_set (repeat (String PyStr.LF EmptyString) k) /\
       forall p : Page.t, Site.hash_content p ∈ Site.hashes st <-> Site.hash_content p ∈ l).
Proof.
  split; [|split].
  - intros verbose dry_run strict_arg st outs st' Hr Hrec.
    apply render_ok in Hr as (st0 & f1 & st2 & st3 & Hclean & Hreg & Hsteps & Hw & Hst').
    pose proof (steps_frame _ _ _ _ _ _ _ Hsteps) as (_ & _ & _ & _ & Hh).
    assert (Hh' : Site.hashes st' = Site.hashes st3) by (by rewrite Hst').
    assert (Hrec3 : set_Forall PyStr.is_record (Site.hashes st3)).
    { rewrite Hh. intros x Hx. apply elem_of_union in Hx as [Hx|Hx];
        [by eapply added_records|].
      destruct Hreg as (_ & Hh2 & _). rewrite Hh2 in Hx. simpl in Hx.
      destruct (Site.strict cfg || _); [|subst; by apply Hrec].
      unfold Site.clean in Hclean.
      apply bind_ok in Hclean as (s & st1 & Hg & Hclean). apply get_ok in Hg as [-> ->].
      apply bind_ok in Hclean as (u & st1 & _ & Hm). apply modify_ok in Hm as ->.
      simpl in Hx. by apply not_elem_of_empty in Hx. }
    rewrite Hh'.
    assert (Hl : Forall PyStr.is_record (iter_set order (Site.hashes st3))).
    { apply Forall_forall. intros x Hx. apply Hrec3.
      rewrite (iter_set_perm order) in Hx. by apply elem_of_elements in Hx. }
    pose proof (read_written _ _ _ _ Hw) as Hread.
    repeat (split; [done|]).
    intros h class_routes. unfold Site.__init__.
    rewrite (exists_written _ _ _ _ Hw). unfold FS.read_text. rewrite Hread.
    eexists. split; [reflexivity|]. simpl. by apply saved_cache_loads.
  - intros f h class_routes Hmissing. unfold Site.__init__. rewrite Hmissing.
    eexists. split; reflexivity.
  - intros f h class_routes l k Hl Hread.
    assert (Hblank : Forall PyStr.is_record (repeat (String PyStr.LF EmptyString) k)).
    { apply Forall_forall. intros x Hx.
      apply list_elem_of_In, repeat_spec in Hx as ->. by exists EmptyString. }
    assert (Hall : Forall PyStr.is_record (l ++ repeat (String PyStr.LF EmptyString) k))
      by (by apply Forall_app).
    unfold Site.__init__, FS.read_text.
    assert (Hex : FS.exists_ f (Site.cache_file cfg) = true).
    { unfold FS.read_file in Hread. unfold FS.exists_.
      by destruct (FS.lookup_node f (Site.cache_file cfg)). }
    rewrite Hex, Hread, <- join_app.
    eexists. split; [reflexivity|]. simpl.
    rewrite universal_newlines_records, splitlines_records by done.
    rewrite list_to_set_app_L. split; [done|].
    intros p. rewrite elem_of_union, !elem_of_list_to_set. split; [|by left].
    intros [Hin|Hin]; [done|].
    apply list_elem_of_In, repeat_spec in Hin. by apply hash_content_not_blank in Hin.
Qed.

Lemma C7_cache_round_trip_witness :
  exists outs st' st'',
    Demo.render false false false (Site.set_routes [Demo.home; Demo.now] Demo.st0)
      = Ok (outs, st') /\
    FS.read_file (Site.fs st') (Site.cache_file Demo.cfg)
      = Ok (PyStr.join (iter_set Demo.order (Site.hashes st'))) /\
    Demo.__init__ (Site.fs st') ∅ [] = Ok st'' /\
    Site.hashes st'' = Site.hashes st'.
Proof.
  pose (r := Demo.value ([], Demo.st0)
               (Demo.render false false false
                  (Site.set_routes [Demo.home; Demo.now] Demo.st0))).
  assert (E : Demo.render false false false
                (Site.set_routes [Demo.home; Demo.now] Demo.st0) = Ok (r.1, r.2))
    by (refine (value_ok _ _ _); by_evaluation).
  assert (Hrec : set_Forall PyStr.is_record
                   (Site.hashes (Site.set_routes [Demo.home; Demo.now] Demo.st0))).
  { intros x Hx. apply not_elem_of_empty in Hx. destruct Hx. }
  destruct (proj1 (C7_cache_round_trip Demo.cfg Demo.glob Demo.get_public_attributes
                     Demo.engine_render Demo.order Demo.get_subcollections)
              false false false _ _ _ E Hrec) as (Hread & _ & _ & Hinit).
  destruct (Hinit ∅ []) as (st'' & Hst'' & Hh).
  exists r.1, r.2, st''. split; [exact E|]. split; [exact Hread|].
  split; [exact Hst''|exact Hh].
Defined.




(** C6. The subcollection expansion renders each group with the loop
    body [render_group].  On a group whose subcollections all have a
    title it sorts the group by the keys [(len(x.pages), x.title)],
    computed once per subcollection in the order of the group, in
    descending order: the larger count first and, for equal counts, the
    larger title first; subcollections with equal keys keep their order.
    The sorted group is a permutation of the group, and the archive pages
    of its subcollections are appended to the route registry in the
    sorted order.  (A subcollection without a title makes the sort raise
    [AttributeError].)  [_render_subcollections] is the loop over all the
    registered collections in the order of their registration: it passes
    over a collection without grouping keys and, for every other one, runs
    [render_group] for every grouping that [get_subcollections] returns,
    in the order of the groupings; the routes it appends are, run after
    run, the archive pages of the sorted groups. *)
Theorem C6_subcollection_order {K : Type} `{PyOrd K}
    (glob : FS -> Path -> string -> list Path)
    (get_subcollections :
       FS -> Collection.t K -> Heap -> list (string * list (Collection.t K)) * Heap) :
  (forall (g : string) (group : list (Collection.t K)) (titles : list string)
          (st : @Site.State K),
     Collection.title <$> group = Some <$> titles ->
     let counts := (group_counts glob (Site.fs st) group (Site.heap st)).1 in
     let h1 := (group_counts glob (Site.fs st) group (Site.heap st)).2 in
     let keys := zip counts titles in
     let decorated := sorted fst true (zip keys group) in
     let sorted_group := decorated.*2 in
     let archives := (group_archives glob (Site.fs st) sorted_group h1).1 in
     length keys = length group /\
     keys.*2 = titles /\
     decorated ≡ₚ zip keys group /\
     sorted_group ≡ₚ group /\
     StronglySorted (fun a b => (b.1.1 < a.1.1)%nat \/
                                (b.1.1 = a.1.1 /\ String.leb b.1.2 a.1.2 = true))
                    decorated /\
     (forall k, with_key fst k decorated = with_key fst k (zip keys group)) /\
     Page.slug <$> archives = Collection.archive_slug <$> sorted_group /\
     exists st',
       Site.render_group glob g group st = Ok (tt, st') /\
       Site.routes st' = Site.routes st ++ archives) /\
  (forall (g : string) (group : list (Collection.t K)) (st : @Site.State K),
     None ∈ (Collection.title <$> group) ->
     Site.render_group glob g group st = Raise AttributeError) /\
  (forall (st : @Site.State K) st',
     Site._render_subcollections glob get_subcollections st = Ok (tt, st') <->
     exists trace,
       expansion glob get_subcollections (Site.collections st).*2 st trace st') /\
  (forall (cs : list (Collection.t K)) (st : @Site.State K) trace st',
     expansion glob get_subcollections cs st trace st' ->
     Site.routes st' = Site.routes st ++ flat_map (run_archives glob) trace).
Proof.
  split; [|split; [|split]].
  - intros g group titles st Ht. cbv zeta.
    pose proof (group_counts_length glob (Site.fs st) group (Site.heap st)) as Hlen.
    assert (Hlt : length titles = length group).
    { apply (f_equal length) in Ht. by rewrite !length_fmap in Ht. }
    assert (Hlk : length (zip (group_counts glob (Site.fs st) group (Site.heap st)).1
                              titles) = length group).
    { rewrite length_zip_with. lia. }
    split; [exact Hlk|]. split; [apply snd_zip; lia|].
    split; [apply (sorted_perm fst true)|].
    split. { rewrite (sorted_perm fst true). rewrite snd_zip by lia. done. }
    split; [apply descending_count_title, (sorted_ordered fst true)|].
    split; [intros k; apply (sorted_stable fst true)|].
    split; [apply group_archives_slugs|].
    destruct (render_group_ok glob g group titles st Ht) as (st' & Hrun & Hroutes & _).
    exists st'. by split.
  - intros g group st. apply render_group_raises.
  - intros st st'. apply render_subcollections_expansion.
  - intros cs st trace st' Hexp. by apply expansion_routes in Hexp as [Hroutes _].
Qed.

Lemma C6_subcollection_order_witness :
  exists st' trace,
    Site._render_subcollections Demo.glob Demo.by_tags Demo.tagged_start = Ok (tt, st') /\
    expansion Demo.glob Demo.by_tags [Demo.tagged] Demo.tagged_start trace st' /\
    Site.routes st' =
      Site.routes Demo.tagged_start ++ flat_map (run_archives Demo.glob) trace /\
    (group_counts Demo.glob Demo.fs0 [Demo.tag_z; Demo.tag_x; Demo.tag_y] Demo.heap3).1
      = [1; 2; 2]%nat /\
    Collection.title <$>
      (sorted fst true
         (zip (zip (group_counts Demo.glob Demo.fs0 [Demo.tag_z; Demo.tag_x; Demo.tag_y]
                      Demo.heap3).1 ["z"; "x"; "y"])
              [Demo.tag_z; Demo.tag_x; Demo.tag_y])).*2
      = [Some "y"; Some "x"; Some "z"] /\
    Page.title <$> Site.routes st' = ["y"; "x"; "z"].
Proof.
  pose (r := Demo.value (tt, Demo.st0)
               (Site._render_subcollections Demo.glob Demo.by_tags Demo.tagged_start)).
  assert (E : Site._render_subcollections Demo.glob Demo.by_tags Demo.tagged_start
              = Ok (tt, r.2))
    by (refine (value_ok_unit _ _ _); by_evaluation).
  destruct (C6_subcollection_order Demo.glob Demo.by_tags) as (_ & _ & Hloop & Hroutes).
  destruct (proj1 (Hloop Demo.tagged_start r.2) E) as [trace Htrace].
  exists r.2, trace. split; [exact E|]. split; [exact Htrace|].
  split; [exact (Hroutes _ _ _ _ Htrace)|].
  split; [by_evaluation|]. split; by_evaluation.
Defined.

(** * Further properties of the sources *)

Import DictFacts CliFacts RegistryFacts ExistenceFacts IncrementalFacts RouteFacts.
Import RestartFacts FailureFacts RunFacts.

(** X1.  [split_module_site] splits its argument at the first colon: it
    returns a pair exactly when the argument is the first component, a
    colon and the second component, with no colon in the first component
    (so the second keeps every later colon); an argument without a colon
    is refused with [BadParameter]. *)
Theorem split_module_site_spec (module_site : string) :
  (forall import_path site,
     Cli.split_module_site module_site = inl (import_path, site) <->
     module_site = import_path +:+ ":" +:+ site /\
     Pathlib.contains ":" import_path = false) /\
  (Pathlib.contains ":" module_site = false <->
   Cli.split_module_site module_site
     = inr (Cli.BadParameter "module_site must be of the form `module:site`")).
Proof.
  unfold Cli.split_module_site, Cli.split_once. split.
  - intros a b. rewrite <- (partition_Some ":" module_site a b).
    destruct (Cli.partition ":" module_site) as [[a' b']|]; [|done].
    split; [by intros [= -> ->]|by intros [= -> ->]].
  - rewrite <- partition_None.
    destruct (Cli.partition ":" module_site) as [[a' b']|]; done.
Qed.

(** X2.  [remove_output_folder] does nothing when the path does not
    exist, raises [OSError] when it is the working directory or the root
    (which [shutil.rmtree] empties but cannot remove), raises
    [NotADirectoryError] when it is a regular file and otherwise removes
    the directory.  When it returns, every entry outside the path is as
    before, the path no longer exists, nothing is left below a directory
    that was removed, and a second call changes nothing. *)
Theorem remove_output_folder_effect (f : FS) (output_path : Path) :
  Cli.remove_output_folder f output_path =
    match output_path.2, f !! output_path with
    | [], _ => Raise OSError
    | _ :: _, None => Ok f
    | _ :: _, Some Dir => Ok (FS.remove_tree f output_path)
    | _ :: _, Some (File _) => Raise NotADirectoryError
    end /\
  forall f', Cli.remove_output_folder f output_path = Ok f' ->
    (forall q, ~ FS.under output_path q -> f' !! q = f !! q) /\
    FS.exists_ f' output_path = false /\
    (FS.is_dir f output_path = true -> forall q, FS.under output_path q -> f' !! q = None) /\
    Cli.remove_output_folder f' output_path = Ok f'.
Proof.
  unfold Cli.remove_output_folder, FS.exists_, FS.rmtree, FS.is_dir, FS.lookup_node.
  destruct output_path.2 as [|x l] eqn:E2; [split; [done|discriminate]|].
  destruct (f !! output_path) as [[|c]|] eqn:E.
  - split; [done|]. intros f' [= <-].
    split; [intros q Hq; by apply remove_tree_not_under|].
    rewrite remove_tree_under by apply under_refl.
    split; [done|]. split; [|done]. intros _ q Hq. by apply remove_tree_under.
  - split; [done|]. discriminate.
  - split; [done|]. intros f' [= <-]. rewrite E.
    split; [done|]. split; [done|]. split; [discriminate|done].
Qed.

Lemma remove_output_folder_effect_witness :
  Cli.remove_output_folder Demo.fs0 (false, ["output"])
    = Ok (FS.remove_tree Demo.fs0 (false, ["output"])) /\
  FS.remove_tree Demo.fs0 (false, ["output"]) !! (false, ["content"; "a.md"])
    = Demo.fs0 !! (false, ["content"; "a.md"]) /\
  FS.exists_ (FS.remove_tree Demo.fs0 (false, ["output"])) (false, ["output"]) = false /\
  Cli.remove_output_folder (FS.remove_tree Demo.fs0 (false, ["output"])) (false, ["output"])
    = Ok (FS.remove_tree Demo.fs0 (false, ["output"])) /\
  Cli.remove_output_folder Demo.fs0 (false, []) = Raise OSError.
Proof.
  assert (E : Cli.remove_output_folder Demo.fs0 (false, ["output"])
              = Ok (FS.remove_tree Demo.fs0 (false, ["output"])))
    by (apply rmtree_dir; [discriminate|by_evaluation]).
  destruct (proj2 (remove_output_folder_effect Demo.fs0 (false, ["output"])) _ E)
    as (Hout & Hgone & _ & Hidem).
  split; [exact E|]. split; [|split; [exact Hgone|split; [exact Hidem|]]].
  - apply Hout. intros [_ Hp]. simpl in Hp. apply prefix_cons_inv_1 in Hp. discriminate.
  - exact (proj1 (remove_output_folder_effect Demo.fs0 (false, []))).
Defined.

(** X3.  The dictionary that [get_public_attributes] returns has one
    entry per name, no name that starts with two underscores, and gives
    every other name the value the page has for it, or else the value the
    site has for it: on a name that both have, the page wins. *)
Theorem public_attributes_merge {V : Type} (self_members cls_members : list (string * V)) :
  let attrs := Reflection.get_public_attributes self_members cls_members in
  NoDup attrs.*1 /\
  forall name : string,
    Site.dict_get name attrs =
      if String.prefix "__" name then None
      else match Reflection.last_value name cls_members with
           | Some v => Some v
           | None => Reflection.last_value name self_members
           end.
Proof.
  simpl. unfold Reflection.get_public_attributes, Reflection.merge, Reflection.dict_of.
  split.
  - apply update_NoDup, update_NoDup. constructor.
  - intros name. rewrite update_get.
    rewrite last_value_dict by (apply update_NoDup; constructor).
    rewrite !update_get, !last_value_public. simpl.
    destruct (String.prefix "__" name); [done|].
    destruct (Reflection.last_value name cls_members); [done|].
    by destruct (Reflection.last_value name self_members).
Qed.



(** X6.  Rendering a second time without cleaning, on a site with no
    grouping keys: the routes are those of the first pass, a page is
    written exactly when it is marked [always_refresh] (every other page
    is skipped), the cache is as the first pass left it and the engines
    are called for the pages marked [always_refresh] only. *)
Theorem render_again_skips {K : Type} `{PyOrd K} {Attrs : Type}
    (cfg : Site.Config) (glob : FS -> Path -> string -> list Path)
    (get_public_attributes : @Site.State K -> Page.t -> Attrs)
    (engine_render : Engine -> Page.t -> Attrs -> string) (order : SetOrder)
    (get_subcollections :
       FS -> Collection.t K -> Heap -> list (string * list (Collection.t K)) * Heap)
    (verbose dry_run strict_arg verbose' dry_run' strict_arg' : bool)
    (st : @Site.State K) outs st1 outs' st2 :
  Forall (fun kv => Collection.subcollections kv.2 = []) (Site.collections st) ->
  Site.render cfg glob get_public_attributes engine_render order get_subcollections
              verbose dry_run strict_arg st = Ok (outs, st1) ->
  Site.strict cfg || (if dry_run' then false else strict_arg') = false ->
  Site.render cfg glob get_public_attributes engine_render order get_subcollections
              verbose' dry_run' strict_arg' st1 = Ok (outs', st2) ->
  Site.routes st2 = Site.routes st /\
  Forall2 (fun p o => Site.is_written o = Page.always_refresh p) (Site.routes st) outs' /\
  Site.hashes st2 = Site.hashes st1 /\
  Site.engine_calls st2 =
    Site.engine_calls st1 ++
      ((fun p => (Site.engine_of cfg p, p)) <$>
         List.filter Page.always_refresh (Site.routes st)).
Proof.
  intros Hnone Hfirst Hplain Hsecond.
  apply render_plain in Hfirst
    as (st0 & f1 & st3 & _ & _ & Hloop1 & Hg1 & Hroutes1 & Hcol1 & _); [|exact Hnone].
  apply steps_settle in Hloop1 as [_ Hsettled].
  apply render_plain in Hsecond
    as (st0' & f1' & st3' & Hst0' & Hk' & Hloop2 & _ & Hroutes2 & _ & Hh2 & Hc2);
    [|by rewrite Hcol1].
  rewrite Hplain in Hst0'. subst st0'. rewrite Hroutes1 in *.
  apply steps_settled in Hloop2 as (Houts & Hh & Hcalls).
  - simpl in Hh, Hcalls. split; [done|]. split; [exact Houts|]. split; congruence.
  - eapply Forall_impl; [exact Hsettled|]. intros p Hp.
    apply (settled_grows cfg st1 (Site.set_fs f1' st1) p); [split; [done|exact Hk']|].
    exact (settled_grows cfg st3 st1 p Hg1 Hp).
Qed.

Lemma render_again_skips_witness :
  exists outs st1 outs' st2,
    Demo.render false false false (Site.set_routes [Demo.home; Demo.now] Demo.st0)
      = Ok (outs, st1) /\
    Demo.render false false false st1 = Ok (outs', st2) /\
    Forall2 (fun p o => Site.is_written o = Page.always_refresh p)
            [Demo.home; Demo.now] outs' /\
    Site.hashes st2 = Site.hashes st1.
Proof.
  pose (r := Demo.value ([], Demo.st0)
               (Demo.render false false false
                  (Site.set_routes [Demo.home; Demo.now] Demo.st0))).
  assert (E : Demo.render false false false
                (Site.set_routes [Demo.home; Demo.now] Demo.st0) = Ok (r.1, r.2))
    by (refine (value_ok _ _ _); by_evaluation).
  pose (r' := Demo.value ([], Demo.st0) (Demo.render false false false r.2)).
  assert (E' : Demo.render false false false r.2 = Ok (r'.1, r'.2))
    by (refine (value_ok _ _ _); by_evaluation).
  exists r.1, r.2, r'.1, r'.2. split; [exact E|]. split; [exact E'|].
  assert (Hnone : Forall (fun kv : string * Collection.t string =>
                            Collection.subcollections kv.2 = [])
                         (Site.collections (Site.set_routes [Demo.home; Demo.now] Demo.st0)))
    by constructor.
  assert (Hplain : Site.strict Demo.cfg || (if false then false else false) = false)
    by reflexivity.
  pose proof (render_again_skips Demo.cfg Demo.glob Demo.get_public_attributes
                Demo.engine_render Demo.order Demo.get_subcollections
                false false false false false false
                (Site.set_routes [Demo.home; Demo.now] Demo.st0) r.1 r.2 r'.1 r'.2 Hnone)
    as Hagain.
  pose proof (Hagain E) as Hagain1. pose proof (Hagain1 Hplain) as Hagain2.
  destruct (Hagain2 E') as (_ & Houts & Hh & _).
  split; [exact Houts|exact Hh].
Defined.

(** X7.  A page that is skipped leaves the cache, the engine calls and
    the routes as they are and no file changed, made or removed: the one
    thing [_render_output] may have done is to make the directory of the
    first route of the page. *)
Theorem skipped_page_leaves_files {K : Type} `{PyOrd K} {Attrs : Type}
    (cfg : Site.Config) (get_public_attributes : @Site.State K -> Page.t -> Attrs)
    (engine_render : Engine -> Page.t -> Attrs -> string)
    (page : Page.t) (st : @Site.State K) (filename : Path) (st' : @Site.State K) :
  Site._render_output cfg get_public_attributes engine_render page st
    = Ok (Site.skipped filename, st') ->
  Site.hashes st' = Site.hashes st /\
  Site.engine_calls st' = Site.engine_calls st /\
  Site.routes st' = Site.routes st /\
  (forall q c, Site.fs st' !! q = Some (File c) <-> Site.fs st !! q = Some (File c)) /\
  exists r0,
    head (Page.routes page) = Some r0 /\
    FS.is_dir (Site.fs st') (Site.route_dir cfg r0) = true /\
    forall q, q <> Site.route_dir cfg r0 -> Site.fs st' !! q = Site.fs st !! q.
Proof.
  intros Hr. apply render_output_ok in Hr
    as (r0 & rest & filename' & f1 & Hroutes & Hmk & Hfn & Hcase).
  simpl in Hcase. destruct (Site._is_unique _ _ page).
  { by destruct Hcase as [[=] _]. }
  destruct Hcase as [_ ->]. simpl. repeat (split; [done|]).
  assert (Hdir : FS.is_dir f1 (Site.route_dir cfg r0) = true).
  { unfold FS.mkdir_exist_ok in Hmk. unfold FS.is_dir.
    destruct (FS.lookup_node (Site.fs st) (Site.route_dir cfg r0)) as [[|c]|] eqn:E;
      try discriminate.
    - injection Hmk as <-. by rewrite E.
    - destruct (FS.lookup_node (Site.fs st) (Pathlib.parent (Site.route_dir cfg r0)))
        as [[|c]|]; try discriminate.
      injection Hmk as <-. unfold FS.lookup_node in *.
      destruct (Site.route_dir cfg r0).2; [done|]. by rewrite lookup_insert_eq. }
  apply mkdir_ok in Hmk as [->|[Hnone ->]].
  - split; [done|]. exists r0. by rewrite Hroutes.
  - split.
    + intros q c. destruct (decide (Site.route_dir cfg r0 = q)) as [<-|Hne].
      * rewrite lookup_insert_eq, Hnone. split; discriminate.
      * by rewrite lookup_insert_ne.
    + exists r0. rewrite Hroutes. split; [done|]. split; [exact Hdir|].
      intros q Hq. by rewrite lookup_insert_ne.
Qed.

Lemma skipped_page_leaves_files_witness :
  exists filename st',
    Demo._render_output Demo.home Demo.after_first_run = Ok (Site.skipped filename, st') /\
    Site.hashes st' = Site.hashes Demo.after_first_run /\
    Site.engine_calls st' = Site.engine_calls Demo.after_first_run /\
    forall q c, Site.fs st' !! q = Some (File c) <->
                Site.fs Demo.after_first_run !! q = Some (File c).
Proof.
  pose (r := Demo.value (Site.skipped (false, []), Demo.st0)
               (Demo._render_output Demo.home Demo.after_first_run)).
  assert (E : Demo._render_output Demo.home Demo.after_first_run
              = Ok (Site.skipped (Demo.filename_of r.1), r.2))
    by (refine (value_ok_skipped _ _ _ _); by_evaluation).
  exists (Demo.filename_of r.1), r.2. split; [exact E|].
  destruct (skipped_page_leaves_files Demo.cfg Demo.get_public_attributes
              Demo.engine_render Demo.home Demo.after_first_run _ _ E)
    as (Hh & Hc & _ & Hfiles & _).
  split; [exact Hh|]. split; [exact Hc|exact Hfiles].
Defined.





(** X10.  A render that does not clean removes nothing: every
    fingerprint of the cache is still in the cache afterwards, stale or
    not, and every path that existed still exists. *)
Theorem render_keeps_outputs {K : Type} `{PyOrd K} {Attrs : Type}
    (cfg : Site.Config) (glob : FS -> Path -> string -> list Path)
    (get_public_attributes : @Site.State K -> Page.t -> Attrs)
    (engine_render : Engine -> Page.t -> Attrs -> string) (order : SetOrder)
    (get_subcollections :
       FS -> Collection.t K -> Heap -> list (string * list (Collection.t K)) * Heap)
    (verbose dry_run strict_arg : bool) (st : @Site.State K) outs st' :
  Site.strict cfg || (if dry_run then false else strict_arg) = false ->
  Site.render cfg glob get_public_attributes engine_render order get_subcollections
              verbose dry_run strict_arg st = Ok (outs, st') ->
  Site.hashes st ⊆ Site.hashes st' /\
  forall q, FS.exists_ (Site.fs st) q = true -> FS.exists_ (Site.fs st') q = true.
Proof. intros Hplain Hr. by eapply render_grows. Qed.

Lemma render_keeps_outputs_witness :
  exists outs st',
    Demo.render false false false (Site.set_routes [Demo.home; Demo.now] Demo.st0)
      = Ok (outs, st') /\
    Site.hashes (Site.set_routes [Demo.home; Demo.now] Demo.st0) ⊆ Site.hashes st' /\
    FS.exists_ (Site.fs st') (false, ["content"; "a.md"]) = true.
Proof.
  pose (r := Demo.value ([], Demo.st0)
               (Demo.render false false false
                  (Site.set_routes [Demo.home; Demo.now] Demo.st0))).
  assert (E : Demo.render false false false
                (Site.set_routes [Demo.home; Demo.now] Demo.st0) = Ok (r.1, r.2))
    by (refine (value_ok _ _ _); by_evaluation).
  exists r.1, r.2. split; [exact E|].
  destruct (render_keeps_outputs Demo.cfg Demo.glob Demo.get_public_attributes
              Demo.engine_render Demo.order Demo.get_subcollections
              false false false _ _ _ eq_refl E) as [Hh Hf].
  split; [exact Hh|]. apply Hf. reflexivity.
Defined.

(** X11.  [render] drops and reorders no route: the routes registered
    before the pass are, in their order, the first routes after it, and
    the outcome at each of their positions is that of the page
    registered there; what the pass appends comes from the subcollection
    expansion, so a site with no grouping keys keeps its routes as they
    are.  The registered collections do not change. *)
Theorem render_keeps_routes {K : Type} `{PyOrd K} {Attrs : Type}
    (cfg : Site.Config) (glob : FS -> Path -> string -> list Path)
    (get_public_attributes : @Site.State K -> Page.t -> Attrs)
    (engine_render : Engine -> Page.t -> Attrs -> string) (order : SetOrder)
    (get_subcollections :
       FS -> Collection.t K -> Heap -> list (string * list (Collection.t K)) * Heap)
    (verbose dry_run strict_arg : bool) (st : @Site.State K) outs st' :
  Site.render cfg glob get_public_attributes engine_render order get_subcollections
              verbose dry_run strict_arg st = Ok (outs, st') ->
  (exists appended, Site.routes st' = Site.routes st ++ appended /\
                    length outs = (length (Site.routes st) + length appended)%nat) /\
  (forall i p, Site.routes st !! i = Some p ->
     Site.routes st' !! i = Some p /\ exists o, outs !! i = Some o) /\
  Site.collections st' = Site.collections st /\
  (Forall (fun kv => Collection.subcollections kv.2 = []) (Site.collections st) ->
   Site.routes st' = Site.routes st).
Proof.
  intros Hr.
  pose proof (render_extends _ _ _ _ _ _ _ _ _ _ _ _ Hr) as [[appended Happ] Hcol].
  assert (Hlen : length outs = length (Site.routes st')).
  { apply render_ok in Hr as (st0 & f1 & st2 & st3 & _ & _ & Hloop & _ & ->).
    pose proof (steps_length _ _ _ _ _ _ _ Hloop) as Hl.
    apply steps_frame in Hloop as (Hr3 & _). simpl. by rewrite Hr3. }
  split; [exists appended; split; [done|by rewrite Hlen, Happ, length_app]|].
  split.
  { intros i p Hi. split; [rewrite Happ; by apply lookup_app_l_Some|].
    apply lookup_lt_is_Some. rewrite Hlen, Happ, length_app.
    apply lookup_lt_Some in Hi. lia. }
  split; [exact Hcol|].
  intros Hnone. by apply render_plain in Hr as (_ & _ & _ & _ & _ & _ & _ & Hroutes & _).
Qed.

Lemma render_keeps_routes_witness :
  exists outs st',
    Demo.render false false false (Site.set_routes [Demo.home; Demo.now] Demo.st0)
      = Ok (outs, st') /\
    Site.routes st' = [Demo.home; Demo.now] /\
    exists o, outs !! 1%nat = Some o.
Proof.
  pose (r := Demo.value ([], Demo.st0)
               (Demo.render false false false
                  (Site.set_routes [Demo.home; Demo.now] Demo.st0))).
  assert (E : Demo.render false false false
                (Site.set_routes [Demo.home; Demo.now] Demo.st0) = Ok (r.1, r.2))
    by (refine (value_ok _ _ _); by_evaluation).
  exists r.1, r.2. split; [exact E|].
  destruct (render_keeps_routes Demo.cfg Demo.glob Demo.get_public_attributes
              Demo.engine_render Demo.order Demo.get_subcollections
              false false false _ _ _ E) as (_ & Hat & _ & Hsame).
  split; [apply Hsame; constructor|].
  exact (proj2 (Hat 1%nat Demo.now eq_refl)).
Defined.

(** X12.  Incremental builds across site objects.  After a pass whose
    cache held only fingerprints, a site object made over the files the
    pass left loads the cache of the pass from the cache file; when its
    routes are among the routes of the pass and it is rendered without
    cleaning, it writes the pages marked [always_refresh] and skips every
    other page, and its cache stays the cache of the pass. *)
Theorem render_after_restart {K : Type} `{PyOrd K} {Attrs : Type}
    (cfg : Site.Config) (glob : FS -> Path -> string -> list Path)
    (get_public_attributes : @Site.State K -> Page.t -> Attrs)
    (engine_render : Engine -> Page.t -> Attrs -> string) (order : SetOrder)
    (get_subcollections :
       FS -> Collection.t K -> Heap -> list (string * list (Collection.t K)) * Heap)
    (verbose dry_run strict_arg : bool) (st : @Site.State K) outs st1
    (h : Heap) (class_routes : list Page.t) :
  Site.render cfg glob get_public_attributes engine_render order get_subcollections
              verbose dry_run strict_arg st = Ok (outs, st1) ->
  set_Forall PyStr.is_record (Site.hashes st) ->
  class_routes ⊆ Site.routes st1 ->
  exists st2 : @Site.State K,
    Site.__init__ cfg (Site.fs st1) h class_routes = Ok st2 /\
    Site.hashes st2 = Site.hashes st1 /\ Site.routes st2 = class_routes /\
    forall (verbose' dry_run' strict_arg' : bool) outs' st3,
      Site.strict cfg || (if dry_run' then false else strict_arg') = false ->
      Site.render cfg glob get_public_attributes engine_render order get_subcollections
                  verbose' dry_run' strict_arg' st2 = Ok (outs', st3) ->
      Forall2 (fun p o => Site.is_written o = Page.always_refresh p) class_routes outs' /\
      Site.hashes st3 = Site.hashes st1 /\
      Site.engine_calls st3 =
        (fun p => (Site.engine_of cfg p, p)) <$> List.filter Page.always_refresh class_routes.
Proof.
  intros Hr Hrec Hsub.
  eexists. split; [by eapply init_after_render|]. simpl.
  split; [done|]. split; [done|].
  intros verbose' dry_run' strict_arg' outs' st3 Hplain Hr'.
  apply render_settles in Hr.
  apply render_of_settled in Hr' as (Houts & Hh & Hcalls & _); simpl in *;
    [by repeat split|constructor|exact Hplain|].
  apply Forall_forall. intros p Hp.
  assert (Hp1 : settled cfg st1 p).
  { eapply (proj1 (Forall_forall _ _)); [exact Hr|by apply Hsub]. }
  exact Hp1.
Qed.

Lemma render_after_restart_witness :
  exists outs st1 st2 outs' st3,
    Demo.render false false false (Site.set_routes [Demo.home; Demo.now] Demo.st0)
      = Ok (outs, st1) /\
    Demo.__init__ (Site.fs st1) ∅ [Demo.now; Demo.home] = Ok st2 /\
    Demo.render false false false st2 = Ok (outs', st3) /\
    Forall2 (fun p o => Site.is_written o = Page.always_refresh p)
            [Demo.now; Demo.home] outs' /\
    Site.hashes st3 = Site.hashes st1.
Proof.
  pose (r := Demo.value ([], Demo.st0)
               (Demo.render false false false
                  (Site.set_routes [Demo.home; Demo.now] Demo.st0))).
  assert (E : Demo.render false false false
                (Site.set_routes [Demo.home; Demo.now] Demo.st0) = Ok (r.1, r.2))
    by (refine (value_ok _ _ _); by_evaluation).
  assert (Hrec : set_Forall PyStr.is_record
                   (Site.hashes (Site.set_routes [Demo.home; Demo.now] Demo.st0))).
  { intros x Hx. apply not_elem_of_empty in Hx. destruct Hx. }
  assert (Hnone : Forall (fun kv : string * Collection.t string =>
                            Collection.subcollections kv.2 = [])
                         (Site.collections (Site.set_routes [Demo.home; Demo.now] Demo.st0)))
    by constructor.
  assert (Hroutes : Site.routes r.2 = [Demo.home; Demo.now]).
  { pose proof (render_plain Demo.cfg Demo.glob Demo.get_public_attributes
                  Demo.engine_render Demo.order Demo.get_subcollections
                  false false false _ _ _ Hnone E) as (_ & _ & _ & _ & _ & _ & _ & Hsame & _).
    exact Hsame. }
  assert (Hsub : [Demo.now; Demo.home] ⊆ Site.routes r.2).
  { rewrite Hroutes. intros p Hp. apply elem_of_cons in Hp as [->|Hp].
    - right. left.
    - apply list_elem_of_singleton in Hp as ->. left. }
  pose (st2 := Demo.value Demo.st0
                  (Demo.__init__ (Site.fs r.2) ∅ [Demo.now; Demo.home])).
  assert (Ei : Demo.__init__ (Site.fs r.2) ∅ [Demo.now; Demo.home] = Ok st2)
    by (refine (value_ok_result _ _ _); by_evaluation).
  pose (r' := Demo.value ([], Demo.st0) (Demo.render false false false st2)).
  assert (E' : Demo.render false false false st2 = Ok (r'.1, r'.2))
    by (refine (value_ok _ _ _); by_evaluation).
  assert (Hplain : Site.strict Demo.cfg || (if false then false else false) = false)
    by reflexivity.
  pose proof (render_after_restart Demo.cfg Demo.glob Demo.get_public_attributes
                Demo.engine_render Demo.order Demo.get_subcollections
                false false false (Site.set_routes [Demo.home; Demo.now] Demo.st0)
                r.1 r.2 ∅ [Demo.now; Demo.home] E) as Hrestart.
  pose proof (Hrestart Hrec) as Hrestart1.
  destruct (Hrestart1 Hsub) as (st2' & Hinit & _ & _ & Hnext).
  pose proof (Ok_inj _ _ (eq_trans (eq_sym Hinit) Ei)) as Heq. subst st2'.
  pose proof (Hnext false false false r'.1 r'.2 Hplain) as Hnext1.
  destruct (Hnext1 E') as (Houts & Hh & _).
  exists r.1, r.2, st2, r'.1, r'.2.
  split; [exact E|]. split; [exact Ei|]. split; [exact E'|]. split; [exact Houts|exact Hh].
Defined.
